(** * small-Oracle: the gold price feed, its update decision and its ledger

    A shallow embedding of
      - [src/services/goldApiService.js]  (fetch, price calculation, retry),
      - [src/services/oracleUpdater.js]   (change decision, submission, cycle),
      - [contracts/GoldOracle.sol]        (the on-chain record),
    followed by the properties of the specification that concern them.

    JavaScript Numbers are IEEE 754 binary64 values; they are modelled by
    [spec_float] with the operations of [SpecFloat] at precision 53 and
    maximal exponent 1024, so every arithmetic step below rounds exactly as the
    JavaScript engine does.  BigInt and uint256 values are modelled in [Z]. *)

From Stdlib Require Import ZArith Bool List String Lia Arith.
From Stdlib Require Import Floats.SpecFloat.
From Stdlib Require Import DecimalString.
From Equations Require Import Equations.
Import ListNotations.

Open Scope Z_scope.

(* ===================================================================== *)
(** ** JavaScript values used by the services *)
(* ===================================================================== *)

Module JS.

Definition prec : Z := 53.
Definition emax : Z := 1024.

(** A JavaScript Number. *)
Definition number : Type := spec_float.

Definition NaN : number := S754_nan.
Definition pos_zero : number := S754_zero false.
Definition Infinity : number := S754_infinity false.

(** The Number nearest to an integer: an integer literal of the source,
    or [Number(z)] for a BigInt [z]. *)
Definition of_Z (z : Z) : number := binary_normalize prec emax z 0 false.

Definition div (x y : number) : number := SFdiv prec emax x y.
Definition mul (x y : number) : number := SFmul prec emax x y.

(** [x < y], [x <= y] and [x == y] on Numbers. *)
Definition ltb (x y : number) : bool := SFltb x y.
Definition leb (x y : number) : bool := SFleb x y.
Definition eqb (x y : number) : bool := SFeqb x y.

(** A decimal literal [m / 10^k] of the source text, such as [31.1035].
    The literal denotes the Number nearest to the decimal; as long as [m] and
    [10^k] are below [2^53] both are Numbers themselves and the correctly
    rounded quotient is that nearest Number. *)
Definition decimal (m : Z) (k : Z) : number := div (of_Z m) (of_Z (10 ^ k)).

(** [Math.floor]. *)
Definition floor (x : number) : number :=
  match x with
  | S754_finite s m e =>
      if 0 <=? e then x
      else
        let d := 2 ^ (- e) in
        let q := Zpos m / d in
        let n := if s then - (if Zpos m mod d =? 0 then q else q + 1) else q in
        binary_normalize prec emax n 0 s
  | _ => x
  end.

(** [Number.isInteger]. *)
Definition isInteger (x : number) : bool :=
  match x with
  | S754_zero _ => true
  | S754_finite _ m e => if 0 <=? e then true else Zpos m mod 2 ^ (- e) =? 0
  | _ => false
  end.

(** The mathematical value of an integral Number. *)
Definition integer_value (x : number) : Z :=
  match x with
  | S754_finite s m e =>
      let a := if 0 <=? e then Zpos m * 2 ^ e else Zpos m / 2 ^ (- e) in
      if s then - a else a
  | _ => 0
  end.

(** [x < z] for a Number [x] and a BigInt [z]: the comparison is made on
    the mathematical values, and is false when [x] is NaN. *)
Definition number_ltb_bigint (x : number) (z : Z) : bool :=
  match x with
  | S754_nan => false
  | S754_infinity s => s
  | S754_zero _ => 0 <? z
  | S754_finite s m e =>
      let sm := if s then Zneg m else Zpos m in
      if 0 <=? e then sm * 2 ^ e <? z else sm <? z * 2 ^ (- e)
  end.

(** Errors.  [Error msg] is [new Error(msg)]; [RangeError x] is raised by
    [BigInt(x)] when [x] is not an integer; [TypeError] by a property access
    on [null] or [undefined]; [AxiosError] is the rejection of an HTTP
    request, with the status and status text of its [response] property when
    there is one and whether its [request] property is set; [Foreign tag]
    stands for any other error object created by a library. *)
Inductive error : Type :=
| Error (message : string)
| RangeError (culprit : number)
| TypeError
| AxiosError (response : option (Z * string)) (request : bool)
| Foreign (tag : string).

(** [error.response] and [error.request], absent on other errors. *)
Definition error_response (e : error) : option (Z * string) :=
  match e with
  | AxiosError r _ => r
  | _ => None
  end.

Definition error_request (e : error) : bool :=
  match e with
  | AxiosError _ q => q
  | _ => false
  end.

(** The completion of a call: it returns or it throws. *)
Inductive completion (A : Type) : Type :=
| Return (a : A)
| Throw (e : error).
Arguments Return {A} a.
Arguments Throw {A} e.

(** [BigInt(x)] for a Number [x]. *)
Definition BigInt (x : number) : completion Z :=
  if isInteger x then Return (integer_value x) else Throw (RangeError x).

(** The values a parsed JSON document can put in a property.  An array or
    a nested object is kept as [VObject r], [r] being what its conversion to
    a primitive yields: the string [Some s], or [None] when the conversion
    throws.  (A parsed object can shadow the inherited [toString] with an own
    property that is no function, as in [{"toString": 0}]; its conversion
    then throws a TypeError under either hint, and so does that of an array
    holding such an object.) *)
Inductive value : Type :=
| VUndefined
| VNull
| VBool (b : bool)
| VNumber (n : number)
| VString (s : string)
| VObject (repr : option string).

Definition is_zero (x : number) : bool :=
  match x with S754_zero _ => true | _ => false end.

Definition is_nan (x : number) : bool :=
  match x with S754_nan => true | _ => false end.

(** Truthiness, as tested by [if], [&&] and [||]. *)
Definition ToBoolean (v : value) : bool :=
  match v with
  | VUndefined | VNull => false
  | VBool b => b
  | VNumber n => negb (is_zero n || is_nan n)
  | VString s => negb (String.eqb s EmptyString)
  | VObject _ => true
  end.

(** [ToPrimitive]: a primitive is itself, an object the string it
    converts to, if the conversion returns.  [ToString], which a template
    literal applies to a value, throws exactly when this does. *)
Definition ToPrimitive (v : value) : completion value :=
  match v with
  | VObject (Some r) => Return (VString r)
  | VObject None => Throw TypeError
  | _ => Return v
  end.

(** Conversion of an operand of [/] and [*].  The reading of a string as
    a numeric literal is left to the parameter [StringToNumber]; an object
    is converted to a primitive first, which can throw. *)
Definition ToNumber (StringToNumber : string -> number) (v : value)
  : completion number :=
  match v with
  | VUndefined => Return NaN
  | VNull => Return pos_zero
  | VBool b => Return (if b then of_Z 1 else pos_zero)
  | VNumber n => Return n
  | VString s => Return (StringToNumber s)
  | VObject (Some r) => Return (StringToNumber r)
  | VObject None => Throw TypeError
  end.

(** Decimal rendering of an integer in a template literal. *)
Definition show_int (z : Z) : string := NilZero.string_of_int (Z.to_int z).

End JS.

Import JS.

(* ===================================================================== *)
(** ** The binary64 format, for reasoning about Numbers *)
(* ===================================================================== *)

Module Binary64.
Import JS.
Definition emin : Z := -1074.
Definition fexp (k : Z) : Z := Z.max (k - 53) (-1074).

(** Round to nearest, ties to even, of [m / 2^k]. *)
Definition rne (m k : Z) : Z :=
  let q := m / 2 ^ k in
  match 2 * (m mod 2 ^ k) ?= 2 ^ k with
  | Lt => q
  | Eq => if Z.even q then q else q + 1
  | Gt => q + 1
  end.

(** The Number with mantissa [N <= 2^53] at exponent [E]. *)
Definition norm (N E : Z) : spec_float :=
  match N with
  | Zpos p =>
      if N <? 2 ^ 53 then
        if E <=? 971 then S754_finite false p E else S754_infinity false
      else
        if E + 1 <=? 971 then S754_finite false (2 ^ 52)%positive (E + 1)
        else S754_infinity false
  | _ => S754_zero false
  end.

(** What a record of [shr] knows of the bits shifted out of [m]. *)
Definition loc_rel (r s : bool) (rem k : Z) : Prop :=
  match r, s with
  | false, false => rem = 0
  | false, true => 0 < 2 * rem < 2 ^ k
  | true, false => 2 * rem = 2 ^ k
  | true, true => 2 ^ k < 2 * rem
  end.

Definition represents (mrs : shr_record) (m k : Z) : Prop :=
  exists rem, m = shr_m mrs * 2 ^ k + rem /\ 0 <= rem < 2 ^ k /\
              loc_rel (shr_r mrs) (shr_s mrs) rem k.

(** The non-negative Numbers in canonical form. *)
Definition good (x : spec_float) : Prop :=
  match x with
  | S754_zero s => s = false
  | S754_infinity s => s = false
  | S754_nan => False
  | S754_finite s m e => s = false /\ bounded 53 1024 m e = true
  end.

Definition bra := binary_round_aux 53 1024.

(** [m1 * 2^e1 <= m2 * 2^e2], on integers. *)
Definition vle (m1 e1 m2 e2 : Z) : Prop :=
  m1 * 2 ^ (e1 - Z.min e1 e2) <= m2 * 2 ^ (e2 - Z.min e1 e2).

Definition le (x y : spec_float) : Prop := SFleb x y = true.

(** The Numbers that are not negative and not NaN, in any form. *)
Definition nonneg (x : spec_float) : Prop :=
  match x with
  | S754_zero s | S754_infinity s | S754_finite s _ _ => s = false
  | S754_nan => False
  end.

(** A positive normal Number: its mantissa has all 53 digits. *)
Definition normal (c : spec_float) : Prop :=
  match c with
  | S754_finite false m _ => 2 ^ 52 <= Zpos m
  | _ => False
  end.

(** The Numbers that are not positive and not NaN, in any form. *)
Definition nonpos (x : spec_float) : Prop :=
  match x with
  | S754_zero _ => True
  | S754_infinity s | S754_finite s _ _ => s = true
  | S754_nan => False
  end.

Definition with_sign (s : bool) (x : spec_float) : spec_float :=
  match x with
  | S754_zero _ => S754_zero s
  | S754_infinity _ => S754_infinity s
  | S754_finite _ m e => S754_finite s m e
  | S754_nan => S754_nan
  end.

(** A non-negative integer, or [Infinity]. *)
Definition natural_or_Infinity (x : number) : Prop :=
  leb pos_zero x = true /\ (x = Infinity \/ isInteger x = true).

(** A reading of strings under which none is numeric; the statements about
    numeric prices do not depend on the reading. *)
Definition no_numeric_strings : string -> number := fun _ => NaN.
End Binary64.

(* ===================================================================== *)
(** ** Configuration ([config.update]) *)
(* ===================================================================== *)

Module Config.
Definition maxRetries : nat := 3.
Definition retryDelayMs : Z := 5000.
End Config.

(* ===================================================================== *)
(** ** Data exchanged between the services *)
(* ===================================================================== *)

(** The five prices computed by [calculatePrices]: JavaScript Numbers. *)
Record PriceSet : Type := mkPriceSet {
  pricePerGram : number;
  pricePerOunce : number;
  pricePerKarat24 : number;
  pricePerKarat22 : number;
  pricePerKarat18 : number
}.

(** The tuple returned by the contract's [getAllPrices]: BigInts. *)
Record PriceData : Type := mkPriceData {
  pd_pricePerGram : Z;
  pd_pricePerOunce : Z;
  pd_pricePerKarat24 : Z;
  pd_pricePerKarat22 : Z;
  pd_pricePerKarat18 : Z;
  pd_lastUpdated : Z
}.

(** The body of an HTTP response after JSON parsing: an object, of which
    only the [price] property matters ([VUndefined] when it is absent), or
    any other JSON value. *)
Inductive body : Type :=
| Obj (price : value)
| NonObj (v : value).

(** [b.price] *)
Definition get_price (b : body) : completion value :=
  match b with
  | Obj p => Return p
  | NonObj VUndefined | NonObj VNull => Throw TypeError
  | NonObj _ => Return VUndefined
  end.

(** [b && b.price] *)
Definition body_and_price (b : body) : value :=
  match b with
  | Obj p => p
  | NonObj v => if ToBoolean v then VUndefined else v
  end.


Record FeeData : Type := mkFeeData {
  maxFeePerGas : option Z;
  maxPriorityFeePerGas : option Z
}.

Record Receipt : Type := mkReceipt {
  hash : string;
  blockNumber : Z;
  gasUsed : Z
}.

Record TransactionResponse : Type := mkTx {
  tx_hash : string;
  tx_wait : completion Receipt
}.

(** The outside world of one run: what each outbound call answers.  The
    [k]-th HTTP request of the run is answered by [axios_get k]. *)
Record World : Type := mkWorld {
  axios_get : nat -> completion body;
  contract_getAllPrices : completion PriceData;
  contract_estimateGas : PriceSet -> completion Z;
  provider_getFeeData : completion FeeData;
  contract_updatePrices : PriceSet -> Z -> Z -> completion TransactionResponse
}.

(** Observable effects of a run, in order.  Log lines are not recorded. *)
Inductive event : Type :=
| EvHttpGet
| EvSleep (ms : Z)
| EvGetAllPrices
| EvEstimateGas (p : PriceSet)
| EvGetFeeData
| EvSendTransaction (p : PriceSet) (maxFee maxPriorityFee : Z)
| EvWait.

Record state : Type := mkState {
  requests : nat;
  trace : list event
}.

Definition initial_state : state := mkState 0 [].

Definition record (ev : event) (st : state) : state :=
  mkState (requests st) (trace st ++ [ev]).

(** [await new Promise(resolve => setTimeout(resolve, ms))] *)
Definition sleep (ms : Z) (st : state) : state := record (EvSleep ms) st.

(** Effectful computations: a completion and the state it leaves. *)
Definition M (A : Type) : Type := state -> completion A * state.

Definition ret {A} (a : A) : M A := fun st => (Return a, st).
Definition throw {A} (e : error) : M A := fun st => (Throw e, st).

Definition bind {A B} (m : M A) (k : A -> M B) : M B :=
  fun st =>
    match m st with
    | (Return a, st') => k a st'
    | (Throw e, st') => (Throw e, st')
    end.

(** [try { m } catch (error) { h error }] *)
Definition try_catch {A} (m : M A) (h : error -> M A) : M A :=
  fun st =>
    match m st with
    | (Return a, st') => (Return a, st')
    | (Throw e, st') => h e st'
    end.

Definition lift {A} (c : completion A) : M A := fun st => (c, st).

Definition emit (ev : event) : M unit := fun st => (Return tt, record ev st).

Notation "x <- m ;; k" := (bind m (fun x => k))
  (at level 61, m at next level, right associativity).
Notation "m ;;; k" := (bind m (fun _ => k))
  (at level 61, right associativity).

(* ===================================================================== *)
(** ** goldApiService.js *)
(* ===================================================================== *)

Section Services.

(** The reading of a string as a number ([StringToNumber] of ECMA-262). *)
Variable StringToNumber : string -> number.

Definition GRAMS_PER_OUNCE : number := decimal 311035 4.

(** [await axios.get(url, ...)]: the next answer of the world, which is
    the [data] of a response with a success status, or a rejection. *)
Definition axios_request (w : World) : M body :=
  fun st =>
    (axios_get w (requests st),
     record EvHttpGet (mkState (S (requests st)) (trace st))).

(** [fetchGoldPrice].  Before it returns, the function renders
    [response.data.price] in the template literal of its log line, which
    throws when the price is an object whose conversion throws.  That error
    and the one thrown for a malformed body are caught by the function's own
    [catch] block, as a rejection of axios is. *)
Definition fetchGoldPrice (w : World) : M body :=
  try_catch
    (data <- axios_request w ;;
     if ToBoolean (body_and_price data) then
       price <- lift (get_price data) ;;
       lift (ToPrimitive price) ;;;
       ret data
     else throw (Error "Invalid response format from GoldAPI"))
    (fun error =>
       match error_response error with
       | Some (status, _) =>
           throw (Error ("GoldAPI request failed: " ++ show_int status))
       | None =>
           if error_request error then throw (Error "GoldAPI did not respond")
           else throw error
       end).

Definition DECIMALS : number := of_Z 100000000.

(** [calculatePrices].  The price is converted where it is an operand of
    [/] and of [*]; both conversions have the same outcome, and the first one
    that throws ends the function. *)
Definition calculatePrices (apiData : body) : completion PriceSet :=
  match get_price apiData with
  | Throw e => Throw e
  | Return price =>
      match ToNumber StringToNumber price with
      | Throw e => Throw e
      | Return pricePerOunce =>
          let pricePerGram := div pricePerOunce GRAMS_PER_OUNCE in
          let pricePerKarat24 := pricePerGram in
          let pricePerKarat22 := mul pricePerKarat24 (div (of_Z 22) (of_Z 24)) in
          let pricePerKarat18 := mul pricePerKarat24 (div (of_Z 18) (of_Z 24)) in
          Return {|
            pricePerGram := floor (mul pricePerGram DECIMALS);
            pricePerOunce := floor (mul pricePerOunce DECIMALS);
            pricePerKarat24 := floor (mul pricePerKarat24 DECIMALS);
            pricePerKarat22 := floor (mul pricePerKarat22 DECIMALS);
            pricePerKarat18 := floor (mul pricePerKarat18 DECIMALS)
          |}
      end
  end.

(** The body of the [try] block of [getGoldPrices]: one attempt. *)
Definition fetch_and_calculate (w : World) : M PriceSet :=
  apiData <- fetchGoldPrice w ;;
  lift (calculatePrices apiData).

(** The outcome of the attempt that issues the [k]-th request of a run. *)
Definition attempt (w : World) (k : nat) : completion PriceSet :=
  fst (fetch_and_calculate w (mkState k [])).

(** [getGoldPrices(retryCount)] *)
Equations? getGoldPrices (w : World) (retryCount : nat) (st : state)
  : completion PriceSet * state by wf (Config.maxRetries - retryCount)%nat lt :=
  getGoldPrices w retryCount st with fetch_and_calculate w st => {
    | (Return prices, st1) := (Return prices, st1);
    | (Throw error, st1) with lt_dec retryCount Config.maxRetries => {
        | left _ :=
            getGoldPrices w (retryCount + 1) (sleep Config.retryDelayMs st1);
        | right _ := (Throw error, st1) } }.
Proof.
  unfold Config.maxRetries in *.
  do 3 (destruct retryCount as [|retryCount]; [simpl; lia|]); lia.
Qed.

(* ===================================================================== *)
(** ** oracleUpdater.js *)
(* ===================================================================== *)

(** [getCurrentContractPrices] *)
Definition getCurrentContractPrices (w : World) : M PriceData :=
  try_catch
    (emit EvGetAllPrices ;;;
     prices <- lift (contract_getAllPrices w) ;;
     ret {| pd_pricePerGram := pd_pricePerGram prices;
            pd_pricePerOunce := pd_pricePerOunce prices;
            pd_pricePerKarat24 := pd_pricePerKarat24 prices;
            pd_pricePerKarat22 := pd_pricePerKarat22 prices;
            pd_pricePerKarat18 := pd_pricePerKarat18 prices;
            pd_lastUpdated := pd_lastUpdated prices |})
    (fun error => throw error).

(** [pricesChanged].  [oldPrices] holds BigInts, [newPrices] Numbers:
    [old > new] compares a BigInt with a Number, and [BigInt(new)] throws
    when the Number is not an integer. *)
Definition pricesChanged (oldPrices : PriceData) (newPrices : PriceSet)
  : completion bool :=
  if pd_lastUpdated oldPrices =? 0 then Return true
  else
    let threshold := 10000 in
    let gramDiff :=
      if number_ltb_bigint (pricePerGram newPrices) (pd_pricePerGram oldPrices)
      then match BigInt (pricePerGram newPrices) with
           | Return n => Return (pd_pricePerGram oldPrices - n)
           | Throw e => Throw e
           end
      else match BigInt (pricePerGram newPrices) with
           | Return n => Return (n - pd_pricePerGram oldPrices)
           | Throw e => Throw e
           end in
    match gramDiff with
    | Return d => Return (threshold <? d)
    | Throw e => Throw e
    end.

(** [ethers.parseUnits(n, 'gwei')] *)
Definition gwei (n : Z) : Z := n * 10 ^ 9.

(** [fee || fallback] for a fee that is [null] or a BigInt. *)
Definition or_default (fee : option Z) (fallback : Z) : Z :=
  match fee with
  | None => fallback
  | Some f => if f =? 0 then fallback else f
  end.

(** [updateContractPrices] *)
Definition updateContractPrices (w : World) (prices : PriceSet) : M Receipt :=
  try_catch
    (emit (EvEstimateGas prices) ;;;
     gasEstimate <- lift (contract_estimateGas w prices) ;;
     emit EvGetFeeData ;;;
     feeData <- lift (provider_getFeeData w) ;;
     let maxFee := or_default (maxFeePerGas feeData) (gwei 50) in
     let maxPriorityFee := or_default (maxPriorityFeePerGas feeData) (gwei 30) in
     emit (EvSendTransaction prices maxFee maxPriorityFee) ;;;
     tx <- lift (contract_updatePrices w prices maxFee maxPriorityFee) ;;
     emit EvWait ;;;
     receipt <- lift (tx_wait tx) ;;
     ret receipt)
    (fun error => throw error).

(** The object returned by [updatePrices]. *)
Record UpdateResult : Type := mkUpdateResult {
  updated : bool;
  message : option string;
  transactionHash : option string;
  ur_blockNumber : option Z;
  ur_gasUsed : option string;
  prices : option PriceSet
}.

(** [updatePrices], the update cycle. *)
Definition updatePrices (w : World) : M UpdateResult :=
  try_catch
    (newPrices <- getGoldPrices w 0 ;;
     currentPrices <- getCurrentContractPrices w ;;
     needsUpdate <- lift (pricesChanged currentPrices newPrices) ;;
     if negb needsUpdate then
       ret {| updated := false;
              message := Some "No significant price change"%string;
              transactionHash := None;
              ur_blockNumber := None;
              ur_gasUsed := None;
              prices := None |}
     else
       receipt <- updateContractPrices w newPrices ;;
       ret {| updated := true;
              message := None;
              transactionHash := Some (hash receipt);
              ur_blockNumber := Some (blockNumber receipt);
              ur_gasUsed := Some (show_int (gasUsed receipt));
              prices := Some newPrices |})
    (fun error => throw error).

(** The two shapes of the result, named for the statements below. *)
Definition skipped : UpdateResult :=
  {| updated := false;
     message := Some "No significant price change"%string;
     transactionHash := None;
     ur_blockNumber := None;
     ur_gasUsed := None;
     prices := None |}.

Definition submitted (receipt : Receipt) (newPrices : PriceSet) : UpdateResult :=
  {| updated := true;
     message := None;
     transactionHash := Some (hash receipt);
     ur_blockNumber := Some (blockNumber receipt);
     ur_gasUsed := Some (show_int (gasUsed receipt));
     prices := Some newPrices |}.

End Services.

(* ===================================================================== *)
(** ** GoldOracle.sol *)
(* ===================================================================== *)

Module GoldOracle.

(** [uint256] and [address] values are read in [Z]. *)
Definition address : Type := Z.

Definition DECIMALS : Z := 8.
Definition STALENESS_THRESHOLD : Z := 3600.

Record State : Type := mkState {
  pricePerGram : Z;
  pricePerOunce : Z;
  pricePerKarat24 : Z;
  pricePerKarat22 : Z;
  pricePerKarat18 : Z;
  lastUpdated : Z;
  owner : address
}.

(** What a call sees of its transaction and block. *)
Record Env : Type := mkEnv {
  msg_sender : address;
  block_timestamp : Z
}.

Inductive Log : Type :=
| PricesUpdated (gram ounce k24 k22 k18 timestamp : Z)
| OwnershipTransferred (previousOwner newOwner : address).

(** Values returned by the external functions. *)
Inductive RetVal : Type :=
| RNone
| RUint (v : Z)
| RBool (b : bool)
| RPriceData (d : PriceData).

(** A function body runs on the storage and either finishes, with a
    value, the new storage and the logs, or reverts. *)
Inductive Result (A : Type) : Type :=
| Ok (a : A) (st : State) (logs : list Log)
| Revert (reason : string).
Arguments Ok {A} a st logs.
Arguments Revert {A} reason.

Definition Sol (A : Type) : Type := State -> Result A.

Definition sret {A} (a : A) : Sol A := fun st => Ok a st [].

Definition sbind {A B} (m : Sol A) (k : A -> Sol B) : Sol B :=
  fun st =>
    match m st with
    | Ok a st' l1 =>
        match k a st' with
        | Ok b st'' l2 => Ok b st'' (l1 ++ l2)
        | Revert r => Revert r
        end
    | Revert r => Revert r
    end.

Definition require (cond : bool) (reason : string) : Sol unit :=
  fun st => if cond then Ok tt st [] else Revert reason.

Definition revert {A} (reason : string) : Sol A := fun _ => Revert reason.

Definition load {A} (f : State -> A) : Sol A := fun st => Ok (f st) st [].

Definition store (f : State -> State) : Sol unit := fun st => Ok tt (f st) [].

Definition emit_log (l : Log) : Sol unit := fun st => Ok tt st [l].

Notation "x <-- m ; k" := (sbind m (fun x => k))
  (at level 61, m at next level, right associativity).
Notation "m ;; k" := (sbind m (fun _ => k))
  (at level 61, right associativity).

Definition set_pricePerGram (v : Z) (st : State) : State :=
  mkState v (pricePerOunce st) (pricePerKarat24 st) (pricePerKarat22 st)
          (pricePerKarat18 st) (lastUpdated st) (owner st).
Definition set_pricePerOunce (v : Z) (st : State) : State :=
  mkState (pricePerGram st) v (pricePerKarat24 st) (pricePerKarat22 st)
          (pricePerKarat18 st) (lastUpdated st) (owner st).
Definition set_pricePerKarat24 (v : Z) (st : State) : State :=
  mkState (pricePerGram st) (pricePerOunce st) v (pricePerKarat22 st)
          (pricePerKarat18 st) (lastUpdated st) (owner st).
Definition set_pricePerKarat22 (v : Z) (st : State) : State :=
  mkState (pricePerGram st) (pricePerOunce st) (pricePerKarat24 st) v
          (pricePerKarat18 st) (lastUpdated st) (owner st).
Definition set_pricePerKarat18 (v : Z) (st : State) : State :=
  mkState (pricePerGram st) (pricePerOunce st) (pricePerKarat24 st)
          (pricePerKarat22 st) v (lastUpdated st) (owner st).
Definition set_lastUpdated (v : Z) (st : State) : State :=
  mkState (pricePerGram st) (pricePerOunce st) (pricePerKarat24 st)
          (pricePerKarat22 st) (pricePerKarat18 st) v (owner st).
Definition set_owner (v : address) (st : State) : State :=
  mkState (pricePerGram st) (pricePerOunce st) (pricePerKarat24 st)
          (pricePerKarat22 st) (pricePerKarat18 st) (lastUpdated st) v.

(** [modifier onlyOwner] *)
Definition onlyOwner {A} (env : Env) (body : Sol A) : Sol A :=
  o <-- load owner ;
  require (msg_sender env =? o) "GoldOracle: caller is not the owner" ;;
  body.

(** [constructor]: storage starts zeroed. *)
Definition zero_storage : State := mkState 0 0 0 0 0 0 0.

Definition constructor (env : Env) : Sol unit :=
  store (set_owner (msg_sender env)) ;;
  emit_log (OwnershipTransferred 0 (msg_sender env)).

(** [updatePrices] *)
Definition updatePrices (env : Env) (_gram _ounce _k24 _k22 _k18 : Z) : Sol unit :=
  onlyOwner env (
    require (0 <? _gram) "GoldOracle: invalid gram price" ;;
    require (0 <? _ounce) "GoldOracle: invalid ounce price" ;;
    require (0 <? _k24) "GoldOracle: invalid 24K price" ;;
    require (0 <? _k22) "GoldOracle: invalid 22K price" ;;
    require (0 <? _k18) "GoldOracle: invalid 18K price" ;;
    store (set_pricePerGram _gram) ;;
    store (set_pricePerOunce _ounce) ;;
    store (set_pricePerKarat24 _k24) ;;
    store (set_pricePerKarat22 _k22) ;;
    store (set_pricePerKarat18 _k18) ;;
    store (set_lastUpdated (block_timestamp env)) ;;
    emit_log (PricesUpdated _gram _ounce _k24 _k22 _k18 (block_timestamp env))).

Definition getGoldPricePerGram : Sol Z := load pricePerGram.

Definition getGoldPricePerOunce : Sol Z := load pricePerOunce.

Definition getGoldPriceByKarat (karat : Z) : Sol Z :=
  if karat =? 24 then load pricePerKarat24
  else if karat =? 22 then load pricePerKarat22
  else if karat =? 18 then load pricePerKarat18
  else revert "GoldOracle: invalid karat (must be 18, 22, or 24)".

Definition getAllPrices : Sol PriceData :=
  load (fun st =>
    {| pd_pricePerGram := pricePerGram st;
       pd_pricePerOunce := pricePerOunce st;
       pd_pricePerKarat24 := pricePerKarat24 st;
       pd_pricePerKarat22 := pricePerKarat22 st;
       pd_pricePerKarat18 := pricePerKarat18 st;
       pd_lastUpdated := lastUpdated st |}).

Definition getLastUpdated : Sol Z := load lastUpdated.

(** [isStale].  The subtraction is checked: it panics on underflow. *)
Definition isStale (env : Env) : Sol bool :=
  lu <-- load lastUpdated ;
  if lu =? 0 then sret true
  else
    require (lu <=? block_timestamp env) "Panic(0x11)" ;;
    sret (STALENESS_THRESHOLD <? block_timestamp env - lu).

(** [transferOwnership] *)
Definition transferOwnership (env : Env) (newOwner : address) : Sol unit :=
  onlyOwner env (
    require (negb (newOwner =? 0)) "GoldOracle: new owner is the zero address" ;;
    oldOwner <-- load owner ;
    store (set_owner newOwner) ;;
    emit_log (OwnershipTransferred oldOwner newOwner)).

(** The external calls of the contract. *)
Inductive Call : Type :=
| CallUpdatePrices (_gram _ounce _k24 _k22 _k18 : Z)
| CallTransferOwnership (newOwner : address)
| CallGetGoldPricePerGram
| CallGetGoldPricePerOunce
| CallGetGoldPriceByKarat (karat : Z)
| CallGetAllPrices
| CallGetLastUpdated
| CallIsStale
| CallDECIMALS
| CallSTALENESS_THRESHOLD
| CallPricePerGram
| CallPricePerOunce
| CallPricePerKarat24
| CallPricePerKarat22
| CallPricePerKarat18
| CallLastUpdated
| CallOwner.

Definition as_ret {A} (f : A -> RetVal) (m : Sol A) : Sol RetVal :=
  a <-- m ; sret (f a).

Definition dispatch (env : Env) (c : Call) : Sol RetVal :=
  match c with
  | CallUpdatePrices g o k24 k22 k18 =>
      as_ret (fun _ => RNone) (updatePrices env g o k24 k22 k18)
  | CallTransferOwnership n => as_ret (fun _ => RNone) (transferOwnership env n)
  | CallGetGoldPricePerGram => as_ret RUint getGoldPricePerGram
  | CallGetGoldPricePerOunce => as_ret RUint getGoldPricePerOunce
  | CallGetGoldPriceByKarat k => as_ret RUint (getGoldPriceByKarat k)
  | CallGetAllPrices => as_ret RPriceData getAllPrices
  | CallGetLastUpdated => as_ret RUint getLastUpdated
  | CallIsStale => as_ret RBool (isStale env)
  | CallDECIMALS => as_ret RUint (sret DECIMALS)
  | CallSTALENESS_THRESHOLD => as_ret RUint (sret STALENESS_THRESHOLD)
  | CallPricePerGram => as_ret RUint (load pricePerGram)
  | CallPricePerOunce => as_ret RUint (load pricePerOunce)
  | CallPricePerKarat24 => as_ret RUint (load pricePerKarat24)
  | CallPricePerKarat22 => as_ret RUint (load pricePerKarat22)
  | CallPricePerKarat18 => as_ret RUint (load pricePerKarat18)
  | CallLastUpdated => as_ret RUint (load lastUpdated)
  | CallOwner => as_ret RUint (load owner)
  end.

(** The storage after a transaction: a revert leaves it as it was. *)
Definition storage_after {A} (st : State) (r : Result A) : State :=
  match r with
  | Ok _ st' _ => st'
  | Revert _ => st
  end.

Definition deploy (env : Env) : State :=
  storage_after zero_storage (constructor env zero_storage).

Definition transact (env : Env) (c : Call) (st : State) : State :=
  storage_after st (dispatch env c st).

(** Blocks that carry transactions come after the genesis block, and a
    block's timestamp exceeds its parent's: the timestamp a call sees is
    positive. *)
Definition valid_env (env : Env) : Prop := 0 < block_timestamp env.

(** The storages the contract can be in. *)
Inductive reachable : State -> Prop :=
| reach_deploy : forall env, reachable (deploy env)
| reach_call : forall env c st,
    reachable st -> valid_env env -> reachable (transact env c st).

(** Either nothing was ever written, or all five prices and the update
    time are positive. *)
Definition fresh (st : State) : Prop :=
  pricePerGram st = 0 /\ pricePerOunce st = 0 /\ pricePerKarat24 st = 0 /\
  pricePerKarat22 st = 0 /\ pricePerKarat18 st = 0 /\ lastUpdated st = 0.

Definition priced (st : State) : Prop :=
  0 < pricePerGram st /\ 0 < pricePerOunce st /\ 0 < pricePerKarat24 st /\
  0 < pricePerKarat22 st /\ 0 < pricePerKarat18 st /\ 0 < lastUpdated st.

Definition invariant (st : State) : Prop := fresh st \/ priced st.

End GoldOracle.

(* ===================================================================== *)
(** ** Sample inputs *)
(* ===================================================================== *)

Module Samples.
Import Binary64.

Definition failing {A} : completion A := Throw (Foreign "unused").

(** A quote source that never answers; the ledger is not reached. *)
Definition feed_down : World :=
  mkWorld (fun _ => Throw (AxiosError None true)) failing (fun _ => failing) failing
          (fun _ _ _ => failing).

(** A quote source that answers the third request with 2037.50. *)
Definition feed_third_time : World :=
  mkWorld (fun k => match k with
                    | 2%nat => Return (Obj (VNumber (decimal 203750 2)))
                    | _ => Throw (AxiosError None true)
                    end)
          failing (fun _ => failing) failing (fun _ _ _ => failing).




Definition recorded : PriceData :=
  mkPriceData 6550000000 203730000000 6550000000 6004166666 4912500000 1700000000.

Definition candidate_at (perGram other : Z) : PriceSet :=
  mkPriceSet (of_Z perGram) (of_Z other) (of_Z other) (of_Z other) (of_Z other).

Definition owner_call : GoldOracle.Env := GoldOracle.mkEnv 7 1700000000.
End Samples.

(* ===================================================================== *)
(** ** The server and its configuration *)
(* ===================================================================== *)

Module Server.

(** *** config/index.js *)

(** The variables of [process.env] the service reads: each a string, or
    absent. *)
Record ProcessEnv : Type := mkProcessEnv {
  GOLD_API_KEY : option string;
  RPC_URL : option string;
  PRIVATE_KEY : option string;
  CONTRACT_ADDRESS : option string;
  API_KEY : option string
}.

(** [!value] for a string that may be [undefined]. *)
Definition unset (v : option string) : bool :=
  match v with
  | None => true
  | Some s => String.eqb s EmptyString
  end.

Definition newline : string := String (Ascii.ascii_of_nat 10) EmptyString.

(** [validateConfig] *)
Definition validateConfig (env : ProcessEnv) : completion unit :=
  let required :=
    [("GOLD_API_KEY"%string, GOLD_API_KEY env);
     ("RPC_URL"%string, RPC_URL env);
     ("PRIVATE_KEY"%string, PRIVATE_KEY env);
     ("CONTRACT_ADDRESS"%string, CONTRACT_ADDRESS env)] in
  let missing := List.filter (fun kv => unset (snd kv)) required in
  if (0 <? List.length missing)%nat then
    let missingKeys := String.concat ", " (List.map fst missing) in
    Throw (Error ("Missing required environment variables: " ++ missingKeys
                  ++ newline
                  ++ "Please check your .env file and ensure all required variables are set."))
  else Return tt.

(** [config.server.apiKey]: [process.env.API_KEY || 'your-secret-api-key'] *)
Definition server_apiKey (env : ProcessEnv) : string :=
  match API_KEY env with
  | Some k => if String.eqb k EmptyString then "your-secret-api-key"%string else k
  | None => "your-secret-api-key"%string
  end.

(** *** index.js *)

(** A JSON reply: the status and the envelope.  [message] holds the error
    whose [message] property the envelope carries. *)
Record Reply : Type := mkReply {
  status : Z;
  success : bool;
  data : option UpdateResult;
  error_text : option string;
  message_of : option error
}.

(** [authenticateApiKey]: whether [next()] is called, for the value of the
    [x-api-key] header. *)
Definition authenticateApiKey (env : ProcessEnv) (header : option string) : bool :=
  match header with
  | None => false
  | Some apiKey =>
      if String.eqb apiKey EmptyString then false
      else String.eqb apiKey (server_apiKey env)
  end.

Definition unauthorized : Reply :=
  mkReply 401 false None (Some "Unauthorized - Invalid or missing API key"%string) None.

(** [POST /update-prices], behind [authenticateApiKey]. *)
Definition post_update_prices (StringToNumber : string -> number)
           (env : ProcessEnv) (header : option string) (w : World) : M Reply :=
  if authenticateApiKey env header then
    try_catch
      (result <- updatePrices StringToNumber w ;;
       ret (mkReply 200 true (Some result) None None))
      (fun error =>
         ret (mkReply 500 false None (Some "Failed to update prices"%string)
                      (Some error)))
  else ret unauthorized.

(** [GET /api/gold-price]: the status and the [data] of the reply. *)
Definition get_api_gold_price (StringToNumber : string -> number) (w : World)
  : M (Z * option PriceSet) :=
  try_catch
    (prices <- getGoldPrices StringToNumber w 0 ;;
     ret (200, Some prices))
    (fun error => ret (500, None)).

(** [scheduledUpdate] *)
Definition scheduledUpdate (StringToNumber : string -> number) (w : World) : M unit :=
  try_catch
    (result <- updatePrices StringToNumber w ;;
     if updated result then ret tt else ret tt)
    (fun error => ret tt).

End Server.

(* ===================================================================== *)
(** ** Traces, runs of the ledger and rounding of fractions *)
(* ===================================================================== *)

Module Traces.

(** The events of a run of [getGoldPrices] that needed [k] retries. *)
Fixpoint retry_trace (k : nat) : list event :=
  match k with
  | O => [EvHttpGet]
  | S k' => EvHttpGet :: EvSleep Config.retryDelayMs :: retry_trace k'
  end.

Definition is_sleep (ev : event) : bool :=
  match ev with EvSleep _ => true | _ => false end.

Definition is_send (ev : event) : bool :=
  match ev with EvSendTransaction _ _ _ => true | _ => false end.

Definition is_ledger_call (ev : event) : bool :=
  match ev with
  | EvHttpGet | EvSleep _ => false
  | _ => true
  end.

(** Milliseconds slept in a trace. *)
Fixpoint slept (l : list event) : Z :=
  match l with
  | [] => 0
  | EvSleep ms :: l' => ms + slept l'
  | _ :: l' => slept l'
  end.

Definition count (f : event -> bool) (l : list event) : nat :=
  List.length (List.filter f l).

(** The state after further events, the requests made being the same. *)
Definition after (evs : list event) (st : state) : state :=
  mkState (requests st) (trace st ++ evs).

(** The fees [updateContractPrices] sends for the fee data of the network. *)
Definition fee_cap (fd : FeeData) : Z := or_default (maxFeePerGas fd) (gwei 50).
Definition priority_fee (fd : FeeData) : Z :=
  or_default (maxPriorityFeePerGas fd) (gwei 30).

End Traces.

Module LedgerRuns.
Import GoldOracle.

(** A sequence of calls, each in its block. *)
Fixpoint run (calls : list (Env * Call)) (st : State) : State :=
  match calls with
  | [] => st
  | (env, c) :: rest => run rest (transact env c st)
  end.

(** Block timestamps never go back. *)
Fixpoint chronological (t : Z) (calls : list (Env * Call)) : Prop :=
  match calls with
  | [] => True
  | (env, _) :: rest =>
      t <= block_timestamp env /\ chronological (block_timestamp env) rest
  end.

Fixpoint last_time (t : Z) (calls : list (Env * Call)) : Z :=
  match calls with
  | [] => t
  | (env, _) :: rest => last_time (block_timestamp env) rest
  end.

(** The value a call returns, when it does not revert. *)
Definition returned {A} (r : Result A) : option A :=
  match r with
  | Ok a _ _ => Some a
  | Revert _ => None
  end.

End LedgerRuns.

Module PriceFields.
(** The five prices as functions of the spot price. *)
Definition perGram_of (p : number) : number :=
  floor (mul (div p GRAMS_PER_OUNCE) DECIMALS).
Definition perOunce_of (p : number) : number := floor (mul p DECIMALS).
Definition perKarat22_of (p : number) : number :=
  floor (mul (mul (div p GRAMS_PER_OUNCE) (div (of_Z 22) (of_Z 24))) DECIMALS).
Definition perKarat18_of (p : number) : number :=
  floor (mul (mul (div p GRAMS_PER_OUNCE) (div (of_Z 18) (of_Z 24))) DECIMALS).
End PriceFields.

Module Binary64Frac.
Import Binary64.
(** Round to nearest, ties to even, of the fraction [A / D]. *)
Definition rneD (A D : Z) : Z :=
  let q := A / D in
  match 2 * (A mod D) ?= D with
  | Lt => q
  | Eq => if Z.even q then q else q + 1
  | Gt => q + 1
  end.

(** What the round and sticky bits say of a remainder [rem] in [0, D). *)
Definition loc_relD (r s : bool) (rem D : Z) : Prop :=
  match r, s with
  | false, false => rem = 0
  | false, true => 0 < 2 * rem < D
  | true, false => 2 * rem = D
  | true, true => D < 2 * rem
  end.

Definition representsD (mrs : shr_record) (A D : Z) : Prop :=
  exists rem, A = shr_m mrs * D + rem /\ 0 <= rem < D /\
              loc_relD (shr_r mrs) (shr_s mrs) rem D.

(** The location of the fraction [A / B] above its integer part. *)
Definition frac_loc (A B : Z) : location := new_location B (A mod B).

(** [A1 / B1 * 2^e1 <= A2 / B2 * 2^e2], on integers. *)
Definition vleQ (A1 B1 e1 A2 B2 e2 : Z) : Prop :=
  A1 * B2 * 2 ^ (e1 - Z.min e1 e2) <= A2 * B1 * 2 ^ (e2 - Z.min e1 e2).

(** The exponent and the numerator [SFdiv] works with. *)
Definition div_exp (m1 : positive) (e1 : Z) (m2 : positive) (e2 : Z) : Z :=
  Z.min (fexp (Zpos (digits2_pos m1) + e1 - (Zpos (digits2_pos m2) + e2))) (e1 - e2).

Definition div_num (m1 : positive) (e1 : Z) (m2 : positive) (e2 : Z) : Z :=
  Zpos m1 * 2 ^ (e1 - e2 - div_exp m1 e1 m2 e2).

(** Field by field order of two price sets. *)
Definition prices_le (a b : PriceSet) : Prop :=
  le (pricePerGram a) (pricePerGram b) /\
  le (pricePerOunce a) (pricePerOunce b) /\
  le (pricePerKarat24 a) (pricePerKarat24 b) /\
  le (pricePerKarat22 a) (pricePerKarat22 b) /\
  le (pricePerKarat18 a) (pricePerKarat18 b).
End Binary64Frac.

(* ===================================================================== *)
(** ** Further sample inputs *)
(* ===================================================================== *)

Module Scenarios.
Import Binary64 Samples Server.

Definition quote : body := Obj (VNumber (decimal 203750 2)).
Definition quoted_prices : PriceSet :=
  mkPriceSet (of_Z 6550709727) (of_Z 203750000000) (of_Z 6550709727)
             (of_Z 6004817249) (of_Z 4913032295).
Definition receipt_ok : Receipt := mkReceipt "0xabc" 1 50000.
Definition tx_ok : TransactionResponse := mkTx "0xabc" (Return receipt_ok).
Definition fees_unknown : FeeData := mkFeeData None (Some 0).

(** A ledger never written to, behind a network that answers everything. *)
Definition ledger_empty : World :=
  mkWorld (fun _ => Return quote) (Return (mkPriceData 0 0 0 0 0 0))
          (fun _ => Return 60000) (Return fees_unknown)
          (fun _ _ _ => Return tx_ok).

(** A ledger that holds the prices of the quote. *)
Definition ledger_current : World :=
  mkWorld (fun _ => Return quote)
          (Return (mkPriceData 6550709727 203750000000 6550709727
                               6004817249 4913032295 1700000000))
          (fun _ => Return 60000) (Return fees_unknown)
          (fun _ _ _ => Return tx_ok).

(** A quote source whose price is an object that cannot be converted to a
    primitive, as [{"price": {"toString": 0}}]. *)
Definition feed_opaque : World :=
  mkWorld (fun _ => Return (Obj (VObject None))) (Return recorded)
          (fun _ => Return 60000) (Return fees_unknown)
          (fun _ _ _ => Return tx_ok).

(** A quote source whose price is a text that is no number. *)
Definition feed_text : World :=
  mkWorld (fun _ => Return (Obj (VString "n/a"))) (Return recorded)
          (fun _ => Return 60000) (Return fees_unknown)
          (fun _ _ _ => Return tx_ok).

Definition env_complete : ProcessEnv :=
  mkProcessEnv (Some "goldapi-key"%string) (Some "https://rpc.example"%string)
               (Some "0x01"%string) (Some "0x02"%string) None.

Definition stranger_call : GoldOracle.Env := GoldOracle.mkEnv 8 1700000100.
Definition later_call : GoldOracle.Env := GoldOracle.mkEnv 7 1700003601.

End Scenarios.

(* ===================================================================== *)
(** * Properties of the contract *)
(* ===================================================================== *)

Module GoldOracleProofs.
Import GoldOracle.

Ltac run_sol :=
  cbv [updatePrices transferOwnership onlyOwner constructor isStale
       getGoldPricePerGram getGoldPricePerOunce getGoldPriceByKarat
       getAllPrices getLastUpdated dispatch as_ret transact deploy
       storage_after sbind sret require revert load store emit_log].

Ltac split_if :=
  match goal with
  | |- context [if ?c then _ else _] => destruct c eqn:?
  end.

(** The outcome of [updatePrices], case by case. *)
Lemma updatePrices_outcome env g o k24 k22 k18 st :
  updatePrices env g o k24 k22 k18 st =
    if msg_sender env =? owner st then
      if 0 <? g then
        if 0 <? o then
          if 0 <? k24 then
            if 0 <? k22 then
              if 0 <? k18 then
                Ok tt (mkState g o k24 k22 k18 (block_timestamp env) (owner st))
                   [PricesUpdated g o k24 k22 k18 (block_timestamp env)]
              else Revert "GoldOracle: invalid 18K price"
            else Revert "GoldOracle: invalid 22K price"
          else Revert "GoldOracle: invalid 24K price"
        else Revert "GoldOracle: invalid ounce price"
      else Revert "GoldOracle: invalid gram price"
    else Revert "GoldOracle: caller is not the owner".
Proof.
  run_sol. repeat (split_if; try reflexivity).
Qed.

Lemma transferOwnership_outcome env n st :
  transferOwnership env n st =
    if msg_sender env =? owner st then
      if n =? 0 then Revert "GoldOracle: new owner is the zero address"
      else Ok tt (set_owner n st) [OwnershipTransferred (owner st) n]
    else Revert "GoldOracle: caller is not the owner".
Proof.
  run_sol.
  destruct (msg_sender env =? owner st); [destruct (n =? 0)|]; reflexivity.
Qed.

(** Only [updatePrices] and [transferOwnership] write to storage. *)
Lemma reads_keep_storage env c st :
  (forall g o a b d, c <> CallUpdatePrices g o a b d) ->
  (forall n, c <> CallTransferOwnership n) ->
  transact env c st = st.
Proof.
  intros Hu Ht. destruct c; try reflexivity.
  - exfalso. eapply Hu. reflexivity.
  - exfalso. eapply Ht. reflexivity.
  - run_sol. repeat (split_if; try reflexivity).
  - run_sol. repeat (split_if; try reflexivity).
Qed.

Lemma invariant_deploy env : invariant (deploy env).
Proof. left. repeat split. Qed.

Lemma invariant_transact env c st :
  valid_env env -> invariant st -> invariant (transact env c st).
Proof.
  intros Henv Hst.
  destruct c;
    try (rewrite reads_keep_storage; [exact Hst | discriminate | discriminate]).
  - unfold transact, dispatch, as_ret, sbind.
    rewrite updatePrices_outcome.
    repeat (split_if; try exact Hst).
    right. unfold priced, valid_env in *. simpl. lia.
  - unfold transact, dispatch, as_ret, sbind.
    rewrite transferOwnership_outcome.
    repeat (split_if; try exact Hst).
Qed.

(** C6.  [updatePrices] reverts when the caller is not the owner or when
    one of the five prices is zero, and the storage is then what it was;
    called by the owner with five positive prices it stores them all, sets
    [lastUpdated] to the block timestamp and leaves the owner in place. *)
Theorem updatePrices_reverts_or_stores env g o k24 k22 k18 st :
  (msg_sender env <> owner st \/ g = 0 \/ o = 0 \/ k24 = 0 \/ k22 = 0 \/ k18 = 0 ->
     (exists reason, updatePrices env g o k24 k22 k18 st = Revert reason) /\
     transact env (CallUpdatePrices g o k24 k22 k18) st = st) /\
  (forall reason, updatePrices env g o k24 k22 k18 st = Revert reason ->
     transact env (CallUpdatePrices g o k24 k22 k18) st = st) /\
  (msg_sender env = owner st -> 0 < g -> 0 < o -> 0 < k24 -> 0 < k22 -> 0 < k18 ->
     updatePrices env g o k24 k22 k18 st =
       Ok tt (mkState g o k24 k22 k18 (block_timestamp env) (owner st))
          [PricesUpdated g o k24 k22 k18 (block_timestamp env)] /\
     transact env (CallUpdatePrices g o k24 k22 k18) st =
       mkState g o k24 k22 k18 (block_timestamp env) (owner st)).
Proof.
  assert (Hrev : forall reason,
             updatePrices env g o k24 k22 k18 st = Revert reason ->
             transact env (CallUpdatePrices g o k24 k22 k18) st = st).
  { intros reason H. unfold transact, dispatch, as_ret, sbind.
    rewrite H. reflexivity. }
  split; [|split].
  - intros H.
    assert (exists reason, updatePrices env g o k24 k22 k18 st = Revert reason)
      as [reason Hr].
    { rewrite updatePrices_outcome.
      destruct (msg_sender env =? owner st) eqn:Eo; [|eauto].
      apply Z.eqb_eq in Eo.
      destruct (0 <? g) eqn:Eg; [|eauto]. apply Z.ltb_lt in Eg.
      destruct (0 <? o) eqn:Eu; [|eauto]. apply Z.ltb_lt in Eu.
      destruct (0 <? k24) eqn:E24; [|eauto]. apply Z.ltb_lt in E24.
      destruct (0 <? k22) eqn:E22; [|eauto]. apply Z.ltb_lt in E22.
      destruct (0 <? k18) eqn:E18; [|eauto]. apply Z.ltb_lt in E18.
      exfalso. lia. }
    split; [eauto | eapply Hrev; eassumption].
  - exact Hrev.
  - intros Ho Hg Hu H24 H22 H18.
    assert (E : updatePrices env g o k24 k22 k18 st =
                Ok tt (mkState g o k24 k22 k18 (block_timestamp env) (owner st))
                   [PricesUpdated g o k24 k22 k18 (block_timestamp env)]).
    { rewrite updatePrices_outcome.
      apply Z.eqb_eq in Ho. apply Z.ltb_lt in Hg, Hu, H24, H22, H18.
      rewrite Ho, Hg, Hu, H24, H22, H18. reflexivity. }
    split; [exact E|].
    unfold transact, dispatch, as_ret, sbind. rewrite E. reflexivity.
Qed.

(** C9.  A freshly deployed contract has all five prices and
    [lastUpdated] at zero; every call, in a block with a positive timestamp,
    takes a storage that is all-zero or all-positive to one that is again;
    hence every reachable storage is all-zero or all-positive. *)
Theorem invariant_reachable :
  (forall env, fresh (deploy env)) /\
  (forall env c st, valid_env env -> invariant st -> invariant (transact env c st)) /\
  (forall st, reachable st -> invariant st).
Proof.
  split; [|split].
  - intros env. repeat split.
  - exact invariant_transact.
  - induction 1 as [env | env c st Hr IH Henv].
    + apply invariant_deploy.
    + apply invariant_transact; assumption.
Qed.

(** The positivity of the timestamp matters: a call in a block stamped
    zero would store positive prices next to [lastUpdated = 0]. *)
Remark invariant_needs_timestamp :
  let env := mkEnv 7 0 in
  ~ invariant (transact env (CallUpdatePrices 1 1 1 1 1) (deploy env)).
Proof.
  intros env [H|H]; unfold fresh, priced in H; vm_compute in H.
  - destruct H as [H _]. discriminate.
  - destruct H as (_ & _ & _ & _ & _ & H). discriminate.
Qed.

End GoldOracleProofs.

(* ===================================================================== *)
(** * Properties of binary64 arithmetic *)
(* ===================================================================== *)

Module Binary64Facts.
Import Binary64.

Lemma fexp_eq k : SpecFloat.fexp 53 1024 k = fexp k.
Proof. reflexivity. Qed.

Lemma digits2_size p : digits2_pos p = Pos.size p.
Proof. induction p; simpl; congruence. Qed.

Lemma digits_bounds p :
2 ^ (Zpos (digits2_pos p) - 1) <= Zpos p < 2 ^ Zpos (digits2_pos p).
Proof.
rewrite digits2_size. split.
- pose proof (Pos.size_le p) as H.
  assert (Hs : Zpos (Pos.size p) = Z.succ (Zpos (Pos.size p) - 1)) by lia.
  assert (H2 : (2 ^ Zpos (Pos.size p) <= Zpos (p~0))).
  { rewrite <- Pos2Z.inj_pow. apply Pos2Z.pos_le_pos. exact H. }
  rewrite Hs, Z.pow_succ_r in H2 by lia. lia.
- rewrite <- Pos2Z.inj_pow. apply Pos2Z.pos_lt_pos. apply Pos.size_gt.
Qed.

Lemma iter_pos_nat {A} (f : A -> A) p x :
iter_pos f p x = Nat.iter (Pos.to_nat p) f x.
Proof.
revert x. induction p as [p IH|p IH|]; intros x; cbn [iter_pos].
- rewrite !IH. rewrite Pos2Nat.inj_xI.
  replace (S (2 * Pos.to_nat p)) with (Pos.to_nat p + (Pos.to_nat p + 1))%nat by lia.
  rewrite !Nat.iter_add. reflexivity.
- rewrite !IH. rewrite Pos2Nat.inj_xO.
  replace (2 * Pos.to_nat p)%nat with (Pos.to_nat p + Pos.to_nat p)%nat by lia.
  rewrite Nat.iter_add. reflexivity.
- reflexivity.
Qed.

Lemma shr_1_m mrs : 0 <= shr_m mrs -> shr_m (shr_1 mrs) = shr_m mrs / 2.
Proof.
destruct mrs as [m r s]. simpl. intros H.
destruct m as [|[p|p|]|p]; simpl; try reflexivity; try lia.
- rewrite Pos2Z.inj_xI. apply Z.div_unique with 1; lia.
- rewrite Pos2Z.inj_xO. apply Z.div_unique with 0; lia.
Qed.

Lemma shr_1_represents mrs m k :
0 <= k -> 0 <= shr_m mrs ->
represents mrs m k -> represents (shr_1 mrs) m (k + 1).
Proof.
intros Hk Hm (rem & Hrem & Hb & Hl).
assert (Hp : 0 < 2 ^ k) by (apply Z.pow_pos_nonneg; lia).
assert (Hp1 : 2 ^ (k + 1) = 2 * 2 ^ k) by (rewrite Z.pow_add_r by lia; lia).
destruct mrs as [q r s]. cbn [shr_m shr_r shr_s] in *.
unfold represents, loc_rel in *. rewrite Hp1.
destruct q as [|[p|p|]|p]; cbn [shr_1 shr_m shr_r shr_s]; try lia.
- exists rem. split; [lia|]. split; [lia|].
  destruct r, s; cbn [orb] in *; lia.
- exists (2 ^ k + rem). rewrite Pos2Z.inj_xI in Hrem.
  split; [lia|]. split; [lia|].
  destruct r, s; cbn [orb] in *; lia.
- exists rem. rewrite Pos2Z.inj_xO in Hrem.
  split; [lia|]. split; [lia|].
  destruct r, s; cbn [orb] in *; lia.
- exists (2 ^ k + rem).
  split; [lia|]. split; [lia|].
  destruct r, s; cbn [orb] in *; lia.
Qed.

Lemma shr_1_nonneg mrs : 0 <= shr_m mrs -> 0 <= shr_m (shr_1 mrs).
Proof.
intros H. rewrite shr_1_m by exact H. apply Z.div_pos; lia.
Qed.

Lemma iter_shr_1 n mrs m :
0 <= shr_m mrs -> represents mrs m 0 ->
0 <= shr_m (Nat.iter n shr_1 mrs) /\
shr_m (Nat.iter n shr_1 mrs) = shr_m mrs / 2 ^ Z.of_nat n /\
represents (Nat.iter n shr_1 mrs) m (Z.of_nat n).
Proof.
intros Hm Hr. induction n as [|n IH].
- simpl. rewrite Z.div_1_r. auto.
- destruct IH as (H0 & Hq & Hrep).
  rewrite Nat2Z.inj_succ. unfold Z.succ. simpl Nat.iter.
  split; [apply shr_1_nonneg, H0|]. split.
  + rewrite shr_1_m by exact H0. rewrite Hq.
    rewrite Z.pow_add_r by lia. rewrite Z.div_div by (try apply Z.pow_pos_nonneg; lia).
    reflexivity.
  + apply shr_1_represents; [lia|exact H0|exact Hrep].
Qed.

Lemma iter_shr_1_m n mrs :
0 <= shr_m mrs ->
0 <= shr_m (Nat.iter n shr_1 mrs) /\
shr_m (Nat.iter n shr_1 mrs) = shr_m mrs / 2 ^ Z.of_nat n.
Proof.
intros Hm. induction n as [|n IH].
- simpl. rewrite Z.div_1_r. auto.
- destruct IH as (H0 & Hq).
  rewrite Nat2Z.inj_succ. unfold Z.succ. simpl Nat.iter.
  split; [apply shr_1_nonneg, H0|].
  rewrite shr_1_m by exact H0. rewrite Hq.
  rewrite Z.pow_add_r by lia. rewrite Z.div_div by (try apply Z.pow_pos_nonneg; lia).
  reflexivity.
Qed.

Lemma shr_nonpos mrs e n : n <= 0 -> shr mrs e n = (mrs, e).
Proof. destruct n; intros H; try reflexivity. lia. Qed.

Lemma shr_m_spec mrs e n :
0 <= shr_m mrs -> 0 <= n ->
shr_m (fst (shr mrs e n)) = shr_m mrs / 2 ^ n /\ snd (shr mrs e n) = e + n.
Proof.
intros Hm Hn. destruct n as [|p|p]; try lia.
- simpl. rewrite Z.div_1_r. split; [reflexivity|lia].
- cbn [shr fst snd]. rewrite iter_pos_nat.
  destruct (iter_shr_1_m (Pos.to_nat p) mrs Hm) as (_ & H).
  rewrite H. rewrite positive_nat_Z. auto.
Qed.

Lemma shr_exact_represents m e n :
0 <= m -> 0 <= n ->
represents (fst (shr (Build_shr_record m false false) e n)) m n.
Proof.
intros Hm Hn.
assert (H0 : represents (Build_shr_record m false false) m 0).
{ exists 0. cbn. repeat split; lia. }
destruct n as [|p|p]; try lia.
- exact H0.
- cbn [shr fst]. rewrite iter_pos_nat.
  destruct (iter_shr_1 (Pos.to_nat p) (Build_shr_record m false false) m Hm H0)
    as (_ & _ & H).
  rewrite positive_nat_Z in H. exact H.
Qed.

Lemma rne_of_record mrs m n :
0 <= n -> represents mrs m n ->
round_nearest_even (shr_m mrs) (loc_of_shr_record mrs) = rne m n.
Proof.
intros Hn (rem & Hm & Hb & Hl).
assert (Hp : 0 < 2 ^ n) by (apply Z.pow_pos_nonneg; lia).
assert (Hq : m / 2 ^ n = shr_m mrs).
{ symmetry. apply Z.div_unique with rem; lia. }
assert (Hr : m mod 2 ^ n = rem).
{ symmetry. apply Z.mod_unique with (shr_m mrs); lia. }
unfold rne. rewrite Hq, Hr.
destruct mrs as [q r s]. cbn [shr_m shr_r shr_s] in *.
unfold loc_rel in Hl.
destruct r, s; cbn [loc_of_shr_record round_nearest_even].
- assert (C : (2 * rem ?= 2 ^ n) = Gt) by (apply Z.compare_gt_iff; lia).
  rewrite C. reflexivity.
- assert (C : (2 * rem ?= 2 ^ n) = Eq) by (apply Z.compare_eq_iff; lia).
  rewrite C. reflexivity.
- assert (C : (2 * rem ?= 2 ^ n) = Lt) by (apply Z.compare_lt_iff; lia).
  rewrite C. reflexivity.
- assert (C : (2 * rem ?= 2 ^ n) = Lt) by (apply Z.compare_lt_iff; lia).
  rewrite C. reflexivity.
Qed.

Lemma round_nearest_even_cases q l :
round_nearest_even q l = q \/ round_nearest_even q l = q + 1.
Proof.
destruct l as [|[| |]]; simpl; auto. destruct (Z.even q); auto.
Qed.

Lemma rne_cases m k : rne m k = m / 2 ^ k \/ rne m k = m / 2 ^ k + 1.
Proof.
unfold rne. destruct (2 * (m mod 2 ^ k) ?= 2 ^ k); auto.
destruct (Z.even (m / 2 ^ k)); auto.
Qed.

Lemma digits_unique p d :
2 ^ (d - 1) <= Zpos p < 2 ^ d -> Zpos (digits2_pos p) = d.
Proof.
intros [H1 H2]. pose proof (digits_bounds p) as [H3 H4].
set (d' := Zpos (digits2_pos p)) in *.
assert (0 < d') by (unfold d'; lia).
assert (Hd : 0 < d).
{ destruct (Z.lt_ge_cases 0 d) as [?|?]; [assumption|].
  destruct (Z.eq_dec d 0) as [->|]; [simpl in H2; lia|].
  rewrite Z.pow_neg_r in H2 by lia. lia. }
destruct (Z.lt_trichotomy d' d) as [Hlt|[Heq|Hgt]]; [|exact Heq|].
- exfalso. assert (2 ^ d' <= 2 ^ (d - 1)) by (apply Z.pow_le_mono_r; lia). lia.
- exfalso. assert (2 ^ d <= 2 ^ (d' - 1)) by (apply Z.pow_le_mono_r; lia). lia.
Qed.

Lemma pow2_pos n : 0 <= n -> 0 < 2 ^ n.
Proof. intros. apply Z.pow_pos_nonneg; lia. Qed.

Lemma pow2_le a b : a <= b -> 0 <= a -> 2 ^ a <= 2 ^ b.
Proof. intros. apply Z.pow_le_mono_r; lia. Qed.

Lemma digits_le p d : Zpos p < 2 ^ d -> 0 <= d -> Zpos (digits2_pos p) <= d.
Proof.
intros H Hd. pose proof (digits_bounds p) as [H1 _].
destruct (Z.le_gt_cases (Zpos (digits2_pos p)) d) as [?|Hgt]; [assumption|].
exfalso. assert (2 ^ d <= 2 ^ (Zpos (digits2_pos p) - 1)) by (apply pow2_le; lia).
lia.
Qed.

Lemma shr_record_of_loc_m m l : shr_m (shr_record_of_loc m l) = m.
Proof. destruct l as [|[| |]]; reflexivity. Qed.

(** The second normalisation of [binary_round_aux]. *)
Lemma bra_finish N E :
0 <= N <= 2 ^ 53 -> emin <= E ->
(let '(mrs, e) := shr_fexp 53 1024 N E loc_Exact in
 match shr_m mrs with
 | Z0 => S754_zero false
 | Zpos m => if e <=? 1024 - 53 then S754_finite false m e else S754_infinity false
 | Zneg _ => S754_nan
 end) = norm N E.
Proof.
intros [H0 H1] HE. unfold shr_fexp. rewrite fexp_eq.
destruct N as [|p|p]; try lia.
- rewrite shr_nonpos by (unfold fexp, emin in *; simpl Zdigits2; lia).
  reflexivity.
- destruct (Z.eq_dec (Zpos p) (2 ^ 53)) as [Heq|Hne].
  + injection Heq as Hp. subst p.
    assert (Hn : fexp (Zdigits2 (Zpos (2 ^ 53)) + E) - E = 1).
    { change (Zdigits2 (Zpos (2 ^ 53))) with 54. unfold fexp, emin in *. lia. }
    change (Zpos (2 ^ 53)) with 9007199254740992 in Hn.
    rewrite Hn. reflexivity.
  + assert (Hlt : Zpos p < 2 ^ 53) by lia.
    pose proof (digits_le p 53 Hlt ltac:(lia)) as Hd.
    rewrite shr_nonpos by (cbn [Zdigits2]; unfold fexp, emin in *; lia).
    cbn [shr_record_of_loc shr_m]. unfold norm.
    apply Z.ltb_lt in Hlt. rewrite Hlt.
    change (1024 - 53) with 971. reflexivity.
Qed.

(** [binary_round_aux] on a non-negative mantissa that has digits enough. *)
Lemma bra_norm mz e l :
0 <= mz -> e <= fexp (Zdigits2 mz + e) ->
let E := fexp (Zdigits2 mz + e) in
exists N,
  bra false mz e l = norm N E /\
  (N = mz / 2 ^ (E - e) \/ N = mz / 2 ^ (E - e) + 1) /\
  (l = loc_Exact -> N = rne mz (E - e)) /\
  0 <= N <= 2 ^ 53 /\
  (emin < E -> 2 ^ 52 <= N).
Proof.
intros Hm Hn E.
assert (HE : emin <= E) by (unfold E, fexp, emin; lia).
set (n := E - e). assert (Hn0 : 0 <= n) by (unfold n; lia).
assert (Hpn : 0 < 2 ^ n) by (apply pow2_pos; lia).
unfold bra, binary_round_aux.
unfold shr_fexp at 1. rewrite fexp_eq. fold E. fold n.
pose proof (shr_m_spec (shr_record_of_loc mz l) e n) as Hs.
rewrite shr_record_of_loc_m in Hs. specialize (Hs Hm Hn0).
destruct (shr (shr_record_of_loc mz l) e n) as [mrs' e'] eqn:Hshr.
cbn [fst snd] in Hs. destruct Hs as [Hq He'].
assert (He : e' = E) by (unfold n in He'; lia). clear He'. rewrite He in *. clear He e'.
set (N := round_nearest_even (shr_m mrs') (loc_of_shr_record mrs')).
set (q := mz / 2 ^ n) in *.
assert (Hcases : N = q \/ N = q + 1).
{ unfold N. rewrite <- Hq. apply round_nearest_even_cases. }
assert (Hq0 : 0 <= q) by (apply Z.div_pos; lia).
assert (Hq53 : q < 2 ^ 53).
{ destruct mz as [|p|p]; try lia.
  - unfold q. rewrite Z.div_0_l by lia. lia.
  - apply Z.div_lt_upper_bound; [lia|].
    pose proof (digits_bounds p) as [_ Hb].
    assert (Zpos (digits2_pos p) <= n + 53)
      by (unfold n, E, fexp; cbn [Zdigits2]; lia).
    assert (2 ^ Zpos (digits2_pos p) <= 2 ^ (n + 53)) by (apply pow2_le; lia).
    rewrite Z.pow_add_r in * by lia. lia. }
assert (Hq52 : emin < E -> 2 ^ 52 <= q).
{ intros HEm. destruct mz as [|p|p]; try lia.
  - exfalso. unfold E, fexp, emin in *. cbn [Zdigits2] in *. lia.
  - apply Z.div_le_lower_bound; [lia|].
    pose proof (digits_bounds p) as [Hb _].
    assert (Hd : Zpos (digits2_pos p) - 1 = n + 52)
      by (unfold n, E, fexp, emin in *; cbn [Zdigits2] in *; lia).
    rewrite Hd in Hb. rewrite Z.pow_add_r in Hb by lia. lia. }
exists N. split; [|split; [|split; [|split]]].
- apply bra_finish; [lia|exact HE].
- exact Hcases.
- intros ->. unfold N. apply rne_of_record; [exact Hn0|].
  replace mrs' with (fst (shr (Build_shr_record mz false false) e n))
    by (cbn [shr_record_of_loc] in Hshr; rewrite Hshr; reflexivity).
  apply shr_exact_represents; assumption.
- lia.
- intros HEm. specialize (Hq52 HEm). lia.
Qed.

(** *** Order on canonical Numbers *)

Lemma le_finite m1 e1 m2 e2 :
le (S754_finite false m1 e1) (S754_finite false m2 e2) <->
e1 < e2 \/ (e1 = e2 /\ Zpos m1 <= Zpos m2).
Proof.
unfold le, SFleb, SFcompare.
change (Pos.compare_cont Eq m1 m2) with (Pos.compare m1 m2).
destruct (Z.compare_spec e1 e2) as [He|He|He].
- destruct (Pos.compare_spec m1 m2) as [Hm|Hm|Hm].
  + split; [intros _; right; split; [exact He|subst; lia] | reflexivity].
  + split; [intros _; right; split; [exact He|lia] | reflexivity].
  + split; [discriminate | lia].
- split; [intros _; left; exact He | reflexivity].
- split; [discriminate | lia].
Qed.

Lemma le_zero_l x : good x -> le (S754_zero false) x.
Proof.
destruct x as [s|s| |s m e]; simpl; intros H;
  try tauto; try (subst; reflexivity); destruct H as [-> _]; reflexivity.
Qed.

Lemma le_infinity_r x : good x -> le x (S754_infinity false).
Proof.
destruct x as [s|s| |s m e]; simpl; intros H;
  try tauto; try (subst; reflexivity); destruct H as [-> _]; reflexivity.
Qed.

Lemma good_finite m e :
0 < m -> fexp (Zdigits2 m + e) = e -> e <= 971 ->
match m with Zpos p => good (S754_finite false p e) | _ => False end.
Proof.
intros Hm Hc He. destruct m as [|p|p]; try lia.
split; [reflexivity|]. unfold bounded, canonical_mantissa.
rewrite fexp_eq. cbn [Zdigits2] in Hc. rewrite Hc, Z.eqb_refl.
apply Z.leb_le. exact He.
Qed.

Lemma norm_good N E :
0 <= N <= 2 ^ 53 -> emin <= E -> (emin < E -> 2 ^ 52 <= N) -> good (norm N E).
Proof.
intros [H0 H1] HE H52. unfold norm.
destruct N as [|p|p]; try lia; [reflexivity|].
destruct (Zpos p <? 2 ^ 53) eqn:Hlt.
- apply Z.ltb_lt in Hlt.
  destruct (E <=? 971) eqn:HE1; [|reflexivity]. apply Z.leb_le in HE1.
  apply (good_finite (Zpos p) E); [lia| |exact HE1].
  cbn [Zdigits2].
  destruct (Z.eq_dec E emin) as [->|Hne].
  + pose proof (digits_le p 53 Hlt ltac:(lia)). unfold fexp, emin. lia.
  + rewrite (digits_unique p 53) by (split; [apply H52; lia|exact Hlt]).
    unfold fexp, emin in *. lia.
- destruct (E + 1 <=? 971) eqn:HE1; [|reflexivity]. apply Z.leb_le in HE1.
  apply (good_finite (Zpos (2 ^ 52)) (E + 1)); [lia| |exact HE1].
  change (Zdigits2 (Zpos (2 ^ 52))) with 53. unfold fexp, emin in *. lia.
Qed.

Lemma norm_le_same N1 N2 E :
0 <= N1 -> N1 <= N2 -> N2 <= 2 ^ 53 -> le (norm N1 E) (norm N2 E).
Proof.
intros H0 H12 H2. unfold norm.
destruct N1 as [|p1|p1]; try lia.
- destruct N2 as [|p2|p2]; try lia; [reflexivity|].
  destruct (Zpos p2 <? 2 ^ 53); [destruct (E <=? 971)|destruct (E + 1 <=? 971)];
    reflexivity.
- destruct N2 as [|p2|p2]; try lia.
  destruct (Zpos p1 <? 2 ^ 53) eqn:L1; destruct (Zpos p2 <? 2 ^ 53) eqn:L2.
  + destruct (E <=? 971); [|reflexivity]. apply le_finite. right. lia.
  + destruct (E <=? 971) eqn:HE; [|].
    * destruct (E + 1 <=? 971); [|reflexivity]. apply le_finite. left. lia.
    * apply Z.leb_gt in HE.
      destruct (E + 1 <=? 971) eqn:HE1; [apply Z.leb_le in HE1; lia|reflexivity].
  + apply Z.ltb_lt in L2. apply Z.ltb_ge in L1. lia.
  + destruct (E + 1 <=? 971); [|reflexivity]. apply le_finite. right. lia.
Qed.

Lemma norm_le_lt N1 N2 E1 E2 :
0 <= N1 <= 2 ^ 53 -> 2 ^ 52 <= N2 <= 2 ^ 53 -> E1 < E2 ->
le (norm N1 E1) (norm N2 E2).
Proof.
intros [H0 H1] [H2 H3] HE. unfold norm.
destruct N2 as [|p2|p2]; try lia.
destruct N1 as [|p1|p1]; try lia.
- destruct (Zpos p2 <? 2 ^ 53); [destruct (E2 <=? 971)|destruct (E2 + 1 <=? 971)];
    reflexivity.
- destruct (Zpos p1 <? 2 ^ 53) eqn:L1; destruct (Zpos p2 <? 2 ^ 53) eqn:L2;
    repeat match goal with
           | |- context [?a <=? ?b] =>
               let H := fresh "C" in
               destruct (a <=? b) eqn:H;
               [apply Z.leb_le in H | apply Z.leb_gt in H]
           end;
    try reflexivity; try lia;
    apply le_finite; lia.
Qed.

(** *** Rounding to nearest *)

Lemma rne_mono a b k : 0 <= k -> a <= b -> rne a k <= rne b k.
Proof.
intros Hk Hab. assert (HP : 0 < 2 ^ k) by (apply pow2_pos; lia).
unfold rne. set (P := 2 ^ k) in *.
pose proof (Z.div_mod a P ltac:(lia)) as Ha.
pose proof (Z.div_mod b P ltac:(lia)) as Hb.
pose proof (Z.mod_pos_bound a P HP) as Hra.
pose proof (Z.mod_pos_bound b P HP) as Hrb.
set (qa := a / P) in *. set (ra := a mod P) in *.
set (qb := b / P) in *. set (rb := b mod P) in *.
assert (Hq : qa <= qb) by nia.
destruct (Z.eq_dec qa qb) as [Heq|Hne].
- rewrite <- Heq in *. assert (ra <= rb) by nia.
  destruct (Z.compare_spec (2 * ra) P); destruct (Z.compare_spec (2 * rb) P);
    destruct (Z.even qa); lia.
- assert (qa + 1 <= qb) by lia.
  destruct (Z.compare_spec (2 * ra) P); destruct (Z.compare_spec (2 * rb) P);
    destruct (Z.even qa); destruct (Z.even qb); lia.
Qed.

Lemma rne_scale m k j : 0 <= k -> 0 <= j -> rne (m * 2 ^ j) (k + j) = rne m k.
Proof.
intros Hk Hj.
assert (HP : 0 < 2 ^ k) by (apply pow2_pos; lia).
assert (HJ : 0 < 2 ^ j) by (apply pow2_pos; lia).
unfold rne. rewrite Z.pow_add_r by lia.
rewrite Z.div_mul_cancel_r by lia.
rewrite Z.mul_mod_distr_r by lia.
replace (2 * (m mod 2 ^ k * 2 ^ j)) with (2 * (m mod 2 ^ k) * 2 ^ j) by lia.
rewrite <- Zmult_compare_compat_r by lia. reflexivity.
Qed.

Lemma rne_exact m : rne m 0 = m.
Proof.
unfold rne. rewrite Z.pow_0_r, Z.mod_1_r, Z.div_1_r. reflexivity.
Qed.

(** *** Order of values *)

Lemma vle_shift m1 e1 m2 e2 c :
c <= e1 -> c <= e2 ->
(vle m1 e1 m2 e2 <-> m1 * 2 ^ (e1 - c) <= m2 * 2 ^ (e2 - c)).
Proof.
intros H1 H2. unfold vle. set (mn := Z.min e1 e2).
assert (Hc : c <= mn) by (unfold mn; lia).
assert (HP : 0 < 2 ^ (mn - c)) by (apply pow2_pos; lia).
replace (e1 - c) with ((e1 - mn) + (mn - c)) by lia.
replace (e2 - c) with ((e2 - mn) + (mn - c)) by lia.
rewrite !Z.pow_add_r by (unfold mn; lia).
rewrite !Z.mul_assoc. split; intros H.
- apply Z.mul_le_mono_nonneg_r; [lia|exact H].
- apply Z.mul_le_mono_pos_r in H; [exact H|exact HP].
Qed.

Lemma pow2_lt_inv a b : 0 <= b -> 2 ^ a < 2 ^ b -> a < b.
Proof.
intros Hb H. destruct (Z.lt_ge_cases a b) as [?|Hge]; [assumption|].
exfalso. assert (2 ^ b <= 2 ^ a) by (apply pow2_le; lia). lia.
Qed.

Lemma vle_digits p1 e1 p2 e2 :
vle (Zpos p1) e1 (Zpos p2) e2 ->
Zpos (digits2_pos p1) + e1 <= Zpos (digits2_pos p2) + e2.
Proof.
unfold vle. set (c := Z.min e1 e2). intros H.
pose proof (digits_bounds p1) as [L1 _].
pose proof (digits_bounds p2) as [_ U2].
set (d1 := Zpos (digits2_pos p1)) in *. set (d2 := Zpos (digits2_pos p2)) in *.
assert (0 < d1) by (unfold d1; lia). assert (0 < d2) by (unfold d2; lia).
assert (A1 : 0 < 2 ^ (e1 - c)) by (apply pow2_pos; unfold c; lia).
assert (A2 : 0 < 2 ^ (e2 - c)) by (apply pow2_pos; unfold c; lia).
assert (Hlt : 2 ^ (d1 - 1 + (e1 - c)) < 2 ^ (d2 + (e2 - c))).
{ rewrite !Z.pow_add_r by (unfold c; lia). nia. }
apply pow2_lt_inv in Hlt; [lia|unfold c; lia].
Qed.

Lemma fexp_mono a b : a <= b -> fexp a <= fexp b.
Proof. unfold fexp. lia. Qed.

(** Rounding is monotone. *)
Lemma round_mono p1 e1 p2 e2 :
e1 <= fexp (Zpos (digits2_pos p1) + e1) ->
e2 <= fexp (Zpos (digits2_pos p2) + e2) ->
vle (Zpos p1) e1 (Zpos p2) e2 ->
le (bra false (Zpos p1) e1 loc_Exact) (bra false (Zpos p2) e2 loc_Exact).
Proof.
intros H1 H2 Hv.
destruct (bra_norm (Zpos p1) e1 loc_Exact ltac:(lia) H1)
  as (N1 & -> & _ & R1 & B1 & _).
destruct (bra_norm (Zpos p2) e2 loc_Exact ltac:(lia) H2)
  as (N2 & -> & _ & R2 & B2 & L2).
cbn [Zdigits2] in *.
set (E1 := fexp (Zpos (digits2_pos p1) + e1)) in *.
set (E2 := fexp (Zpos (digits2_pos p2) + e2)) in *.
assert (HE : E1 <= E2) by (apply fexp_mono, vle_digits, Hv).
assert (HE1 : emin <= E1) by (unfold E1, fexp, emin; lia).
destruct (Z.eq_dec E1 E2) as [Heq|Hne].
- rewrite <- Heq in *. apply norm_le_same; try lia.
  rewrite (R1 eq_refl), (R2 eq_refl).
  rewrite <- (rne_scale (Zpos p1) (E1 - e1) (E1 - e2)) by lia.
  rewrite <- (rne_scale (Zpos p2) (E1 - e2) (E1 - e1)) by lia.
  replace (E1 - e2 + (E1 - e1)) with (E1 - e1 + (E1 - e2)) by lia.
  apply rne_mono; [lia|].
  apply (vle_shift _ _ _ _ (e1 + e2 - E1)) in Hv; try lia.
  replace (e1 - (e1 + e2 - E1)) with (E1 - e2) in Hv by lia.
  replace (e2 - (e1 + e2 - E1)) with (E1 - e1) in Hv by lia.
  exact Hv.
- apply norm_le_lt; lia.
Qed.

Lemma good_nonneg x : good x -> nonneg x.
Proof. destruct x; simpl; tauto. Qed.

Lemma bra_good mz e l :
0 <= mz -> e <= fexp (Zdigits2 mz + e) -> good (bra false mz e l).
Proof.
intros Hm He.
destruct (bra_norm mz e l Hm He) as (N & -> & _ & _ & B & L).
apply norm_good; [exact B| unfold fexp, emin; lia | exact L].
Qed.

Lemma good_finite_inv p e :
good (S754_finite false p e) ->
fexp (Zpos (digits2_pos p) + e) = e /\ e <= 971 /\ emin <= e /\
Zpos p < 2 ^ 53 /\ (emin < e -> 2 ^ 52 <= Zpos p).
Proof.
intros [_ H]. unfold bounded, canonical_mantissa in H.
apply andb_true_iff in H. destruct H as [Hc Hb].
apply Z.eqb_eq in Hc. apply Z.leb_le in Hb. rewrite fexp_eq in Hc.
change (1024 - 53) with 971 in Hb.
pose proof (digits_bounds p) as [L U].
set (d := Zpos (digits2_pos p)) in *.
assert (Hd : d <= 53) by (unfold fexp in Hc; lia).
assert (He : emin <= e) by (unfold fexp, emin in *; lia).
repeat split; try assumption.
- assert (2 ^ d <= 2 ^ 53) by (apply pow2_le; unfold d; lia). lia.
- intros Hlt. assert (d = 53) by (unfold fexp, emin in *; lia).
  replace (d - 1) with 52 in L by lia. exact L.
Qed.

(** A canonical Number rounds to itself. *)
Lemma round_id p e :
good (S754_finite false p e) ->
bra false (Zpos p) e loc_Exact = S754_finite false p e.
Proof.
intros Hg. destruct (good_finite_inv p e Hg) as (Hc & Hb & He & Hp & _).
destruct (bra_norm (Zpos p) e loc_Exact ltac:(lia)) as (N & -> & _ & R & _).
{ cbn [Zdigits2]. lia. }
cbn [Zdigits2] in *. rewrite Hc in *. rewrite (R eq_refl).
rewrite Z.sub_diag, rne_exact. unfold norm.
apply Z.ltb_lt in Hp. rewrite Hp. apply Z.leb_le in Hb. rewrite Hb.
reflexivity.
Qed.

Lemma good_le_vle p1 e1 p2 e2 :
good (S754_finite false p1 e1) -> good (S754_finite false p2 e2) ->
le (S754_finite false p1 e1) (S754_finite false p2 e2) ->
vle (Zpos p1) e1 (Zpos p2) e2.
Proof.
intros G1 G2 Hle.
destruct (good_finite_inv _ _ G1) as (_ & _ & He1 & Hp1 & _).
destruct (good_finite_inv _ _ G2) as (_ & _ & _ & _ & Hp2).
apply le_finite in Hle. unfold vle.
destruct Hle as [Hlt|[-> Hm]].
- rewrite Z.min_l by lia. rewrite Z.sub_diag, Z.pow_0_r.
  specialize (Hp2 ltac:(lia)).
  assert (2 ^ 1 <= 2 ^ (e2 - e1)) by (apply pow2_le; lia).
  change (2 ^ 1) with 2 in *. nia.
- rewrite Z.min_id, Z.sub_diag, Z.pow_0_r. lia.
Qed.

Lemma vle_mul_r m1 e1 m2 e2 c ec :
0 <= c -> vle m1 e1 m2 e2 -> vle (m1 * c) (e1 + ec) (m2 * c) (e2 + ec).
Proof.
unfold vle. intros Hc H.
replace (Z.min (e1 + ec) (e2 + ec)) with (Z.min e1 e2 + ec) by lia.
replace (e1 + ec - (Z.min e1 e2 + ec)) with (e1 - Z.min e1 e2) by lia.
replace (e2 + ec - (Z.min e1 e2 + ec)) with (e2 - Z.min e1 e2) by lia.
nia.
Qed.

Lemma vle_mul_l m e c1 ec1 c2 ec2 :
0 <= m -> vle c1 ec1 c2 ec2 -> vle (m * c1) (e + ec1) (m * c2) (e + ec2).
Proof.
unfold vle. intros Hm H.
replace (Z.min (e + ec1) (e + ec2)) with (e + Z.min ec1 ec2) by lia.
replace (e + ec1 - (e + Z.min ec1 ec2)) with (ec1 - Z.min ec1 ec2) by lia.
replace (e + ec2 - (e + Z.min ec1 ec2)) with (ec2 - Z.min ec1 ec2) by lia.
nia.
Qed.

Lemma vle_trans m1 e1 m2 e2 m3 e3 :
vle m1 e1 m2 e2 -> vle m2 e2 m3 e3 -> vle m1 e1 m3 e3.
Proof.
intros H12 H23.
set (c := Z.min e1 (Z.min e2 e3)).
apply (vle_shift _ _ _ _ c) in H12; [|unfold c; lia|unfold c; lia].
apply (vle_shift _ _ _ _ c) in H23; [|unfold c; lia|unfold c; lia].
apply (vle_shift _ _ _ _ c); [unfold c; lia|unfold c; lia|]. lia.
Qed.

(** *** Multiplication by a positive normal constant *)

Lemma mul_precondition px ex pc ec :
2 ^ 52 <= Zpos pc ->
ex + ec <= fexp (Zpos (digits2_pos (px * pc)) + (ex + ec)).
Proof.
intros Hc. pose proof (digits_bounds (px * pc)) as [_ U].
assert (H : 2 ^ 52 < 2 ^ Zpos (digits2_pos (px * pc))).
{ rewrite Pos2Z.inj_mul in U. nia. }
apply pow2_lt_inv in H; [|lia]. unfold fexp. lia.
Qed.

Lemma mul_good x c : nonneg x -> normal c -> good (mul x c).
Proof.
destruct c as [| | |[|] pc ec]; simpl; try tauto. intros Hx Hc.
destruct x as [s|s| |s px ex]; simpl in Hx; try tauto; subst s;
  try reflexivity.
unfold mul, SFmul, prec, emax. cbn [xorb]. apply bra_good; [lia|].
cbn [Zdigits2]. apply mul_precondition. exact Hc.
Qed.

Lemma le_infinity_l x : good x -> le (S754_infinity false) x -> x = S754_infinity false.
Proof.
destruct x as [s|s| |s m e]; simpl; intros G H;
  try tauto; try discriminate; try (subst; reflexivity);
  try (subst; discriminate); destruct G as [-> _]; discriminate.
Qed.

Lemma le_zero_r x : good x -> le x (S754_zero false) -> x = S754_zero false.
Proof.
destruct x as [s|s| |s m e]; simpl; intros G H;
  try tauto; try discriminate; try (subst; reflexivity);
  try (subst; discriminate); destruct G as [-> _]; discriminate.
Qed.

Lemma mul_mono_l x1 x2 c :
good x1 -> good x2 -> normal c -> le x1 x2 -> le (mul x1 c) (mul x2 c).
Proof.
intros G1 G2 Hc Hle.
pose proof (mul_good x1 c (good_nonneg _ G1) Hc) as M1.
pose proof (mul_good x2 c (good_nonneg _ G2) Hc) as M2.
destruct c as [| | |[|] pc ec]; simpl in Hc; try tauto.
destruct x1 as [s1|s1| |s1 p1 e1]; simpl in G1; try tauto.
- subst s1. apply le_zero_l. exact M2.
- subst s1. rewrite (le_infinity_l x2 G2 Hle). reflexivity.
- destruct x2 as [s2|s2| |s2 p2 e2]; simpl in G2; try tauto.
  + subst s2. apply le_zero_r in Hle; [discriminate|exact G1].
  + subst s2. apply le_infinity_r. exact M1.
  + destruct G1 as [-> B1], G2 as [-> B2].
    unfold mul, SFmul, prec, emax. cbn [xorb]. apply round_mono.
    * apply mul_precondition. exact Hc.
    * apply mul_precondition. exact Hc.
    * rewrite !Pos2Z.inj_mul. apply vle_mul_r; [lia|].
      apply good_le_vle; [split; [reflexivity|exact B1]
                         |split; [reflexivity|exact B2]|exact Hle].
Qed.

Lemma mul_mono_r x c1 c2 :
nonneg x -> normal c1 -> normal c2 ->
match c1, c2 with
| S754_finite _ p1 e1, S754_finite _ p2 e2 => vle (Zpos p1) e1 (Zpos p2) e2
| _, _ => False
end ->
le (mul x c1) (mul x c2).
Proof.
intros Hx H1 H2 Hv.
pose proof (mul_good x c1 Hx H1) as M1.
pose proof (mul_good x c2 Hx H2) as M2.
destruct c1 as [| | |[|] p1 e1]; simpl in H1; try tauto.
destruct c2 as [| | |[|] p2 e2]; simpl in H2; try tauto.
destruct x as [s|s| |s px ex]; simpl in Hx; try tauto; subst s;
  try reflexivity.
unfold mul, SFmul, prec, emax. cbn [xorb]. apply round_mono.
- apply mul_precondition. exact H1.
- apply mul_precondition. exact H2.
- rewrite !Pos2Z.inj_mul. apply vle_mul_l; [lia|exact Hv].
Qed.

Lemma mul_le_self x c :
good x -> normal c ->
match c with
| S754_finite _ p e => vle (Zpos p) e 1 0
| _ => False
end ->
le (mul x c) x.
Proof.
intros Gx Hc Hv.
destruct c as [| | |[|] pc ec]; simpl in Hc; try tauto.
destruct x as [s|s| |s px ex]; simpl in Gx; try tauto; try (subst s; reflexivity).
destruct Gx as [-> B].
assert (G : good (S754_finite false px ex)) by (split; [reflexivity|exact B]).
rewrite <- (round_id px ex G) at 2.
unfold mul, SFmul, prec, emax. cbn [xorb]. apply round_mono.
- apply mul_precondition. exact Hc.
- destruct (good_finite_inv _ _ G) as (E & _). lia.
- rewrite Pos2Z.inj_mul.
  replace (Zpos px) with (Zpos px * 1) at 2 by lia.
  replace ex with (ex + 0) at 2 by lia.
  apply vle_mul_l; [lia|exact Hv].
Qed.

(** *** Division *)

Lemma div_core_precondition p1 e1 p2 e2 :
let '(mz, ez, lz) := SFdiv_core_binary 53 1024 (Zpos p1) e1 (Zpos p2) e2 in
0 <= mz /\ ez <= fexp (Zdigits2 mz + ez).
Proof.
unfold SFdiv_core_binary. rewrite fexp_eq. cbn [Zdigits2].
set (d1 := Zpos (digits2_pos p1)). set (d2 := Zpos (digits2_pos p2)).
set (e' := Z.min (fexp (d1 + e1 - (d2 + e2))) (e1 - e2)).
set (s := e1 - e2 - e').
assert (Hs : 0 <= s) by (unfold s, e'; lia).
set (m' := match s with
           | 0 => Zpos p1
           | Zpos _ => Z.shiftl (Zpos p1) s
           | Zneg _ => 0
           end).
assert (Hm' : m' = Zpos p1 * 2 ^ s).
{ unfold m'. clearbody s. destruct s as [|ps|ps];
    [lia | rewrite Z.shiftl_mul_pow2 by lia; reflexivity | lia]. }
assert (HP : 0 < 2 ^ s) by (apply pow2_pos; lia).
pose proof (Z_div_mod m' (Zpos p2) ltac:(lia)) as Hdiv.
destruct (Z.div_eucl m' (Zpos p2)) as [q r]. destruct Hdiv as [Hq Hr].
assert (Hq0 : 0 <= q) by nia.
split; [exact Hq0|].
destruct (Z.le_gt_cases e' emin) as [Hle|Hgt].
- unfold fexp, emin in *. lia.
- assert (Hk : e' <= d1 + e1 - (d2 + e2) - 53)
    by (unfold e', fexp, emin in *; lia).
  pose proof (digits_bounds p1) as [L1 _].
  pose proof (digits_bounds p2) as [_ U2].
  fold d1 in L1. fold d2 in U2.
  assert (0 < d1) by (unfold d1; lia). assert (0 < d2) by (unfold d2; lia).
  assert (H52 : 2 ^ 52 * Zpos p2 <= m').
  { rewrite Hm'.
    assert (A : 2 ^ (52 + d2) <= 2 ^ (d1 - 1 + s)) by (apply pow2_le; unfold s; lia).
    rewrite !Z.pow_add_r in A by lia.
    assert (0 < 2 ^ 52) by (apply pow2_pos; lia). nia. }
  assert (Hq52 : 2 ^ 52 <= q) by nia.
  destruct q as [|pq|pq]; try lia. cbn [Zdigits2].
  pose proof (digits_bounds pq) as [_ Uq].
  assert (Hd : 2 ^ 52 < 2 ^ Zpos (digits2_pos pq)) by lia.
  apply pow2_lt_inv in Hd; [|lia]. unfold fexp. lia.
Qed.

Lemma div_good x c : nonneg x -> normal c -> good (div x c).
Proof.
destruct c as [| | |[|] pc ec]; simpl; try tauto. intros Hx Hc.
destruct x as [s|s| |s px ex]; simpl in Hx; try tauto; subst s;
  try reflexivity.
unfold div, SFdiv, prec, emax. cbn [xorb].
pose proof (div_core_precondition px ex pc ec) as H.
destruct (SFdiv_core_binary 53 1024 (Zpos px) ex (Zpos pc) ec) as [[mz ez] lz].
destruct H as [H0 H1]. apply bra_good; assumption.
Qed.

(** *** Integers as Numbers *)

Lemma pos_iter_xO p n : Zpos (Pos.iter xO p n) = Zpos p * 2 ^ Zpos n.
Proof.
induction n as [|n IH] using Pos.peano_ind.
- simpl. lia.
- rewrite Pos.iter_succ. rewrite Pos2Z.inj_xO, IH.
  rewrite Pos2Z.inj_succ. rewrite Z.pow_succ_r by lia. lia.
Qed.

Lemma shl_align_spec p e e' :
let '(mz, ez) := shl_align p e e' in
ez = Z.min e e' /\ Zpos mz = Zpos p * 2 ^ (e - ez).
Proof.
unfold shl_align. destruct (e' - e) as [|d|d] eqn:Hd.
- split; [lia|]. replace (e - e) with 0 by lia. rewrite Z.pow_0_r. lia.
- split; [lia|]. replace (e - e) with 0 by lia. rewrite Z.pow_0_r. lia.
- split; [lia|]. rewrite pos_iter_xO. f_equal. f_equal. lia.
Qed.

Lemma digits_shift p k q :
0 <= k -> Zpos q = Zpos p * 2 ^ k ->
Zpos (digits2_pos q) = Zpos (digits2_pos p) + k.
Proof.
intros Hk Hq. apply digits_unique. rewrite Hq.
pose proof (digits_bounds p) as [L U].
assert (0 < 2 ^ k) by (apply pow2_pos; lia).
replace (Zpos (digits2_pos p) + k - 1) with (Zpos (digits2_pos p) - 1 + k) by lia.
rewrite !Z.pow_add_r by lia. nia.
Qed.

(** [binary_round] presents its argument to [binary_round_aux] with the
  same value and digits enough. *)
Lemma binary_round_spec p e :
exists q ez,
  binary_round 53 1024 false p e = bra false (Zpos q) ez loc_Exact /\
  ez = Z.min e (fexp (Zpos (digits2_pos p) + e)) /\
  Zpos q = Zpos p * 2 ^ (e - ez) /\
  ez <= fexp (Zpos (digits2_pos q) + ez).
Proof.
unfold binary_round. rewrite fexp_eq.
pose proof (shl_align_spec p e (fexp (Zpos (digits2_pos p) + e))) as H.
destruct (shl_align p e (fexp (Zpos (digits2_pos p) + e))) as [q ez].
destruct H as [Hez Hq]. exists q, ez.
split; [reflexivity|]. split; [exact Hez|]. split; [exact Hq|].
rewrite (digits_shift p (e - ez) q) by (try lia; exact Hq).
replace (Zpos (digits2_pos p) + (e - ez) + ez) with (Zpos (digits2_pos p) + e) by lia.
lia.
Qed.

Lemma of_Z_good z : 0 <= z -> good (of_Z z).
Proof.
intros Hz. destruct z as [|p|p]; try lia; [reflexivity|].
unfold of_Z, binary_normalize, prec, emax.
destruct (binary_round_spec p 0) as (q & ez & -> & _ & _ & Hpre).
apply bra_good; [lia|exact Hpre].
Qed.

Lemma of_Z_mono z1 z2 : 0 <= z1 -> z1 <= z2 -> le (of_Z z1) (of_Z z2).
Proof.
intros H0 H12.
destruct z1 as [|p1|p1]; try lia.
- apply le_zero_l, of_Z_good. lia.
- destruct z2 as [|p2|p2]; try lia.
  unfold of_Z, binary_normalize, prec, emax.
  destruct (binary_round_spec p1 0) as (q1 & ez1 & -> & L1 & V1 & P1).
  destruct (binary_round_spec p2 0) as (q2 & ez2 & -> & L2 & V2 & P2).
  apply round_mono; [exact P1|exact P2|].
  apply (vle_shift _ _ _ _ (Z.min ez1 ez2)); [lia|lia|].
  rewrite V1, V2.
  rewrite <- !Z.mul_assoc, <- !Z.pow_add_r by lia.
  replace (0 - ez1 + (ez1 - Z.min ez1 ez2)) with (- Z.min ez1 ez2) by lia.
  replace (0 - ez2 + (ez2 - Z.min ez1 ez2)) with (- Z.min ez1 ez2) by lia.
  assert (0 < 2 ^ (- Z.min ez1 ez2)) by (apply pow2_pos; lia). nia.
Qed.

(** An integer below [2^53] is a Number. *)
Lemma of_Z_exact z :
0 <= z < 2 ^ 53 -> isInteger (of_Z z) = true /\ integer_value (of_Z z) = z.
Proof.
intros [H0 H1]. destruct z as [|p|p]; try lia; [split; reflexivity|].
unfold of_Z, binary_normalize, prec, emax.
destruct (binary_round_spec p 0) as (q & ez & -> & L & V & P).
pose proof (digits_le p 53 H1 ltac:(lia)) as Hd.
pose proof (digits_shift p (0 - ez) q ltac:(lia) V) as Hdq.
assert (Hc : fexp (Zpos (digits2_pos q) + ez) = ez).
{ rewrite Hdq. unfold fexp in *. lia. }
assert (G : good (S754_finite false q ez)).
{ apply (good_finite (Zpos q) ez); [lia|exact Hc|lia]. }
rewrite (round_id q ez G). cbn [isInteger integer_value].
assert (HP : 0 < 2 ^ (- ez)) by (apply pow2_pos; lia).
replace (0 - ez) with (- ez) in V by lia.
destruct (0 <=? ez) eqn:Hz.
- apply Z.leb_le in Hz. assert (Hz0 : ez = 0) by lia.
  rewrite Hz0 in V |- *. change (2 ^ (- 0)) with 1 in V.
  rewrite Z.pow_0_r. split; [reflexivity|lia].
- rewrite V. rewrite Z.mod_mul by lia. rewrite Z.div_mul by lia.
  split; reflexivity.
Qed.

(** *** [Math.floor] *)

Lemma floor_finite p e :
floor (S754_finite false p e) =
  if 0 <=? e then S754_finite false p e else of_Z (Zpos p / 2 ^ (- e)).
Proof. reflexivity. Qed.

Lemma floor_quotient_bounds p e :
Zpos p < 2 ^ 53 -> e < 0 -> 0 <= Zpos p / 2 ^ (- e) < 2 ^ 52.
Proof.
intros Hp He. assert (HP : 2 ^ 1 <= 2 ^ (- e)) by (apply pow2_le; lia).
change (2 ^ 1) with 2 in HP. split.
- apply Z.div_pos; lia.
- apply Z.div_lt_upper_bound; [lia|]. change (2 ^ 53) with (2 * 2 ^ 52) in Hp.
  nia.
Qed.

Lemma floor_good x : good x -> good (floor x).
Proof.
intros G. destruct x as [s|s| |s p e]; try exact G.
destruct G as [-> B]. rewrite floor_finite.
destruct (0 <=? e) eqn:He; [split; [reflexivity|exact B]|].
apply of_Z_good. apply Z.div_pos; [lia|]. apply pow2_pos. apply Z.leb_gt in He. lia.
Qed.

(** [Math.floor] yields an integer, or leaves [Infinity]. *)
Lemma floor_integer x :
good x -> floor x = S754_infinity false \/ isInteger (floor x) = true.
Proof.
intros G. destruct x as [s|s| |s p e]; simpl in G; try tauto.
- left. subst. reflexivity.
- right. destruct G as [-> B].
  assert (G : good (S754_finite false p e)) by (split; [reflexivity|exact B]).
  rewrite floor_finite. destruct (0 <=? e) eqn:He.
  + cbn [isInteger]. rewrite He. reflexivity.
  + apply Z.leb_gt in He.
    destruct (good_finite_inv _ _ G) as (_ & _ & _ & Hp & _).
    pose proof (floor_quotient_bounds p e Hp He).
    apply of_Z_exact. lia.
Qed.

Lemma of_Z_below z e :
0 <= z < 2 ^ 52 -> 0 <= e ->
forall p, good (S754_finite false p e) -> le (of_Z z) (S754_finite false p e).
Proof.
intros [H0 H1] He p G.
destruct z as [|pz|pz]; try lia; [apply le_zero_l; exact G|].
unfold of_Z, binary_normalize, prec, emax.
destruct (binary_round_spec pz 0) as (q & ez & -> & Ez & V & P).
pose proof (digits_le pz 52 H1 ltac:(lia)) as Hd.
pose proof (digits_shift pz (0 - ez) q ltac:(lia) V) as Hdq.
assert (Hez : ez < 0) by (unfold fexp in Ez; lia).
assert (Hc : fexp (Zpos (digits2_pos q) + ez) = ez).
{ rewrite Hdq. unfold fexp in *. lia. }
assert (Gq : good (S754_finite false q ez)).
{ apply (good_finite (Zpos q) ez); [lia|exact Hc|lia]. }
rewrite (round_id q ez Gq). apply le_finite. left. lia.
Qed.

Lemma floor_mono x y : good x -> good y -> le x y -> le (floor x) (floor y).
Proof.
intros Gx Gy Hle.
pose proof (floor_good x Gx) as Fx. pose proof (floor_good y Gy) as Fy.
destruct x as [s1|s1| |s1 p1 e1]; simpl in Gx; try tauto.
- subst s1. apply le_zero_l. exact Fy.
- subst s1. rewrite (le_infinity_l y Gy Hle). reflexivity.
- destruct y as [s2|s2| |s2 p2 e2]; simpl in Gy; try tauto.
  + subst s2. apply le_zero_r in Hle; [discriminate|exact Gx].
  + subst s2. apply le_infinity_r. exact Fx.
  + destruct Gx as [-> B1], Gy as [-> B2].
    assert (G1 : good (S754_finite false p1 e1)) by (split; [reflexivity|exact B1]).
    assert (G2 : good (S754_finite false p2 e2)) by (split; [reflexivity|exact B2]).
    destruct (good_finite_inv _ _ G1) as (_ & _ & _ & Hp1 & _).
    rewrite !floor_finite.
    destruct (0 <=? e1) eqn:He1; destruct (0 <=? e2) eqn:He2.
    * exact Hle.
    * apply le_finite in Hle. apply Z.leb_le in He1. apply Z.leb_gt in He2. lia.
    * apply Z.leb_gt in He1. apply Z.leb_le in He2.
      apply of_Z_below; [apply floor_quotient_bounds; assumption|exact He2|exact G2].
    * apply Z.leb_gt in He1. apply Z.leb_gt in He2.
      pose proof (good_le_vle _ _ _ _ G1 G2 Hle) as Hv. unfold vle in Hv.
      set (c := Z.min e1 e2) in *.
      assert (A1 : 0 < 2 ^ (e1 - c)) by (apply pow2_pos; unfold c; lia).
      assert (A2 : 0 < 2 ^ (e2 - c)) by (apply pow2_pos; unfold c; lia).
      apply of_Z_mono.
      { apply Z.div_pos; [lia|apply pow2_pos; lia]. }
      rewrite <- (Z.div_mul_cancel_r (Zpos p1) (2 ^ (- e1)) (2 ^ (e1 - c)))
        by (try apply Z.pow_nonzero; lia).
      rewrite <- (Z.div_mul_cancel_r (Zpos p2) (2 ^ (- e2)) (2 ^ (e2 - c)))
        by (try apply Z.pow_nonzero; lia).
      rewrite <- !Z.pow_add_r by (unfold c; lia).
      replace (- e1 + (e1 - c)) with (- c) by lia.
      replace (- e2 + (e2 - c)) with (- c) by lia.
      apply Z.div_le_mono; [apply pow2_pos; unfold c; lia|exact Hv].
Qed.

Lemma le_refl x : good x -> SFeqb x x = true /\ le x x.
Proof.
destruct x as [s|s| |s p e]; simpl; intros G; try tauto.
- split; reflexivity.
- subst. split; reflexivity.
- destruct G as [-> _]. unfold le, SFeqb, SFleb, SFcompare.
  rewrite Z.compare_refl.
  change (Pos.compare_cont Eq p p) with (Pos.compare p p).
  rewrite Pos.compare_refl. split; reflexivity.
Qed.

(** *** Negative Numbers *)

Lemma bra_sign s mz e l : bra s mz e l = with_sign s (bra false mz e l).
Proof.
  unfold bra, binary_round_aux.
  destruct (shr_fexp 53 1024 mz e l) as [mrs' e'].
  destruct (shr_fexp 53 1024 _ e' loc_Exact) as [mrs'' e''].
  destruct (shr_m mrs'') as [|p|p]; try reflexivity.
  destruct (e'' <=? 1024 - 53); reflexivity.
Qed.

Lemma nonpos_with_sign x : nonneg x -> nonpos (with_sign true x).
Proof. destruct x; simpl; tauto. Qed.

Lemma leb_nonpos x : nonpos x -> leb x pos_zero = true.
Proof.
  destruct x as [s|s| |s m e]; simpl; intros H; try tauto; try reflexivity;
    subst; reflexivity.
Qed.

Lemma negative_nonpos x : ltb x pos_zero = true -> nonpos x.
Proof.
  destruct x as [s|s| |s m e]; simpl; try discriminate;
    destruct s; try discriminate; reflexivity.
Qed.

Lemma mul_nonpos x c : nonpos x -> normal c -> nonpos (mul x c).
Proof.
  destruct c as [| | |[|] pc ec]; simpl; try tauto. intros Hx Hc.
  destruct x as [s|s| |s px ex]; simpl in Hx; try tauto; try exact I;
    subst s; try reflexivity.
  unfold mul, SFmul, prec, emax. cbn [xorb]. fold (bra true).
  rewrite bra_sign. apply nonpos_with_sign, good_nonneg, bra_good; [lia|].
  cbn [Zdigits2]. apply mul_precondition. exact Hc.
Qed.

Lemma div_nonpos x c : nonpos x -> normal c -> nonpos (div x c).
Proof.
  destruct c as [| | |[|] pc ec]; simpl; try tauto. intros Hx Hc.
  destruct x as [s|s| |s px ex]; simpl in Hx; try tauto; try exact I;
    subst s; try reflexivity.
  unfold div, SFdiv, prec, emax. cbn [xorb].
  pose proof (div_core_precondition px ex pc ec) as H.
  destruct (SFdiv_core_binary 53 1024 (Zpos px) ex (Zpos pc) ec) as [[mz ez] lz].
  destruct H as [H0 H1]. fold (bra true). rewrite bra_sign.
  apply nonpos_with_sign, good_nonneg, bra_good; assumption.
Qed.

Lemma floor_nonpos x : nonpos x -> nonpos (floor x).
Proof.
  destruct x as [s|s| |s p e]; simpl; try tauto. intros ->.
  destruct (0 <=? e) eqn:He; [reflexivity|]. apply Z.leb_gt in He.
  assert (HP : 0 < 2 ^ (- e)) by (apply pow2_pos; lia).
  assert (Hq : 0 <= Zpos p / 2 ^ (- e)) by (apply Z.div_pos; lia).
  set (n := - (if Zpos p mod 2 ^ (- e) =? 0
               then Zpos p / 2 ^ (- e) else Zpos p / 2 ^ (- e) + 1)).
  assert (Hn : n <= 0) by (unfold n; destruct (Zpos p mod 2 ^ (- e) =? 0); lia).
  clearbody n. destruct n as [|pn|pn]; try lia; [exact I|].
  unfold binary_normalize, prec, emax.
  assert (Hs : forall q ez, binary_round_aux 53 1024 true q ez loc_Exact
                            = bra true q ez loc_Exact) by reflexivity.
  unfold binary_round.
  destruct (shl_align pn 0 (SpecFloat.fexp 53 1024 (Zpos (digits2_pos pn) + 0)))
    as [q ez] eqn:Hal.
  rewrite Hs, bra_sign.
  destruct (binary_round_spec pn 0) as (q' & ez' & Hbr & _ & _ & Hpre).
  unfold binary_round in Hbr. rewrite Hal in Hbr.
  fold (bra false (Zpos q) ez loc_Exact) in Hbr. rewrite Hbr.
  apply nonpos_with_sign, good_nonneg, bra_good; [lia|exact Hpre].
Qed.

End Binary64Facts.

(* ===================================================================== *)
(** * Properties of the services *)
(* ===================================================================== *)

Section ServiceProperties.

Variable StringToNumber : string -> number.


(** *** Change decision *)

(** On an integral Number the mixed comparison is the comparison of the
    integer values. *)
Lemma number_ltb_bigint_integer x z :
  isInteger x = true -> number_ltb_bigint x z = (integer_value x <? z).
Proof.
  destruct x as [s|s| |s m e]; simpl; try discriminate; try reflexivity.
  destruct (0 <=? e) eqn:He.
  - intros _. destruct s; [|reflexivity].
    change (Z.neg m) with (- Z.pos m). rewrite Z.mul_opp_l. reflexivity.
  - intros Hm. apply Z.eqb_eq in Hm. apply Z.leb_gt in He.
    assert (Hd : 0 < 2 ^ (- e)) by (apply Z.pow_pos_nonneg; lia).
    set (d := 2 ^ (- e)) in *.
    assert (Hq : Z.pos m = d * (Z.pos m / d)).
    { rewrite (Z.div_mod (Z.pos m) d) at 1 by lia. lia. }
    set (q := Z.pos m / d) in *.
    destruct s.
    + change (Z.neg m) with (- Z.pos m).
      apply eq_true_iff_eq. rewrite !Z.ltb_lt. rewrite Hq. nia.
    + apply eq_true_iff_eq. rewrite !Z.ltb_lt. rewrite Hq. nia.
Qed.

(** C3.  With [lastUpdated] at zero [pricesChanged] answers true whatever
    the candidate; otherwise, for a candidate whose price per gram is an
    integer, it answers whether that price differs from the recorded one by
    more than 10000, a difference of exactly 10000 being no change. *)
Theorem pricesChanged_policy (current : PriceData) (candidate : PriceSet) :
  (pd_lastUpdated current = 0 -> pricesChanged current candidate = Return true) /\
  (pd_lastUpdated current <> 0 ->
   isInteger (pricePerGram candidate) = true ->
   pricesChanged current candidate =
     Return (10000 <? Z.abs (pd_pricePerGram current
                             - integer_value (pricePerGram candidate)))).
Proof.
  unfold pricesChanged. split.
  - intros H. rewrite H. reflexivity.
  - intros H Hint. apply Z.eqb_neq in H. rewrite H.
    rewrite number_ltb_bigint_integer by exact Hint.
    unfold BigInt. rewrite Hint.
    destruct (integer_value (pricePerGram candidate) <? pd_pricePerGram current) eqn:E.
    + apply Z.ltb_lt in E. f_equal. f_equal. lia.
    + apply Z.ltb_ge in E. f_equal. f_equal. lia.
Qed.

(** C8.  Two candidates with the same price per gram get the same
    decision, whatever their other four prices. *)
Theorem pricesChanged_only_reads_perGram
        (current : PriceData) (candidate1 candidate2 : PriceSet) :
  pricePerGram candidate1 = pricePerGram candidate2 ->
  pricesChanged current candidate1 = pricesChanged current candidate2.
Proof.
  intros H. unfold pricesChanged. rewrite H. reflexivity.
Qed.

(** *** Fetching *)

Lemma body_and_price_truthy data :
  ToBoolean (body_and_price data) = true ->
  exists p, data = Obj p /\ ToBoolean p = true.
Proof.
  destruct data as [p|v]; simpl.
  - eauto.
  - destruct (ToBoolean v) eqn:E; simpl; [discriminate|]. congruence.
Qed.

(** The outcome of [fetchGoldPrice], case by case. *)
Lemma fetchGoldPrice_run w st :
  fetchGoldPrice w st =
    (match axios_get w (requests st) with
     | Return data =>
         if ToBoolean (body_and_price data) then
           match data with
           | Obj (VObject None) => Throw TypeError
           | _ => Return data
           end
         else Throw (Error "Invalid response format from GoldAPI")
     | Throw e =>
         match error_response e with
         | Some (status, _) =>
             Throw (Error ("GoldAPI request failed: " ++ show_int status))
         | None =>
             if error_request e then Throw (Error "GoldAPI did not respond")
             else Throw e
         end
     end,
     mkState (S (requests st)) (trace st ++ [EvHttpGet])).
Proof.
  unfold fetchGoldPrice, try_catch, bind, axios_request, ret, throw, lift.
  destruct (axios_get w (requests st)) as [data|e].
  - destruct (ToBoolean (body_and_price data)) eqn:E; [|reflexivity].
    destruct (body_and_price_truthy _ E) as (p & -> & _).
    destruct p as [| | | | |[r|]]; reflexivity.
  - destruct (error_response e) as [[status text]|]; [reflexivity|].
    destruct (error_request e); reflexivity.
Qed.

Lemma fetchGoldPrice_state w st :
  snd (fetchGoldPrice w st) = mkState (S (requests st)) (trace st ++ [EvHttpGet]).
Proof. rewrite fetchGoldPrice_run. reflexivity. Qed.



(** *** Retrying *)

Lemma fetch_and_calculate_run w st :
  fetch_and_calculate StringToNumber w st =
    (attempt StringToNumber w (requests st),
     mkState (S (requests st)) (trace st ++ [EvHttpGet])).
Proof.
  unfold attempt, fetch_and_calculate, bind, lift.
  rewrite !fetchGoldPrice_run. cbn [requests trace app].
  destruct (axios_get w (requests st)) as [data|e].
  - destruct (ToBoolean (body_and_price data)) eqn:E; [|reflexivity].
    destruct (body_and_price_truthy _ E) as (p & -> & _).
    destruct p as [| | | | |[r|]]; reflexivity.
  - destruct (error_response e) as [[status text]|]; [reflexivity|].
    destruct (error_request e); reflexivity.
Qed.

(** [getGoldPrices] unfolds as the source reads. *)
Lemma getGoldPrices_step w retryCount st :
  getGoldPrices StringToNumber w retryCount st =
    match fetch_and_calculate StringToNumber w st with
    | (Return prices, st1) => (Return prices, st1)
    | (Throw error, st1) =>
        if (retryCount <? Config.maxRetries)%nat
        then getGoldPrices StringToNumber w (retryCount + 1) (sleep Config.retryDelayMs st1)
        else (Throw error, st1)
    end.
Proof.
  simp getGoldPrices.
  destruct (fetch_and_calculate StringToNumber w st) as [[prices|error] st1]; simpl.
  - reflexivity.
  - destruct (lt_dec retryCount Config.maxRetries) as [H|H]; simpl.
    + apply Nat.ltb_lt in H. rewrite H. reflexivity.
    + apply Nat.ltb_nlt in H. rewrite H. reflexivity.
Qed.

Lemma record_trace ev st : trace (record ev st) = trace st ++ [ev].
Proof. reflexivity. Qed.

(** One failed attempt followed by the delay. *)
Lemma getGoldPrices_retry w retryCount st e :
  (retryCount < Config.maxRetries)%nat ->
  attempt StringToNumber w (requests st) = Throw e ->
  getGoldPrices StringToNumber w retryCount st =
    getGoldPrices StringToNumber w (retryCount + 1)
      (mkState (S (requests st))
               (trace st ++ [EvHttpGet; EvSleep Config.retryDelayMs])).
Proof.
  intros Hlt He.
  rewrite getGoldPrices_step, fetch_and_calculate_run, He.
  apply Nat.ltb_lt in Hlt. rewrite Hlt.
  unfold sleep, record. simpl. rewrite <- app_assoc. reflexivity.
Qed.

Lemma getGoldPrices_success w retryCount st prices :
  attempt StringToNumber w (requests st) = Return prices ->
  getGoldPrices StringToNumber w retryCount st =
    (Return prices, mkState (S (requests st)) (trace st ++ [EvHttpGet])).
Proof.
  intros He. rewrite getGoldPrices_step, fetch_and_calculate_run, He.
  reflexivity.
Qed.

Lemma getGoldPrices_give_up w retryCount st e :
  (Config.maxRetries <= retryCount)%nat ->
  attempt StringToNumber w (requests st) = Throw e ->
  getGoldPrices StringToNumber w retryCount st =
    (Throw e, mkState (S (requests st)) (trace st ++ [EvHttpGet])).
Proof.
  intros Hge He. rewrite getGoldPrices_step, fetch_and_calculate_run, He.
  apply Nat.ltb_ge in Hge. rewrite Hge. reflexivity.
Qed.

(** C4.  [maxRetries] is 3 and the delay 5000 ms.  When the first two
    attempts fail and the third succeeds, [getGoldPrices] returns the prices
    of the third, after exactly three requests separated by two delays of
    5000 ms; when all four attempts fail it throws the error of the fourth,
    after four requests separated by three such delays. *)
Theorem getGoldPrices_retry_policy (w : World) (st : state) :
  let n := requests st in
  Config.maxRetries = 3%nat /\ Config.retryDelayMs = 5000 /\
  (forall e1 e2 prices,
      attempt StringToNumber w n = Throw e1 ->
      attempt StringToNumber w (n + 1) = Throw e2 ->
      attempt StringToNumber w (n + 2) = Return prices ->
      getGoldPrices StringToNumber w 0 st =
        (Return prices,
         mkState (n + 3)
                 (trace st ++ [EvHttpGet; EvSleep 5000;
                               EvHttpGet; EvSleep 5000;
                               EvHttpGet]))) /\
  (forall e1 e2 e3 e4,
      attempt StringToNumber w n = Throw e1 ->
      attempt StringToNumber w (n + 1) = Throw e2 ->
      attempt StringToNumber w (n + 2) = Throw e3 ->
      attempt StringToNumber w (n + 3) = Throw e4 ->
      getGoldPrices StringToNumber w 0 st =
        (Throw e4,
         mkState (n + 4)
                 (trace st ++ [EvHttpGet; EvSleep 5000;
                               EvHttpGet; EvSleep 5000;
                               EvHttpGet; EvSleep 5000;
                               EvHttpGet]))).
Proof.
  intros n. split; [reflexivity|]. split; [reflexivity|]. split.
  - intros e1 e2 prices H1 H2 H3.
    rewrite (getGoldPrices_retry w 0 st e1); [|unfold Config.maxRetries; lia|exact H1].
    rewrite (getGoldPrices_retry w _ _ e2);
      [|unfold Config.maxRetries; simpl; lia
       |simpl; fold n; rewrite <- H2; f_equal; lia].
    rewrite (getGoldPrices_success w _ _ prices);
      [|simpl; fold n; rewrite <- H3; f_equal; lia].
    simpl. fold n. f_equal. f_equal; [lia|].
    rewrite <- !app_assoc. reflexivity.
  - intros e1 e2 e3 e4 H1 H2 H3 H4.
    rewrite (getGoldPrices_retry w 0 st e1); [|unfold Config.maxRetries; lia|exact H1].
    rewrite (getGoldPrices_retry w _ _ e2);
      [|unfold Config.maxRetries; simpl; lia
       |simpl; fold n; rewrite <- H2; f_equal; lia].
    rewrite (getGoldPrices_retry w _ _ e3);
      [|unfold Config.maxRetries; simpl; lia
       |simpl; fold n; rewrite <- H3; f_equal; lia].
    rewrite (getGoldPrices_give_up w _ _ e4);
      [|unfold Config.maxRetries; simpl; lia
       |simpl; fold n; rewrite <- H4; f_equal; lia].
    simpl. fold n. f_equal. f_equal; [lia|].
    rewrite <- !app_assoc. reflexivity.
Qed.

(** *** The update cycle *)

(** The cycle, step by step: the [catch] block of [updatePrices] throws
    again whatever a step threw. *)
Lemma updatePrices_run w st :
  updatePrices StringToNumber w st =
    match getGoldPrices StringToNumber w 0 st with
    | (Throw e, st1) => (Throw e, st1)
    | (Return newPrices, st1) =>
        match getCurrentContractPrices w st1 with
        | (Throw e, st2) => (Throw e, st2)
        | (Return currentPrices, st2) =>
            match pricesChanged currentPrices newPrices with
            | Throw e => (Throw e, st2)
            | Return false => (Return skipped, st2)
            | Return true =>
                match updateContractPrices w newPrices st2 with
                | (Throw e, st3) => (Throw e, st3)
                | (Return receipt, st3) =>
                    (Return (submitted receipt newPrices), st3)
                end
            end
        end
    end.
Proof.
  unfold updatePrices, try_catch, bind, lift, throw, ret.
  destruct (getGoldPrices StringToNumber w 0 st) as [[newPrices|e] st1];
    [|reflexivity].
  destruct (getCurrentContractPrices w st1) as [[currentPrices|e] st2];
    [|reflexivity].
  destruct (pricesChanged currentPrices newPrices) as [[|]|e];
    [|reflexivity|reflexivity].
  simpl.
  destruct (updateContractPrices w newPrices st2) as [[receipt|e] st3];
    reflexivity.
Qed.

(** C5, as the code has it.  [updatePrices] does not turn failures into a
    result: an error thrown by the fetch (once the retries are used up), by
    the ledger read or by the submission is thrown again to the caller; and
    when [updatePrices] returns, every step of the cycle has returned, the
    result being the skip or the submitted transaction. *)
Theorem updatePrices_rethrows (w : World) (st : state) :
  (forall e st1,
      getGoldPrices StringToNumber w 0 st = (Throw e, st1) ->
      updatePrices StringToNumber w st = (Throw e, st1)) /\
  (forall newPrices st1 e st2,
      getGoldPrices StringToNumber w 0 st = (Return newPrices, st1) ->
      getCurrentContractPrices w st1 = (Throw e, st2) ->
      updatePrices StringToNumber w st = (Throw e, st2)) /\
  (forall newPrices st1 currentPrices st2 e st3,
      getGoldPrices StringToNumber w 0 st = (Return newPrices, st1) ->
      getCurrentContractPrices w st1 = (Return currentPrices, st2) ->
      pricesChanged currentPrices newPrices = Return true ->
      updateContractPrices w newPrices st2 = (Throw e, st3) ->
      updatePrices StringToNumber w st = (Throw e, st3)) /\
  (forall result st',
      updatePrices StringToNumber w st = (Return result, st') ->
      exists newPrices st1 currentPrices st2,
        getGoldPrices StringToNumber w 0 st = (Return newPrices, st1) /\
        getCurrentContractPrices w st1 = (Return currentPrices, st2) /\
        ((pricesChanged currentPrices newPrices = Return false /\
          result = skipped /\ st' = st2) \/
         (pricesChanged currentPrices newPrices = Return true /\
          exists receipt,
            updateContractPrices w newPrices st2 = (Return receipt, st') /\
            result = submitted receipt newPrices))).
Proof.
  repeat split.
  - intros e st1 H. rewrite updatePrices_run, H. reflexivity.
  - intros newPrices st1 e st2 H1 H2.
    rewrite updatePrices_run, H1, H2. reflexivity.
  - intros newPrices st1 currentPrices st2 e st3 H1 H2 H3 H4.
    rewrite updatePrices_run, H1, H2, H3, H4. reflexivity.
  - intros result st'. rewrite updatePrices_run.
    destruct (getGoldPrices StringToNumber w 0 st) as [[newPrices|e] st1] eqn:Hg;
      [|discriminate].
    destruct (getCurrentContractPrices w st1) as [[currentPrices|e] st2] eqn:Hr;
      [|discriminate].
    destruct (pricesChanged currentPrices newPrices) as [[|]|e] eqn:Hc;
      [| |discriminate].
    + destruct (updateContractPrices w newPrices st2) as [[receipt|e] st3] eqn:Hs;
        [|discriminate].
      intros H. injection H as <- <-.
      exists newPrices, st1, currentPrices, st2.
      split; [reflexivity|]. split; [exact Hr|].
      right. split; [exact Hc|].
      exists receipt. split; [exact Hs|reflexivity].
    + intros H. injection H as <- <-.
      exists newPrices, st1, currentPrices, st2.
      split; [reflexivity|]. split; [exact Hr|].
      left. split; [exact Hc|]. split; reflexivity.
Qed.

(** *** Price calculation *)

Import Binary64 Binary64Facts.

Lemma GRAMS_PER_OUNCE_eq :
  GRAMS_PER_OUNCE = S754_finite false 8754856938119889 (-48).
Proof. vm_compute. reflexivity. Qed.

Lemma DECIMALS_eq : DECIMALS = S754_finite false 6710886400000000 (-26).
Proof. vm_compute. reflexivity. Qed.

Lemma purity22_eq :
  div (of_Z 22) (of_Z 24) = S754_finite false 8256599316845909 (-53).
Proof. vm_compute. reflexivity. Qed.

Lemma purity18_eq :
  div (of_Z 18) (of_Z 24) = S754_finite false 6755399441055744 (-53).
Proof. vm_compute. reflexivity. Qed.

Lemma normal_GRAMS_PER_OUNCE : normal GRAMS_PER_OUNCE.
Proof. rewrite GRAMS_PER_OUNCE_eq. vm_compute. discriminate. Qed.

Lemma normal_DECIMALS : normal DECIMALS.
Proof. rewrite DECIMALS_eq. vm_compute. discriminate. Qed.

Lemma normal_purity22 : normal (div (of_Z 22) (of_Z 24)).
Proof. rewrite purity22_eq. vm_compute. discriminate. Qed.

Lemma normal_purity18 : normal (div (of_Z 18) (of_Z 24)).
Proof. rewrite purity18_eq. vm_compute. discriminate. Qed.

Lemma positive_nonneg p : ltb pos_zero p = true -> nonneg p.
Proof.
  destruct p as [s|s| |s m e]; simpl; try discriminate;
    destruct s; try discriminate; reflexivity.
Qed.

Lemma good_natural_or_Infinity x : good x -> natural_or_Infinity (floor x).
Proof.
  intros G. split.
  - apply (le_zero_l (floor x)). apply floor_good. exact G.
  - apply floor_integer. exact G.
Qed.

Lemma calculatePrices_Obj price p :
  ToNumber StringToNumber price = Return p ->
  calculatePrices StringToNumber (Obj price) =
    let g := div p GRAMS_PER_OUNCE in
    Return {|
      pricePerGram := floor (mul g DECIMALS);
      pricePerOunce := floor (mul p DECIMALS);
      pricePerKarat24 := floor (mul g DECIMALS);
      pricePerKarat22 := floor (mul (mul g (div (of_Z 22) (of_Z 24))) DECIMALS);
      pricePerKarat18 := floor (mul (mul g (div (of_Z 18) (of_Z 24))) DECIMALS)
    |}.
Proof.
  intros H. unfold calculatePrices. cbn [get_price]. rewrite H. reflexivity.
Qed.

(** C7.  For a positive spot price the 24 karat price equals the price
    per gram, the 22 karat price is at most the 24 karat price, and the
    18 karat price is at most the 22 karat price. *)
Theorem karat_prices_ordered (price : value) (p : number) :
  ToNumber StringToNumber price = Return p ->
  ltb pos_zero p = true ->
  exists ps,
    calculatePrices StringToNumber (Obj price) = Return ps /\
    eqb (pricePerKarat24 ps) (pricePerGram ps) = true /\
    leb (pricePerKarat22 ps) (pricePerKarat24 ps) = true /\
    leb (pricePerKarat18 ps) (pricePerKarat22 ps) = true.
Proof.
  intros Hp Hpos. rewrite (calculatePrices_Obj _ _ Hp). cbv zeta.
  eexists. split; [reflexivity|]. cbn [pricePerGram pricePerKarat24
                                       pricePerKarat22 pricePerKarat18].
  pose proof (div_good p _ (positive_nonneg p Hpos) normal_GRAMS_PER_OUNCE) as Gg.
  set (g := div p GRAMS_PER_OUNCE) in *.
  pose proof (mul_good g _ (good_nonneg g Gg) normal_DECIMALS) as G24.
  pose proof (mul_good g _ (good_nonneg g Gg) normal_purity22) as Gx22.
  pose proof (mul_good g _ (good_nonneg g Gg) normal_purity18) as Gx18.
  pose proof (mul_good _ _ (good_nonneg _ Gx22) normal_DECIMALS) as G22.
  pose proof (mul_good _ _ (good_nonneg _ Gx18) normal_DECIMALS) as G18.
  split; [|split].
  - apply le_refl. apply floor_good. exact G24.
  - apply floor_mono; [exact G22|exact G24|].
    apply mul_mono_l; [exact Gx22|exact Gg|exact normal_DECIMALS|].
    apply mul_le_self; [exact Gg|exact normal_purity22|].
    rewrite purity22_eq. vm_compute. discriminate.
  - apply floor_mono; [exact G18|exact G22|].
    apply mul_mono_l; [exact Gx18|exact Gx22|exact normal_DECIMALS|].
    apply mul_mono_r;
      [exact (good_nonneg g Gg)|exact normal_purity18|exact normal_purity22|].
    rewrite purity18_eq, purity22_eq. vm_compute. discriminate.
Qed.

(** C2, as the code has it.  For a positive spot price [p] the five
    prices are computed in binary64 arithmetic from [p] and from the price
    per gram [p / 31.1035] before it is floored:
    [perGram = floor(p / 31.1035 * 10^8)], [perOunce = floor(p * 10^8)],
    [perKarat24 = perGram], [perKarat22 = floor(p / 31.1035 * (22/24) * 10^8)],
    [perKarat18 = floor(p / 31.1035 * (18/24) * 10^8)]; each is a
    non-negative integer, or [Infinity] when the product overflows.  For
    [p = 2037.50] the price per ounce is 203750000000 and the price per gram
    is 6550709727, the floor of 203750000000 / 31.1035. *)
Theorem calculatePrices_formulas :
  (forall (price : value) (p : number),
      ToNumber StringToNumber price = Return p ->
      ltb pos_zero p = true ->
      exists ps,
        calculatePrices StringToNumber (Obj price) = Return ps /\
        pricePerGram ps = floor (mul (div p GRAMS_PER_OUNCE) DECIMALS) /\
        pricePerOunce ps = floor (mul p DECIMALS) /\
        pricePerKarat24 ps = pricePerGram ps /\
        pricePerKarat22 ps =
          floor (mul (mul (div p GRAMS_PER_OUNCE) (div (of_Z 22) (of_Z 24)))
                     DECIMALS) /\
        pricePerKarat18 ps =
          floor (mul (mul (div p GRAMS_PER_OUNCE) (div (of_Z 18) (of_Z 24)))
                     DECIMALS) /\
        natural_or_Infinity (pricePerGram ps) /\
        natural_or_Infinity (pricePerOunce ps) /\
        natural_or_Infinity (pricePerKarat24 ps) /\
        natural_or_Infinity (pricePerKarat22 ps) /\
        natural_or_Infinity (pricePerKarat18 ps)) /\
  (exists ps,
      calculatePrices StringToNumber (Obj (VNumber (decimal 203750 2))) = Return ps /\
      pricePerOunce ps = of_Z 203750000000 /\
      pricePerGram ps = of_Z 6550709727 /\
      6550709727 = 203750000000 * 10000 / 311035).
Proof.
  split.
  - intros price p Hp Hpos. rewrite (calculatePrices_Obj _ _ Hp). cbv zeta.
    eexists. split; [reflexivity|].
    cbn [pricePerGram pricePerOunce pricePerKarat24 pricePerKarat22 pricePerKarat18].
    pose proof (positive_nonneg p Hpos) as Np.
    pose proof (div_good p _ Np normal_GRAMS_PER_OUNCE) as Gg.
    set (g := div p GRAMS_PER_OUNCE) in *.
    pose proof (mul_good g _ (good_nonneg g Gg) normal_DECIMALS) as G24.
    pose proof (mul_good p _ Np normal_DECIMALS) as Goz.
    pose proof (mul_good g _ (good_nonneg g Gg) normal_purity22) as Gx22.
    pose proof (mul_good g _ (good_nonneg g Gg) normal_purity18) as Gx18.
    pose proof (mul_good _ _ (good_nonneg _ Gx22) normal_DECIMALS) as G22.
    pose proof (mul_good _ _ (good_nonneg _ Gx18) normal_DECIMALS) as G18.
    repeat (split; [reflexivity|]).
    repeat split; try (apply good_natural_or_Infinity; assumption);
      try (apply (proj1 (good_natural_or_Infinity _ ltac:(eassumption))));
      try (apply (proj2 (good_natural_or_Infinity _ ltac:(eassumption)))).
  - eexists. split; [reflexivity|]. vm_compute. repeat split.
Qed.

(** C1, as the code has it.  [calculatePrices] does not validate its
    input: for every spot price that is zero or negative it returns a
    PriceSet; for a zero it returns five zeros, and for a negative spot price
    five prices that are negative or zero. *)
Theorem calculatePrices_accepts_non_positive (price : value) (p : number) :
  ToNumber StringToNumber price = Return p ->
  leb p pos_zero = true ->
  exists ps,
    calculatePrices StringToNumber (Obj price) = Return ps /\
    (is_zero p = true -> ps = mkPriceSet p p p p p) /\
    (ltb p pos_zero = true ->
     leb (pricePerGram ps) pos_zero = true /\
     leb (pricePerOunce ps) pos_zero = true /\
     leb (pricePerKarat24 ps) pos_zero = true /\
     leb (pricePerKarat22 ps) pos_zero = true /\
     leb (pricePerKarat18 ps) pos_zero = true).
Proof.
  intros Hc Hp. rewrite (calculatePrices_Obj _ _ Hc). cbv zeta.
  eexists. split; [reflexivity|]. split.
  - intros Hz. destruct p as [s|s| |s m e]; try discriminate.
    destruct s; vm_compute; reflexivity.
  - intros Hneg.
    cbn [pricePerGram pricePerOunce pricePerKarat24 pricePerKarat22 pricePerKarat18].
    pose proof (negative_nonpos p Hneg) as Np.
    pose proof (div_nonpos p _ Np normal_GRAMS_PER_OUNCE) as Ng.
    repeat split; apply leb_nonpos, floor_nonpos;
      repeat first [ exact Np | exact Ng
                   | apply mul_nonpos
                   | exact normal_DECIMALS
                   | exact normal_purity22 | exact normal_purity18 ].
Qed.

End ServiceProperties.

(* ===================================================================== *)
(** * The statements at sample inputs *)
(* ===================================================================== *)

Module SampleRuns.
Import Binary64 Samples.

(** At a spot price of zero [calculatePrices] returns five zeros; no
    error is raised. *)
Lemma calculatePrices_zero_returns :
  calculatePrices no_numeric_strings (Obj (VNumber (of_Z 0))) =
    Return (mkPriceSet pos_zero pos_zero pos_zero pos_zero pos_zero).
Proof. vm_compute. reflexivity. Qed.

Lemma calculatePrices_accepts_non_positive_witness :
  leb (of_Z (-1)) pos_zero = true /\
  exists ps,
    calculatePrices no_numeric_strings (Obj (VNumber (of_Z (-1)))) = Return ps /\
    leb (pricePerGram ps) pos_zero = true.
Proof.
  split; [reflexivity|].
  destruct (calculatePrices_accepts_non_positive no_numeric_strings
              (VNumber (of_Z (-1))) (of_Z (-1)) eq_refl eq_refl)
    as (ps & H & _ & Hneg).
  exists ps. split; [exact H|]. exact (proj1 (Hneg eq_refl)).
Defined.

(** At a spot price of 2037.51 the 24 karat price is 6550741877 and the
    22 karat price 6004846721, one more than the floor of
    6550741877 * 22 / 24. *)
Lemma calculatePrices_karat22_not_derived :
  exists ps,
    calculatePrices no_numeric_strings (Obj (VNumber (decimal 203751 2))) = Return ps /\
    pricePerKarat24 ps = of_Z 6550741877 /\
    pricePerKarat22 ps = of_Z 6004846721 /\
    6550741877 * 22 / 24 = 6004846720 /\
    floor (div (mul (pricePerKarat24 ps) (of_Z 22)) (of_Z 24)) = of_Z 6004846720.
Proof. eexists. split; [reflexivity|]. vm_compute. repeat split. Qed.

Lemma calculatePrices_formulas_witness :
  ltb pos_zero (decimal 203750 2) = true /\
  exists ps,
    calculatePrices no_numeric_strings (Obj (VNumber (decimal 203750 2))) = Return ps /\
    pricePerKarat24 ps = pricePerGram ps /\
    natural_or_Infinity (pricePerKarat22 ps).
Proof.
  split; [reflexivity|].
  destruct (proj1 (calculatePrices_formulas no_numeric_strings)
              (VNumber (decimal 203750 2)) (decimal 203750 2) eq_refl eq_refl)
    as (ps & H & _ & _ & H24 & _ & _ & _ & _ & _ & H22 & _).
  exists ps. split; [exact H|]. split; [exact H24|exact H22].
Defined.

Lemma pricesChanged_policy_witness :
  pd_lastUpdated recorded <> 0 /\
  isInteger (pricePerGram (candidate_at 6550010000 1)) = true /\
  pricesChanged recorded (candidate_at 6550010000 1) = Return false /\
  pricesChanged recorded (candidate_at 6550010001 1) = Return true.
Proof.
  split; [discriminate|]. split; [reflexivity|]. split.
  - exact (proj2 (pricesChanged_policy recorded (candidate_at 6550010000 1))
             ltac:(discriminate) eq_refl).
  - exact (proj2 (pricesChanged_policy recorded (candidate_at 6550010001 1))
             ltac:(discriminate) eq_refl).
Defined.

Lemma pricesChanged_only_reads_perGram_witness :
  pricePerGram (candidate_at 6560100000 1) = pricePerGram (candidate_at 6560100000 2) /\
  pricesChanged recorded (candidate_at 6560100000 1) =
    pricesChanged recorded (candidate_at 6560100000 2).
Proof.
  split; [reflexivity|].
  apply (pricesChanged_only_reads_perGram recorded
           (candidate_at 6560100000 1) (candidate_at 6560100000 2)).
  reflexivity.
Defined.

Lemma getGoldPrices_retry_policy_witness :
  attempt no_numeric_strings feed_third_time 0 = Throw (Error "GoldAPI did not respond") /\
  attempt no_numeric_strings feed_third_time 1 = Throw (Error "GoldAPI did not respond") /\
  getGoldPrices no_numeric_strings feed_third_time 0 initial_state =
    (Return (mkPriceSet (of_Z 6550709727) (of_Z 203750000000) (of_Z 6550709727)
                        (of_Z 6004817249) (of_Z 4913032295)),
     mkState 3 [EvHttpGet; EvSleep 5000; EvHttpGet; EvSleep 5000; EvHttpGet]).
Proof.
  split; [reflexivity|]. split; [reflexivity|].
  exact (proj1 (proj2 (proj2 (getGoldPrices_retry_policy no_numeric_strings
                                feed_third_time initial_state)))
           _ _ _ eq_refl eq_refl eq_refl).
Defined.

(** With the quote source down the update cycle throws; no result is
    returned. *)
Lemma updatePrices_throws_when_feed_is_down :
  fst (updatePrices no_numeric_strings feed_down initial_state) =
    Throw (Error "GoldAPI did not respond").
Proof. vm_compute. reflexivity. Qed.

Lemma updatePrices_rethrows_witness :
  exists st1,
    getGoldPrices no_numeric_strings feed_down 0 initial_state =
      (Throw (Error "GoldAPI did not respond"), st1) /\
    updatePrices no_numeric_strings feed_down initial_state =
      (Throw (Error "GoldAPI did not respond"), st1).
Proof.
  eexists. split; [vm_compute; reflexivity|].
  apply (proj1 (updatePrices_rethrows no_numeric_strings feed_down initial_state)).
  vm_compute. reflexivity.
Defined.



Lemma karat_prices_ordered_witness :
  ltb pos_zero (decimal 203750 2) = true /\
  exists ps,
    calculatePrices no_numeric_strings (Obj (VNumber (decimal 203750 2))) = Return ps /\
    eqb (pricePerKarat24 ps) (pricePerGram ps) = true /\
    leb (pricePerKarat22 ps) (pricePerKarat24 ps) = true /\
    leb (pricePerKarat18 ps) (pricePerKarat22 ps) = true.
Proof.
  split; [reflexivity|].
  apply (karat_prices_ordered no_numeric_strings (VNumber (decimal 203750 2))
           (decimal 203750 2)); reflexivity.
Defined.

Lemma updatePrices_reverts_or_stores_witness :
  let st := GoldOracle.deploy owner_call in
  GoldOracle.msg_sender owner_call = GoldOracle.owner st /\
  GoldOracle.transact owner_call
    (GoldOracle.CallUpdatePrices 6550709727 203750000000 6550709727
                                 6004817249 4913032295) st =
    GoldOracle.mkState 6550709727 203750000000 6550709727 6004817249
                       4913032295 1700000000 7.
Proof.
  split; [reflexivity|].
  apply (proj2 (proj2 (GoldOracleProofs.updatePrices_reverts_or_stores
                         owner_call 6550709727 203750000000 6550709727
                         6004817249 4913032295 (GoldOracle.deploy owner_call))));
    reflexivity.
Defined.

Lemma invariant_reachable_witness :
  let st := GoldOracle.transact owner_call
              (GoldOracle.CallUpdatePrices 6550709727 203750000000 6550709727
                                           6004817249 4913032295)
              (GoldOracle.deploy owner_call) in
  GoldOracle.reachable st /\ GoldOracle.invariant st.
Proof.
  intros st.
  assert (R : GoldOracle.reachable st).
  { apply GoldOracle.reach_call; [apply GoldOracle.reach_deploy|reflexivity]. }
  split; [exact R|].
  exact (proj2 (proj2 GoldOracleProofs.invariant_reachable) st R).
Defined.

(** The worked values of the change decision and of staleness. *)

Example pricesChanged_small_move :
  pricesChanged recorded (candidate_at 6550000500 1) = Return false.
Proof. reflexivity. Qed.

Example pricesChanged_large_move :
  pricesChanged recorded (candidate_at 6560100000 1) = Return true.
Proof. reflexivity. Qed.

Example pricesChanged_never_updated :
  pricesChanged (mkPriceData 0 0 0 0 0 0) (candidate_at 1 1) = Return true.
Proof. reflexivity. Qed.

Example pricesChanged_not_a_number :
  pricesChanged recorded (mkPriceSet NaN NaN NaN NaN NaN) = Throw (RangeError NaN).
Proof. reflexivity. Qed.

Example isStale_after_an_hour :
  GoldOracle.isStale (GoldOracle.mkEnv 7 1700003601)
    (GoldOracle.mkState 1 1 1 1 1 1700000000 7) =
    GoldOracle.Ok true (GoldOracle.mkState 1 1 1 1 1 1700000000 7) [].
Proof. reflexivity. Qed.

Example isStale_fresh :
  GoldOracle.isStale (GoldOracle.mkEnv 7 1700000100)
    (GoldOracle.mkState 1 1 1 1 1 1700000000 7) =
    GoldOracle.Ok false (GoldOracle.mkState 1 1 1 1 1 1700000000 7) [].
Proof. reflexivity. Qed.

End SampleRuns.

(* ===================================================================== *)
(** * Rounding of quotients *)
(* ===================================================================== *)

Import Binary64 Binary64Facts.
Import Binary64Frac PriceFields Traces Server.

Module Binary64FracFacts.

Lemma frac_loc_represents A B :
  0 <= A -> 0 < B ->
  representsD (shr_record_of_loc (A / B) (frac_loc A B)) A B.
Proof.
  intros HA HB. unfold representsD, frac_loc.
  pose proof (Z.div_mod A B ltac:(lia)) as Hd.
  pose proof (Z.mod_pos_bound A B HB) as Hr.
  set (q := A / B) in *. set (r := A mod B) in *.
  exists r. rewrite shr_record_of_loc_m.
  split; [lia|]. split; [exact Hr|].
  unfold new_location. destruct (Z.even B) eqn:Ev.
  - unfold new_location_even. destruct (r =? 0) eqn:E0.
    + apply Z.eqb_eq in E0. exact E0.
    + apply Z.eqb_neq in E0.
      destruct (Z.compare_spec (2 * r) B);
        unfold loc_relD; cbn [shr_record_of_loc shr_r shr_s]; lia.
  - unfold new_location_odd. destruct (r =? 0) eqn:E0.
    + apply Z.eqb_eq in E0. exact E0.
    + apply Z.eqb_neq in E0.
      assert (Hodd : 2 * r <> B).
      { intros Heq. rewrite <- Heq, Z.even_mul in Ev. discriminate. }
      destruct (Z.compare_spec (2 * r + 1) B);
        unfold loc_relD; cbn [shr_record_of_loc shr_r shr_s]; lia.
Qed.

Lemma shr_1_representsD mrs A D :
  0 < D -> 0 <= shr_m mrs ->
  representsD mrs A D -> representsD (shr_1 mrs) A (2 * D).
Proof.
  intros HD Hm (rem & Hrem & Hb & Hl).
  destruct mrs as [q r s]. cbn [shr_m shr_r shr_s] in *.
  unfold representsD, loc_relD in *.
  destruct q as [|[p|p|]|p]; cbn [shr_1 shr_m shr_r shr_s]; try lia.
  - exists rem. split; [lia|]. split; [lia|].
    destruct r, s; cbn [orb] in *; lia.
  - exists (D + rem). rewrite Pos2Z.inj_xI in Hrem.
    split; [lia|]. split; [lia|].
    destruct r, s; cbn [orb] in *; lia.
  - exists rem. rewrite Pos2Z.inj_xO in Hrem.
    split; [lia|]. split; [lia|].
    destruct r, s; cbn [orb] in *; lia.
  - exists (D + rem).
    split; [lia|]. split; [lia|].
    destruct r, s; cbn [orb] in *; lia.
Qed.

Lemma iter_shr_1_D n mrs A D :
  0 < D -> 0 <= shr_m mrs -> representsD mrs A D ->
  representsD (Nat.iter n shr_1 mrs) A (D * 2 ^ Z.of_nat n).
Proof.
  intros HD Hm Hr. induction n as [|n IH].
  - simpl. rewrite Z.mul_1_r. exact Hr.
  - rewrite Nat2Z.inj_succ, Z.pow_succ_r by lia. simpl Nat.iter.
    replace (D * (2 * 2 ^ Z.of_nat n)) with (2 * (D * 2 ^ Z.of_nat n)) by lia.
    apply shr_1_representsD.
    + assert (0 < 2 ^ Z.of_nat n) by (apply pow2_pos; lia). nia.
    + apply (iter_shr_1_m n mrs Hm).
    + exact IH.
Qed.

Lemma shr_representsD mrs e n A D :
  0 < D -> 0 <= shr_m mrs -> 0 <= n -> representsD mrs A D ->
  representsD (fst (shr mrs e n)) A (D * 2 ^ n).
Proof.
  intros HD Hm Hn Hr. destruct n as [|p|p]; try lia.
  - simpl. rewrite Z.mul_1_r. exact Hr.
  - cbn [shr fst]. rewrite iter_pos_nat.
    pose proof (iter_shr_1_D (Pos.to_nat p) mrs A D HD Hm Hr) as H.
    rewrite positive_nat_Z in H. exact H.
Qed.

Lemma rneD_of_record mrs A D :
  0 < D -> representsD mrs A D ->
  round_nearest_even (shr_m mrs) (loc_of_shr_record mrs) = rneD A D.
Proof.
  intros HD (rem & Hm & Hb & Hl).
  assert (Hq : A / D = shr_m mrs).
  { symmetry. apply Z.div_unique with rem; lia. }
  assert (Hr : A mod D = rem).
  { symmetry. apply Z.mod_unique with (shr_m mrs); lia. }
  unfold rneD. rewrite Hq, Hr.
  destruct mrs as [q r s]. cbn [shr_m shr_r shr_s] in *.
  unfold loc_relD in Hl.
  destruct r, s; cbn [loc_of_shr_record round_nearest_even].
  - assert (C : (2 * rem ?= D) = Gt) by (apply Z.compare_gt_iff; lia).
    rewrite C. reflexivity.
  - assert (C : (2 * rem ?= D) = Eq) by (apply Z.compare_eq_iff; lia).
    rewrite C. reflexivity.
  - assert (C : (2 * rem ?= D) = Lt) by (apply Z.compare_lt_iff; lia).
    rewrite C. reflexivity.
  - assert (C : (2 * rem ?= D) = Lt) by (apply Z.compare_lt_iff; lia).
    rewrite C. reflexivity.
Qed.

Lemma rneD_mono a b D : 0 < D -> a <= b -> rneD a D <= rneD b D.
Proof.
  intros HP Hab. unfold rneD.
  pose proof (Z.div_mod a D ltac:(lia)) as Ha.
  pose proof (Z.div_mod b D ltac:(lia)) as Hb.
  pose proof (Z.mod_pos_bound a D HP) as Hra.
  pose proof (Z.mod_pos_bound b D HP) as Hrb.
  set (qa := a / D) in *. set (ra := a mod D) in *.
  set (qb := b / D) in *. set (rb := b mod D) in *.
  assert (Hq : qa <= qb) by nia.
  destruct (Z.eq_dec qa qb) as [Heq|Hne].
  - rewrite <- Heq in *. assert (ra <= rb) by nia.
    destruct (Z.compare_spec (2 * ra) D); destruct (Z.compare_spec (2 * rb) D);
      destruct (Z.even qa); lia.
  - assert (qa + 1 <= qb) by lia.
    destruct (Z.compare_spec (2 * ra) D); destruct (Z.compare_spec (2 * rb) D);
      destruct (Z.even qa); destruct (Z.even qb); lia.
Qed.

Lemma rneD_scale A D c : 0 < D -> 0 < c -> rneD (A * c) (D * c) = rneD A D.
Proof.
  intros HD Hc. unfold rneD.
  rewrite Z.div_mul_cancel_r by lia.
  rewrite Z.mul_mod_distr_r by lia.
  replace (2 * (A mod D * c)) with (2 * (A mod D) * c) by lia.
  rewrite <- Zmult_compare_compat_r by lia. reflexivity.
Qed.

Lemma rneD_cross A1 D1 A2 D2 :
  0 < D1 -> 0 < D2 -> A1 * D2 <= A2 * D1 -> rneD A1 D1 <= rneD A2 D2.
Proof.
  intros H1 H2 H.
  rewrite <- (rneD_scale A1 D1 D2) by assumption.
  rewrite <- (rneD_scale A2 D2 D1) by assumption.
  rewrite (Z.mul_comm D2 D1). apply rneD_mono; [nia|exact H].
Qed.

(** [binary_round_aux] on the integer part and the location of a fraction. *)
Lemma bra_norm_frac A B e :
  0 <= A -> 0 < B -> e <= fexp (Zdigits2 (A / B) + e) ->
  let E := fexp (Zdigits2 (A / B) + e) in
  let N := rneD A (B * 2 ^ (E - e)) in
  bra false (A / B) e (frac_loc A B) = norm N E /\
  0 <= N <= 2 ^ 53 /\ (emin < E -> 2 ^ 52 <= N).
Proof.
  intros HA HB Hpre E N.
  assert (Hmz : 0 <= A / B) by (apply Z.div_pos; lia).
  assert (HE : emin <= E) by (unfold E, fexp, emin; lia).
  set (n := E - e) in *. assert (Hn0 : 0 <= n) by (unfold n; lia).
  assert (Hpn : 0 < 2 ^ n) by (apply pow2_pos; lia).
  destruct (bra_norm (A / B) e (frac_loc A B) Hmz Hpre)
    as (N' & _ & Hc & _ & HB' & HL').
  fold E in Hc, HL'. fold n in Hc.
  assert (HN : round_nearest_even
                 (shr_m (fst (shr (shr_record_of_loc (A / B) (frac_loc A B)) e n)))
                 (loc_of_shr_record
                    (fst (shr (shr_record_of_loc (A / B) (frac_loc A B)) e n))) = N).
  { apply rneD_of_record; [nia|].
    apply shr_representsD; [exact HB| |exact Hn0|].
    - rewrite shr_record_of_loc_m. exact Hmz.
    - apply frac_loc_represents; assumption. }
  assert (Hq : shr_m (fst (shr (shr_record_of_loc (A / B) (frac_loc A B)) e n))
               = A / B / 2 ^ n).
  { pose proof (shr_m_spec (shr_record_of_loc (A / B) (frac_loc A B)) e n) as Hs.
    rewrite shr_record_of_loc_m in Hs. apply Hs; assumption. }
  assert (Hcases : N = A / B / 2 ^ n \/ N = A / B / 2 ^ n + 1).
  { rewrite <- HN, <- Hq. apply round_nearest_even_cases. }
  assert (Hq0 : 0 <= A / B / 2 ^ n) by (apply Z.div_pos; lia).
  assert (Hbounds : A / B / 2 ^ n < 2 ^ 53 /\ (emin < E -> 2 ^ 52 <= A / B / 2 ^ n)).
  { destruct (A / B) as [|p|p] eqn:Emz; try lia.
    - rewrite Z.div_0_l by lia. split; [lia|].
      intros HEm. exfalso. unfold E, fexp, emin in *. cbn [Zdigits2] in *. lia.
    - pose proof (digits_bounds p) as [Lb Ub]. split.
      + apply Z.div_lt_upper_bound; [lia|].
        assert (Zpos (digits2_pos p) <= n + 53)
          by (unfold n, E, fexp; cbn [Zdigits2]; lia).
        assert (2 ^ Zpos (digits2_pos p) <= 2 ^ (n + 53)) by (apply pow2_le; lia).
        rewrite Z.pow_add_r in * by lia. lia.
      + intros HEm. apply Z.div_le_lower_bound; [lia|].
        assert (Hd : Zpos (digits2_pos p) - 1 = n + 52)
          by (unfold n, E, fexp, emin in *; cbn [Zdigits2] in *; lia).
        rewrite Hd in Lb. rewrite Z.pow_add_r in Lb by lia. lia. }
  destruct Hbounds as [U L].
  split; [|split; [lia|intros HEm; specialize (L HEm); lia]].
  unfold bra, binary_round_aux. unfold shr_fexp at 1. rewrite fexp_eq.
  fold E. fold n.
  pose proof (shr_m_spec (shr_record_of_loc (A / B) (frac_loc A B)) e n) as Hs.
  rewrite shr_record_of_loc_m in Hs. specialize (Hs Hmz Hn0).
  destruct (shr (shr_record_of_loc (A / B) (frac_loc A B)) e n) as [mrs' e'].
  cbn [fst snd] in *. destruct Hs as [_ He'].
  assert (He : e' = E) by (unfold n in He'; lia). rewrite He. rewrite HN.
  apply bra_finish; [lia|exact HE].
Qed.

Lemma vleQ_shift A1 B1 e1 A2 B2 e2 c :
  c <= e1 -> c <= e2 ->
  (vleQ A1 B1 e1 A2 B2 e2 <-> A1 * B2 * 2 ^ (e1 - c) <= A2 * B1 * 2 ^ (e2 - c)).
Proof.
  intros H1 H2. unfold vleQ.
  exact (vle_shift (A1 * B2) e1 (A2 * B1) e2 c H1 H2).
Qed.

(** The exponent chosen for the smaller value is the smaller one. *)
Lemma vleQ_fexp A1 B1 e1 A2 B2 e2 :
  0 <= A1 -> 0 < B1 -> 0 <= A2 -> 0 < B2 ->
  e1 <= fexp (Zdigits2 (A1 / B1) + e1) ->
  e2 <= fexp (Zdigits2 (A2 / B2) + e2) ->
  vleQ A1 B1 e1 A2 B2 e2 ->
  fexp (Zdigits2 (A1 / B1) + e1) <= fexp (Zdigits2 (A2 / B2) + e2).
Proof.
  intros HA1 HB1 HA2 HB2 P1 P2 Hv. unfold vleQ in Hv.
  set (mn := Z.min e1 e2) in *.
  assert (X1 : 0 < 2 ^ (e1 - mn)) by (apply pow2_pos; unfold mn; lia).
  assert (X2 : 0 < 2 ^ (e2 - mn)) by (apply pow2_pos; unfold mn; lia).
  pose proof (Z.div_mod A1 B1 ltac:(lia)) as D1.
  pose proof (Z.mod_pos_bound A1 B1 HB1) as R1.
  pose proof (Z.div_mod A2 B2 ltac:(lia)) as D2.
  pose proof (Z.mod_pos_bound A2 B2 HB2) as R2.
  assert (Q1 : 0 <= A1 / B1) by (apply Z.div_pos; lia).
  assert (Q2 : 0 <= A2 / B2) by (apply Z.div_pos; lia).
  destruct (A1 / B1) as [|p1|p1] eqn:E1; try lia.
  - cbn [Zdigits2] in *. unfold fexp in *. lia.
  - assert (Hlt : Zpos p1 * 2 ^ (e1 - mn) < (A2 / B2 + 1) * 2 ^ (e2 - mn)).
    { assert (S1 : Zpos p1 * B1 <= A1) by lia.
      assert (S2 : A2 < (A2 / B2 + 1) * B2) by lia.
      assert (Sa : Zpos p1 * B1 * (B2 * 2 ^ (e1 - mn)) <= A1 * (B2 * 2 ^ (e1 - mn)))
        by (apply Z.mul_le_mono_nonneg_r; nia).
      assert (Sb : A2 * (B1 * 2 ^ (e2 - mn))
                   < (A2 / B2 + 1) * B2 * (B1 * 2 ^ (e2 - mn)))
        by (apply Z.mul_lt_mono_pos_r; nia).
      assert (T : Zpos p1 * 2 ^ (e1 - mn) * (B1 * B2)
                  < (A2 / B2 + 1) * 2 ^ (e2 - mn) * (B1 * B2)) by lia.
      apply Z.mul_lt_mono_pos_r in T; [exact T|nia]. }
    pose proof (digits_bounds p1) as [L1 _].
    cbn [Zdigits2] in *.
    set (d1 := Zpos (digits2_pos p1)) in *.
    assert (0 < d1) by (unfold d1; lia).
    destruct (A2 / B2) as [|p2|p2] eqn:E2; try lia.
    + cbn [Zdigits2] in *.
      assert (T : 2 ^ (d1 - 1 + (e1 - mn)) < 2 ^ (e2 - mn)).
      { rewrite Z.pow_add_r by (unfold mn; lia). nia. }
      apply pow2_lt_inv in T; [|unfold mn; lia]. unfold fexp in *. lia.
    + pose proof (digits_bounds p2) as [_ U2].
      cbn [Zdigits2] in *.
      set (d2 := Zpos (digits2_pos p2)) in *.
      assert (0 < d2) by (unfold d2; lia).
      assert (T : 2 ^ (d1 - 1 + (e1 - mn)) < 2 ^ (d2 + (e2 - mn))).
      { rewrite !Z.pow_add_r by (unfold mn; lia). nia. }
      apply pow2_lt_inv in T; [|unfold mn; lia]. unfold fexp. lia.
Qed.

(** Rounding of fractions is monotone. *)
Lemma round_mono_frac A1 B1 e1 A2 B2 e2 :
  0 <= A1 -> 0 < B1 -> 0 <= A2 -> 0 < B2 ->
  e1 <= fexp (Zdigits2 (A1 / B1) + e1) ->
  e2 <= fexp (Zdigits2 (A2 / B2) + e2) ->
  vleQ A1 B1 e1 A2 B2 e2 ->
  le (bra false (A1 / B1) e1 (frac_loc A1 B1))
     (bra false (A2 / B2) e2 (frac_loc A2 B2)).
Proof.
  intros HA1 HB1 HA2 HB2 P1 P2 Hv.
  pose proof (vleQ_fexp _ _ _ _ _ _ HA1 HB1 HA2 HB2 P1 P2 Hv) as HE.
  destruct (bra_norm_frac A1 B1 e1 HA1 HB1 P1) as (-> & Bd1 & _).
  destruct (bra_norm_frac A2 B2 e2 HA2 HB2 P2) as (-> & Bd2 & L2).
  set (E1 := fexp (Zdigits2 (A1 / B1) + e1)) in *.
  set (E2 := fexp (Zdigits2 (A2 / B2) + e2)) in *.
  assert (HE1 : emin <= E1) by (unfold E1, fexp, emin; lia).
  destruct (Z.eq_dec E1 E2) as [Heq|Hne].
  - rewrite <- Heq in *. apply norm_le_same; try lia.
    assert (X1 : 0 < 2 ^ (E1 - e1)) by (apply pow2_pos; lia).
    assert (X2 : 0 < 2 ^ (E1 - e2)) by (apply pow2_pos; lia).
    apply rneD_cross; [nia|nia|].
    apply (vleQ_shift _ _ _ _ _ _ (e1 + e2 - E1)) in Hv; try lia.
    replace (e1 - (e1 + e2 - E1)) with (E1 - e2) in Hv by lia.
    replace (e2 - (e1 + e2 - E1)) with (E1 - e1) in Hv by lia.
    nia.
  - apply norm_le_lt; lia.
Qed.

(** *** Division as the rounding of a fraction *)

Lemma div_core_frac m1 e1 m2 e2 :
  SFdiv_core_binary 53 1024 (Zpos m1) e1 (Zpos m2) e2 =
    (div_num m1 e1 m2 e2 / Zpos m2, div_exp m1 e1 m2 e2,
     frac_loc (div_num m1 e1 m2 e2) (Zpos m2)).
Proof.
  unfold SFdiv_core_binary, div_num, frac_loc. rewrite fexp_eq. cbn [Zdigits2].
  fold (div_exp m1 e1 m2 e2). set (e' := div_exp m1 e1 m2 e2).
  assert (Hs : 0 <= e1 - e2 - e') by (unfold e', div_exp; lia).
  set (s := e1 - e2 - e') in *.
  assert (Hm : match s with
               | 0 => Zpos m1
               | Zpos _ => Z.shiftl (Zpos m1) s
               | Zneg _ => 0
               end = Zpos m1 * 2 ^ s).
  { clearbody s. destruct s as [|ps|ps];
      [lia | rewrite Z.shiftl_mul_pow2 by lia; reflexivity | lia]. }
  rewrite Hm. unfold Z.div, Z.modulo.
  destruct (Z.div_eucl (Zpos m1 * 2 ^ s) (Zpos m2)) as [q r]. reflexivity.
Qed.

Lemma div_num_nonneg m1 e1 m2 e2 : 0 <= div_num m1 e1 m2 e2.
Proof.
  unfold div_num.
  assert (0 <= 2 ^ (e1 - e2 - div_exp m1 e1 m2 e2)) by (apply Z.pow_nonneg; lia).
  nia.
Qed.

Lemma div_finite m1 e1 m2 e2 :
  div (S754_finite false m1 e1) (S754_finite false m2 e2) =
    bra false (div_num m1 e1 m2 e2 / Zpos m2) (div_exp m1 e1 m2 e2)
        (frac_loc (div_num m1 e1 m2 e2) (Zpos m2)) /\
  div_exp m1 e1 m2 e2 <=
    fexp (Zdigits2 (div_num m1 e1 m2 e2 / Zpos m2) + div_exp m1 e1 m2 e2).
Proof.
  pose proof (div_core_precondition m1 e1 m2 e2) as H.
  unfold div, SFdiv, prec, emax. cbn [xorb].
  rewrite div_core_frac in *. destruct H as [_ H]. split; [reflexivity|exact H].
Qed.

Lemma exact_as_frac p e :
  bra false (Zpos p) e loc_Exact = bra false (Zpos p / 1) e (frac_loc (Zpos p) 1).
Proof.
  unfold frac_loc. rewrite Z.div_1_r, Z.mod_1_r. reflexivity.
Qed.

Lemma div_mono_l x1 x2 c :
  good x1 -> good x2 -> normal c -> le x1 x2 -> le (div x1 c) (div x2 c).
Proof.
  intros G1 G2 Hc Hle.
  pose proof (div_good x1 c (good_nonneg _ G1) Hc) as M1.
  pose proof (div_good x2 c (good_nonneg _ G2) Hc) as M2.
  destruct c as [| | |[|] pc ec]; simpl in Hc; try tauto.
  destruct x1 as [s1|s1| |s1 p1 e1]; simpl in G1; try tauto.
  - subst s1. apply le_zero_l. exact M2.
  - subst s1. rewrite (le_infinity_l x2 G2 Hle). reflexivity.
  - destruct x2 as [s2|s2| |s2 p2 e2]; simpl in G2; try tauto.
    + subst s2. apply le_zero_r in Hle; [discriminate|exact G1].
    + subst s2. apply le_infinity_r. exact M1.
    + destruct G1 as [-> B1], G2 as [-> B2].
      destruct (div_finite p1 e1 pc ec) as [-> P1].
      destruct (div_finite p2 e2 pc ec) as [-> P2].
      apply round_mono_frac;
        try apply div_num_nonneg; try lia; try assumption.
      pose proof (good_le_vle p1 e1 p2 e2
                    (conj eq_refl B1) (conj eq_refl B2) Hle) as Hv.
      set (d1 := div_exp p1 e1 pc ec) in *.
      set (d2 := div_exp p2 e2 pc ec) in *.
      assert (L1 : d1 <= e1 - ec) by (unfold d1, div_exp; lia).
      assert (L2 : d2 <= e2 - ec) by (unfold d2, div_exp; lia).
      unfold vleQ, div_num. fold d1 d2. set (mn := Z.min d1 d2).
      apply (vle_shift _ _ _ _ (mn + ec)) in Hv; [|unfold mn; lia|unfold mn; lia].
      replace (Zpos p1 * 2 ^ (e1 - ec - d1) * Zpos pc * 2 ^ (d1 - mn))
        with (Zpos pc * (Zpos p1 * (2 ^ (e1 - ec - d1) * 2 ^ (d1 - mn)))) by lia.
      replace (Zpos p2 * 2 ^ (e2 - ec - d2) * Zpos pc * 2 ^ (d2 - mn))
        with (Zpos pc * (Zpos p2 * (2 ^ (e2 - ec - d2) * 2 ^ (d2 - mn)))) by lia.
      rewrite <- !Z.pow_add_r by (unfold mn; lia).
      replace (e1 - ec - d1 + (d1 - mn)) with (e1 - (mn + ec)) by lia.
      replace (e2 - ec - d2 + (d2 - mn)) with (e2 - (mn + ec)) by lia.
      apply Z.mul_le_mono_nonneg_l; [lia|exact Hv].
Qed.

(** Dividing by a constant that is at least one does not increase. *)
Lemma div_le_self x c :
  good x -> normal c ->
  match c with
  | S754_finite _ p e => e <= 0 /\ 2 ^ (- e) <= Zpos p
  | _ => False
  end ->
  le (div x c) x.
Proof.
  intros Gx Hc Hv.
  destruct c as [| | |[|] pc ec]; simpl in Hc; try tauto.
  destruct x as [s|s| |s px ex]; simpl in Gx; try tauto; try (subst s; reflexivity).
  destruct Gx as [-> B].
  assert (G : good (S754_finite false px ex)) by (split; [reflexivity|exact B]).
  rewrite <- (round_id px ex G) at 2. rewrite exact_as_frac.
  destruct (div_finite px ex pc ec) as [-> P1].
  destruct Hv as [Hec Hpc].
  apply round_mono_frac; try apply div_num_nonneg; try lia; try assumption.
  - rewrite Z.div_1_r. cbn [Zdigits2].
    destruct (good_finite_inv _ _ G) as (E & _). lia.
  - set (d := div_exp px ex pc ec) in *.
    assert (L : d <= ex - ec) by (unfold d, div_exp; lia).
    unfold vleQ, div_num. fold d. set (mn := Z.min d ex).
    replace (Zpos px * 2 ^ (ex - ec - d) * 1 * 2 ^ (d - mn))
      with (Zpos px * (2 ^ (ex - ec - d) * 2 ^ (d - mn))) by lia.
    rewrite <- Z.pow_add_r by (unfold mn; lia).
    replace (ex - ec - d + (d - mn)) with ((ex - mn) + (- ec)) by lia.
    rewrite Z.pow_add_r by (unfold mn; lia).
    assert (0 < 2 ^ (ex - mn)) by (apply pow2_pos; unfold mn; lia).
    nia.
Qed.

(** *** Integral Numbers *)

Lemma integer_value_scaled m e c :
  isInteger (S754_finite false m e) = true -> c <= e -> c <= 0 ->
  Zpos m * 2 ^ (e - c) = integer_value (S754_finite false m e) * 2 ^ (- c).
Proof.
  cbn [isInteger integer_value]. intros Hi Hc H0.
  destruct (0 <=? e) eqn:He.
  - apply Z.leb_le in He.
    replace (e - c) with (e + - c) by lia. rewrite Z.pow_add_r by lia. lia.
  - apply Z.leb_gt in He. apply Z.eqb_eq in Hi.
    assert (HP : 0 < 2 ^ (- e)) by (apply pow2_pos; lia).
    pose proof (Z.div_mod (Zpos m) (2 ^ (- e)) ltac:(lia)) as Hd.
    rewrite Hi, Z.add_0_r in Hd.
    replace (- c) with (- e + (e - c)) by lia.
    rewrite Z.pow_add_r by lia. rewrite Hd at 1. lia.
Qed.

Lemma le_integer_value x y :
  good x -> good y -> isInteger x = true -> isInteger y = true -> le x y ->
  integer_value x <= integer_value y.
Proof.
  intros Gx Gy Ix Iy Hle.
  assert (Hy : 0 <= integer_value y).
  { destruct y as [s|s| |s m e]; cbn [integer_value]; try lia.
    destruct Gy as [-> _]. destruct (0 <=? e) eqn:He.
    - assert (0 <= 2 ^ e) by (apply Z.pow_nonneg; lia). nia.
    - apply Z.leb_gt in He. apply Z.div_pos; [lia|]. apply pow2_pos. lia. }
  destruct x as [s1|s1| |s1 m1 e1]; try discriminate; [exact Hy|].
  destruct y as [s2|s2| |s2 m2 e2]; try discriminate.
  - simpl in Gy. subst s2. apply le_zero_r in Hle; [discriminate|exact Gx].
  - pose proof Gx as [-> _]. pose proof Gy as [-> _].
    pose proof (good_le_vle m1 e1 m2 e2 Gx Gy Hle) as Hv.
    set (c := Z.min (Z.min e1 e2) 0).
    apply (vle_shift _ _ _ _ c) in Hv; [|unfold c; lia|unfold c; lia].
    rewrite (integer_value_scaled m1 e1 c Ix) in Hv by (unfold c; lia).
    rewrite (integer_value_scaled m2 e2 c Iy) in Hv by (unfold c; lia).
    assert (0 < 2 ^ (- c)) by (apply pow2_pos; unfold c; lia).
    apply Z.mul_le_mono_pos_r in Hv; assumption.
Qed.

Lemma le_finite_not_infinity x m e :
  le x (S754_finite false m e) -> x <> S754_infinity false.
Proof. intros H ->. discriminate. Qed.

Lemma le_trans x y z : good x -> good y -> good z -> le x y -> le y z -> le x z.
Proof.
  intros Gx Gy Gz Hxy Hyz.
  destruct x as [s1|s1| |s1 m1 e1]; simpl in Gx; try tauto.
  - subst. apply le_zero_l. exact Gz.
  - subst. rewrite (le_infinity_l y Gy Hxy) in Hyz.
    rewrite (le_infinity_l z Gz Hyz). reflexivity.
  - destruct z as [s3|s3| |s3 m3 e3]; simpl in Gz; try tauto.
    + subst. rewrite (le_zero_r y Gy Hyz) in Hxy.
      apply le_zero_r in Hxy; [discriminate|exact Gx].
    + subst. apply le_infinity_r. exact Gx.
    + destruct y as [s2|s2| |s2 m2 e2]; simpl in Gy; try tauto.
      * subst. apply le_zero_r in Hxy; [discriminate|exact Gx].
      * subst. apply le_infinity_l in Hyz; [discriminate|exact Gz].
      * destruct Gx as [-> _], Gy as [-> _], Gz as [-> _].
        apply le_finite in Hxy. apply le_finite in Hyz. apply le_finite. lia.
Qed.

End Binary64FracFacts.
Import Binary64FracFacts.

(* ===================================================================== *)
(** * The prices as functions of the spot price *)
(* ===================================================================== *)

Section PriceRange.

Variable StringToNumber : string -> number.

Lemma calculatePrices_fields price p :
  ToNumber StringToNumber price = Return p ->
  calculatePrices StringToNumber (Obj price) =
    Return (mkPriceSet (perGram_of p) (perOunce_of p) (perGram_of p)
                       (perKarat22_of p) (perKarat18_of p)).
Proof.
  intros H. unfold calculatePrices. cbn [get_price]. rewrite H. reflexivity.
Qed.

Lemma fields_good p :
  good p ->
  good (perGram_of p) /\ good (perOunce_of p) /\
  good (perKarat22_of p) /\ good (perKarat18_of p).
Proof.
  intros Gp. pose proof (good_nonneg p Gp) as Np.
  pose proof (div_good p _ Np normal_GRAMS_PER_OUNCE) as Gg.
  repeat split; apply floor_good, mul_good;
    try exact normal_DECIMALS; try exact Np; apply good_nonneg;
    try exact Gg; apply mul_good;
    try exact normal_purity22; try exact normal_purity18;
    apply good_nonneg, Gg.
Qed.

Lemma fields_mono p1 p2 :
  good p1 -> good p2 -> le p1 p2 ->
  le (perGram_of p1) (perGram_of p2) /\
  le (perOunce_of p1) (perOunce_of p2) /\
  le (perKarat22_of p1) (perKarat22_of p2) /\
  le (perKarat18_of p1) (perKarat18_of p2).
Proof.
  intros G1 G2 Hle.
  pose proof (good_nonneg p1 G1) as N1. pose proof (good_nonneg p2 G2) as N2.
  pose proof (div_good p1 _ N1 normal_GRAMS_PER_OUNCE) as Gg1.
  pose proof (div_good p2 _ N2 normal_GRAMS_PER_OUNCE) as Gg2.
  pose proof (div_mono_l p1 p2 _ G1 G2 normal_GRAMS_PER_OUNCE Hle) as Hg.
  pose proof (mul_good _ _ (good_nonneg _ Gg1) normal_purity22) as Ga1.
  pose proof (mul_good _ _ (good_nonneg _ Gg2) normal_purity22) as Ga2.
  pose proof (mul_good _ _ (good_nonneg _ Gg1) normal_purity18) as Gb1.
  pose proof (mul_good _ _ (good_nonneg _ Gg2) normal_purity18) as Gb2.
  repeat split; unfold perGram_of, perOunce_of, perKarat22_of, perKarat18_of.
  - apply floor_mono; [apply mul_good; [apply good_nonneg, Gg1|exact normal_DECIMALS]
                      |apply mul_good; [apply good_nonneg, Gg2|exact normal_DECIMALS]|].
    apply mul_mono_l; [exact Gg1|exact Gg2|exact normal_DECIMALS|exact Hg].
  - apply floor_mono; [apply mul_good; [exact N1|exact normal_DECIMALS]
                      |apply mul_good; [exact N2|exact normal_DECIMALS]|].
    apply mul_mono_l; [exact G1|exact G2|exact normal_DECIMALS|exact Hle].
  - apply floor_mono; [apply mul_good; [apply good_nonneg, Ga1|exact normal_DECIMALS]
                      |apply mul_good; [apply good_nonneg, Ga2|exact normal_DECIMALS]|].
    apply mul_mono_l; [exact Ga1|exact Ga2|exact normal_DECIMALS|].
    apply mul_mono_l; [exact Gg1|exact Gg2|exact normal_purity22|exact Hg].
  - apply floor_mono; [apply mul_good; [apply good_nonneg, Gb1|exact normal_DECIMALS]
                      |apply mul_good; [apply good_nonneg, Gb2|exact normal_DECIMALS]|].
    apply mul_mono_l; [exact Gb1|exact Gb2|exact normal_DECIMALS|].
    apply mul_mono_l; [exact Gg1|exact Gg2|exact normal_purity18|exact Hg].
Qed.

Lemma fields_chain p :
  good p ->
  le (perKarat18_of p) (perKarat22_of p) /\
  le (perKarat22_of p) (perGram_of p) /\
  le (perGram_of p) (perOunce_of p).
Proof.
  intros Gp. pose proof (good_nonneg p Gp) as Np.
  pose proof (div_good p _ Np normal_GRAMS_PER_OUNCE) as Gg.
  pose proof (mul_good _ _ (good_nonneg _ Gg) normal_purity22) as Ga.
  pose proof (mul_good _ _ (good_nonneg _ Gg) normal_purity18) as Gb.
  pose proof (mul_good _ _ (good_nonneg _ Gg) normal_DECIMALS) as G24.
  pose proof (mul_good _ _ (good_nonneg _ Ga) normal_DECIMALS) as G22.
  pose proof (mul_good _ _ (good_nonneg _ Gb) normal_DECIMALS) as G18.
  pose proof (mul_good _ _ Np normal_DECIMALS) as Goz.
  repeat split; unfold perGram_of, perOunce_of, perKarat22_of, perKarat18_of.
  - apply floor_mono; [exact G18|exact G22|].
    apply mul_mono_l; [exact Gb|exact Ga|exact normal_DECIMALS|].
    apply mul_mono_r;
      [exact (good_nonneg _ Gg)|exact normal_purity18|exact normal_purity22|].
    rewrite purity18_eq, purity22_eq. vm_compute. discriminate.
  - apply floor_mono; [exact G22|exact G24|].
    apply mul_mono_l; [exact Ga|exact Gg|exact normal_DECIMALS|].
    apply mul_le_self; [exact Gg|exact normal_purity22|].
    rewrite purity22_eq. vm_compute. discriminate.
  - apply floor_mono; [exact G24|exact Goz|].
    apply mul_mono_l; [exact Gg|exact Gp|exact normal_DECIMALS|].
    apply div_le_self; [exact Gp|exact normal_GRAMS_PER_OUNCE|].
    rewrite GRAMS_PER_OUNCE_eq. split; [lia|]. vm_compute. discriminate.
Qed.

(** A floored price between two integers is an integer between them. *)
Lemma floored_between lo x hi :
  good x -> good lo -> good hi ->
  isInteger lo = true -> isInteger hi = true ->
  le lo (floor x) -> le (floor x) hi ->
  isInteger (floor x) = true /\
  integer_value lo <= integer_value (floor x) <= integer_value hi.
Proof.
  intros Gx Glo Ghi Ilo Ihi L U.
  pose proof (floor_good x Gx) as Gf.
  assert (If : isInteger (floor x) = true).
  { destruct (floor_integer x Gx) as [Hinf|Hi]; [|exact Hi].
    rewrite Hinf in U. apply le_infinity_l in U; [|exact Ghi].
    rewrite U in Ihi. discriminate. }
  split; [exact If|]. split; apply le_integer_value; assumption.
Qed.

End PriceRange.

Section PriceProperties.
Variable StringToNumber : string -> number.

(** X3.  [calculatePrices] is monotone: of two spot prices that are
    not negative, the larger gives five prices each at least the
    corresponding price of the smaller. *)
Theorem calculatePrices_monotone (price1 price2 : value) (p1 p2 : number) :
  ToNumber StringToNumber price1 = Return p1 ->
  ToNumber StringToNumber price2 = Return p2 ->
  good p1 -> good p2 -> le p1 p2 ->
  exists ps1 ps2,
    calculatePrices StringToNumber (Obj price1) = Return ps1 /\
    calculatePrices StringToNumber (Obj price2) = Return ps2 /\
    prices_le ps1 ps2.
Proof.
  intros Hc1 Hc2 G1 G2 Hle.
  destruct (fields_mono _ _ G1 G2 Hle) as (Hg & Ho & H22 & H18).
  eexists. eexists. split; [apply (calculatePrices_fields _ _ _ Hc1)|].
  split; [apply (calculatePrices_fields _ _ _ Hc2)|].
  cbv zeta. unfold prices_le. cbn [pricePerGram pricePerOunce pricePerKarat24
                                   pricePerKarat22 pricePerKarat18].
  repeat split; assumption.
Qed.

Lemma lowest_karat18 : perKarat18_of (of_Z 1) = of_Z 2411304.
Proof. vm_compute. reflexivity. Qed.

Lemma highest_ounce : perOunce_of (of_Z 10000000) = of_Z 1000000000000000.
Proof. vm_compute. reflexivity. Qed.

(** The four prices of a spot price between 1 and 10^7 dollars. *)
Lemma fields_in_range p :
  good p -> le (of_Z 1) p -> le p (of_Z 10000000) ->
  let g := perGram_of p in
  let o := perOunce_of p in
  let k22 := perKarat22_of p in
  let k18 := perKarat18_of p in
  isInteger g = true /\ isInteger o = true /\
  isInteger k22 = true /\ isInteger k18 = true /\
  2411304 <= integer_value k18 /\
  integer_value k18 <= integer_value k22 /\
  integer_value k22 <= integer_value g /\
  integer_value g <= integer_value o /\
  integer_value o <= 1000000000000000.
Proof.
  intros Gp Hlo Hhi g o k22 k18.
  assert (G1 : good (of_Z 1)) by (apply of_Z_good; lia).
  assert (G7 : good (of_Z 10000000)) by (apply of_Z_good; lia).
  destruct (fields_good p Gp) as (Gg & Go & G22 & G18).
  destruct (fields_good _ G1) as (_ & _ & _ & Glo).
  destruct (fields_good _ G7) as (_ & Ghi & _ & _).
  destruct (fields_mono _ _ G1 Gp Hlo) as (_ & _ & _ & Llo).
  destruct (fields_mono _ _ Gp G7 Hhi) as (_ & Lhi & _ & _).
  destruct (fields_chain p Gp) as (C1 & C2 & C3).
  fold g o k22 k18 in Gg, Go, G22, G18, Llo, Lhi, C1, C2, C3.
  rewrite lowest_karat18 in Glo, Llo. rewrite highest_ounce in Ghi, Lhi.
  set (lo := of_Z 2411304) in *. set (hi := of_Z 1000000000000000) in *.
  assert (Ilo : isInteger lo = true) by reflexivity.
  assert (Ihi : isInteger hi = true) by reflexivity.
  assert (Vlo : integer_value lo = 2411304) by reflexivity.
  assert (Vhi : integer_value hi = 1000000000000000) by reflexivity.
  assert (L22 : le lo k22) by (apply (le_trans lo k18 k22); assumption).
  assert (Lg : le lo g) by (apply (le_trans lo k22 g); assumption).
  assert (Lo : le lo o) by (apply (le_trans lo g o); assumption).
  assert (Ug : le g hi) by (apply (le_trans g o hi); assumption).
  assert (U22 : le k22 hi) by (apply (le_trans k22 g hi); assumption).
  assert (U18 : le k18 hi) by (apply (le_trans k18 k22 hi); assumption).
  assert (Hint : forall x, good x -> le (floor x) hi -> isInteger (floor x) = true).
  { intros x Gx U. destruct (floor_integer x Gx) as [Hinf|Hi]; [|exact Hi].
    rewrite Hinf in U. apply le_infinity_l in U; [|exact Ghi].
    discriminate. }
  pose proof (good_nonneg p Gp) as Np.
  pose proof (div_good p _ Np normal_GRAMS_PER_OUNCE) as Gd.
  assert (Ig : isInteger g = true).
  { apply Hint; [|exact Ug].
    apply mul_good; [apply good_nonneg, Gd|exact normal_DECIMALS]. }
  assert (Io : isInteger o = true).
  { apply Hint; [|exact Lhi]. apply mul_good; [exact Np|exact normal_DECIMALS]. }
  assert (I22 : isInteger k22 = true).
  { apply Hint; [|exact U22].
    apply mul_good; [|exact normal_DECIMALS]. apply good_nonneg.
    apply mul_good; [apply good_nonneg, Gd|exact normal_purity22]. }
  assert (I18 : isInteger k18 = true).
  { apply Hint; [|exact U18].
    apply mul_good; [|exact normal_DECIMALS]. apply good_nonneg.
    apply mul_good; [apply good_nonneg, Gd|exact normal_purity18]. }
  repeat (split; [assumption|]).
  rewrite <- Vlo, <- Vhi.
  repeat split; apply le_integer_value; assumption.
Qed.

(** X4.  For a spot price between 1 and 10^7 dollars the five prices
    are integers, the 24 karat price is the price per gram, and
    2411304 <= 18K <= 22K <= per gram <= per ounce <= 10^15. *)
Theorem calculatePrices_range (price : value) (p : number) :
  ToNumber StringToNumber price = Return p ->
  good p -> le (of_Z 1) p -> le p (of_Z 10000000) ->
  exists ps,
    calculatePrices StringToNumber (Obj price) = Return ps /\
    isInteger (pricePerGram ps) = true /\
    isInteger (pricePerOunce ps) = true /\
    isInteger (pricePerKarat22 ps) = true /\
    isInteger (pricePerKarat18 ps) = true /\
    pricePerKarat24 ps = pricePerGram ps /\
    2411304 <= integer_value (pricePerKarat18 ps) /\
    integer_value (pricePerKarat18 ps) <= integer_value (pricePerKarat22 ps) /\
    integer_value (pricePerKarat22 ps) <= integer_value (pricePerGram ps) /\
    integer_value (pricePerGram ps) <= integer_value (pricePerOunce ps) /\
    integer_value (pricePerOunce ps) <= 1000000000000000.
Proof.
  intros Hc Gp Hlo Hhi.
  destruct (fields_in_range _ Gp Hlo Hhi)
    as (Ig & Io & I22 & I18 & B1 & B2 & B3 & B4 & B5).
  eexists. split; [apply (calculatePrices_fields _ _ _ Hc)|].
  cbv zeta. cbn [pricePerGram pricePerOunce pricePerKarat24
                 pricePerKarat22 pricePerKarat18].
  repeat (split; [assumption || reflexivity|]). assumption.
Qed.

Lemma sign_cases (x : number) : x = NaN \/ nonneg x \/ nonpos x.
Proof. destruct x as [s|s| |s m e]; try destruct s; cbn; auto. Qed.

Lemma good_not_nan x : good x -> is_nan x = false.
Proof. destruct x; cbn; [reflexivity|reflexivity|contradiction|reflexivity]. Qed.

Lemma nonpos_not_nan x : nonpos x -> is_nan x = false.
Proof. destruct x; cbn; [reflexivity|reflexivity|contradiction|reflexivity]. Qed.

(** X5.  A price that converts to NaN makes [calculatePrices] return
    five NaN, without an error; and a price set it returns whose price per
    ounce is NaN is NaN in all five fields. *)
Theorem calculatePrices_not_a_number (price : value) :
  ToNumber StringToNumber price = Return NaN ->
  calculatePrices StringToNumber (Obj price) =
    Return (mkPriceSet NaN NaN NaN NaN NaN) /\
  (forall apiData ps,
      calculatePrices StringToNumber apiData = Return ps ->
      is_nan (pricePerOunce ps) = true ->
      ps = mkPriceSet NaN NaN NaN NaN NaN).
Proof.
  intros Hn. split.
  - rewrite (calculatePrices_fields _ _ _ Hn). reflexivity.
  - intros apiData ps. unfold calculatePrices.
    destruct (get_price apiData) as [v|e]; [|discriminate].
    destruct (ToNumber StringToNumber v) as [n|e]; [|discriminate].
    intros H. injection H as <-.
    cbn [pricePerGram pricePerOunce pricePerKarat24 pricePerKarat22
         pricePerKarat18].
    destruct (sign_cases n) as [->|[Hs|Hs]].
    + intros _. reflexivity.
    + intros H.
      rewrite good_not_nan in H; [discriminate|].
      apply floor_good, mul_good; [exact Hs|exact normal_DECIMALS].
    + intros H.
      rewrite nonpos_not_nan in H; [discriminate|].
      apply floor_nonpos, mul_nonpos; [exact Hs|exact normal_DECIMALS].
Qed.

(** X11.  On the prices computed from a spot price that is not
    negative and at most 10^7, [pricesChanged] does not throw: the price
    per gram is an integer and the answer is true on a ledger never
    updated, and otherwise whether the price moved by more than 10000. *)
Theorem pricesChanged_on_computed_prices
        (price : value) (p : number) (current : PriceData) :
  ToNumber StringToNumber price = Return p ->
  good p -> le p (of_Z 10000000) ->
  exists ps,
    calculatePrices StringToNumber (Obj price) = Return ps /\
    isInteger (pricePerGram ps) = true /\
    pricesChanged current ps =
      Return (if pd_lastUpdated current =? 0 then true
              else 10000 <? Z.abs (pd_pricePerGram current
                                   - integer_value (pricePerGram ps))).
Proof.
  intros Hc Gp Hhi.
  assert (G7 : good (of_Z 10000000)) by (apply of_Z_good; lia).
  destruct (fields_good _ G7) as (Ghi & _).
  destruct (fields_mono _ _ Gp G7 Hhi) as (Lhi & _).
  pose proof (good_nonneg _ Gp) as Np.
  pose proof (div_good _ _ Np normal_GRAMS_PER_OUNCE) as Gd.
  assert (Ig : isInteger (perGram_of p) = true).
  { unfold perGram_of in *.
    destruct (floor_integer (mul (div p GRAMS_PER_OUNCE) DECIMALS))
      as [Hinf|Hi]; [apply mul_good; [apply good_nonneg, Gd|exact normal_DECIMALS]
                    | |exact Hi].
    rewrite Hinf in Lhi. apply le_infinity_l in Lhi; [|exact Ghi].
    vm_compute in Lhi. discriminate. }
  eexists. split; [apply (calculatePrices_fields _ _ _ Hc)|].
  cbv zeta. cbn [pricePerGram]. split; [exact Ig|].
  unfold pricesChanged. cbn [pricePerGram].
  destruct (pd_lastUpdated current =? 0); [reflexivity|].
  rewrite number_ltb_bigint_integer by exact Ig.
  unfold BigInt. rewrite Ig.
  destruct (integer_value _ <? pd_pricePerGram current) eqn:E.
  - apply Z.ltb_lt in E. f_equal. f_equal. lia.
  - apply Z.ltb_ge in E. f_equal. f_equal. lia.
Qed.

(** X30.  The prices computed from a spot price between 1 and 10^7
    dollars are accepted by the contract: sent by the owner they pass every
    check of [updatePrices] and are stored; they are ordered and below
    2^53. *)
Theorem computed_prices_are_accepted
        (price : value) (p : number)
        (env : GoldOracle.Env) (st : GoldOracle.State) :
  ToNumber StringToNumber price = Return p ->
  good p -> le (of_Z 1) p -> le p (of_Z 10000000) ->
  GoldOracle.msg_sender env = GoldOracle.owner st ->
  exists ps,
    calculatePrices StringToNumber (Obj price) = Return ps /\
    let g := integer_value (pricePerGram ps) in
    let o := integer_value (pricePerOunce ps) in
    let k24 := integer_value (pricePerKarat24 ps) in
    let k22 := integer_value (pricePerKarat22 ps) in
    let k18 := integer_value (pricePerKarat18 ps) in
    GoldOracle.updatePrices env g o k24 k22 k18 st =
      GoldOracle.Ok tt
        (GoldOracle.mkState g o k24 k22 k18 (GoldOracle.block_timestamp env)
                            (GoldOracle.owner st))
        [GoldOracle.PricesUpdated g o k24 k22 k18 (GoldOracle.block_timestamp env)] /\
    k18 <= k22 <= k24 /\ k24 <= o < 2 ^ 53.
Proof.
  intros Hc Gp Hlo Hhi Ho.
  destruct (fields_in_range _ Gp Hlo Hhi)
    as (Ig & Io & I22 & I18 & B1 & B2 & B3 & B4 & B5).
  eexists. split; [apply (calculatePrices_fields _ _ _ Hc)|].
  cbv zeta. cbn [pricePerGram pricePerOunce pricePerKarat24
                 pricePerKarat22 pricePerKarat18].
  split; [|lia].
  rewrite GoldOracleProofs.updatePrices_outcome.
  apply Z.eqb_eq in Ho. rewrite Ho.
  repeat match goal with
         | |- context [0 <? ?x] =>
             let E := fresh in
             assert (E : (0 <? x) = true) by (apply Z.ltb_lt; lia); rewrite E; clear E
         end.
  reflexivity.
Qed.

End PriceProperties.

(* ===================================================================== *)
(** * Fetching, retrying and the update cycle *)
(* ===================================================================== *)

Section RetryFacts.
Variable StringToNumber : string -> number.

Lemma retry_trace_snoc k :
  [EvHttpGet; EvSleep Config.retryDelayMs] ++ retry_trace k = retry_trace (S k).
Proof. reflexivity. Qed.

(** The run of [getGoldPrices] from any retry count. *)
Lemma getGoldPrices_shape w n : forall retryCount st,
  (Config.maxRetries - retryCount = n)%nat ->
  exists k,
    (k <= n)%nat /\
    getGoldPrices StringToNumber w retryCount st =
      (attempt StringToNumber w (requests st + k),
       mkState (requests st + k + 1) (trace st ++ retry_trace k)) /\
    (forall j, (j < k)%nat ->
               exists e, attempt StringToNumber w (requests st + j) = Throw e) /\
    ((k < n)%nat ->
     exists prices, attempt StringToNumber w (requests st + k) = Return prices).
Proof.
  induction n as [|n IH]; intros retryCount st Hn.
  - exists 0%nat. split; [lia|]. rewrite !Nat.add_0_r. split; [|split].
    + destruct (attempt StringToNumber w (requests st)) as [prices|e] eqn:Ha.
      * rewrite (getGoldPrices_success StringToNumber w retryCount st prices Ha).
        f_equal. f_equal. lia.
      * rewrite (getGoldPrices_give_up StringToNumber w retryCount st e);
          [f_equal; f_equal; lia | lia | exact Ha].
    + intros j Hj. lia.
    + intros Hk. lia.
  - destruct (attempt StringToNumber w (requests st)) as [prices|e] eqn:Ha.
    + exists 0%nat. split; [lia|]. rewrite !Nat.add_0_r. split; [|split].
      * rewrite (getGoldPrices_success StringToNumber w retryCount st prices Ha).
        rewrite Ha. f_equal. f_equal. lia.
      * intros j Hj. lia.
      * intros _. exists prices. exact Ha.
    + rewrite (getGoldPrices_retry StringToNumber w retryCount st e);
        [|lia|exact Ha].
      destruct (IH (retryCount + 1)%nat
                  (mkState (S (requests st))
                           (trace st ++ [EvHttpGet; EvSleep Config.retryDelayMs]))
                  ltac:(lia)) as (k & Hk & Hrun & Hfail & Hlast).
      cbn [requests trace] in *.
      exists (S k). split; [lia|]. split; [|split].
      * rewrite Hrun. f_equal; [f_equal; lia|]. f_equal; [lia|].
        rewrite <- app_assoc. reflexivity.
      * intros j Hj. destruct j as [|j].
        -- exists e. rewrite Nat.add_0_r. exact Ha.
        -- destruct (Hfail j ltac:(lia)) as [e' He']. exists e'.
           rewrite <- He'. f_equal. lia.
      * intros HSk. destruct (Hlast ltac:(lia)) as [prices Hp].
        exists prices. rewrite <- Hp. f_equal. lia.
Qed.

Lemma retry_trace_facts k :
  count is_sleep (retry_trace k) = k /\
  slept (retry_trace k) = Z.of_nat k * Config.retryDelayMs /\
  count is_ledger_call (retry_trace k) = 0%nat /\
  List.length (retry_trace k) = (2 * k + 1)%nat.
Proof.
  induction k as [|k (H1 & H2 & H3 & H4)].
  - repeat split.
  - cbn [retry_trace]. unfold count in *. cbn [List.filter is_sleep is_ledger_call
      List.length slept]. rewrite H1, H2, H3, H4.
    repeat split; try lia.
Qed.

End RetryFacts.

Section CycleFacts.
Variable StringToNumber : string -> number.

Lemma after_nil st : after [] st = st.
Proof. destruct st. unfold after. cbn. rewrite app_nil_r. reflexivity. Qed.

Lemma after_after a b st : after b (after a st) = after (a ++ b) st.
Proof. unfold after. cbn. rewrite app_assoc. reflexivity. Qed.

Lemma record_after ev st : record ev st = after [ev] st.
Proof. reflexivity. Qed.

Lemma getCurrentContractPrices_run w st :
  getCurrentContractPrices w st =
    (contract_getAllPrices w, after [EvGetAllPrices] st).
Proof.
  unfold getCurrentContractPrices, try_catch, bind, emit, lift, ret, throw.
  destruct (contract_getAllPrices w) as [[g o a b c t]|e]; reflexivity.
Qed.

Lemma updateContractPrices_run w p st :
  updateContractPrices w p st =
    match contract_estimateGas w p with
    | Throw e => (Throw e, after [EvEstimateGas p] st)
    | Return _ =>
        match provider_getFeeData w with
        | Throw e => (Throw e, after [EvEstimateGas p; EvGetFeeData] st)
        | Return fd =>
            let send := EvSendTransaction p (fee_cap fd) (priority_fee fd) in
            match contract_updatePrices w p (fee_cap fd) (priority_fee fd) with
            | Throw e => (Throw e, after [EvEstimateGas p; EvGetFeeData; send] st)
            | Return tx =>
                (tx_wait tx,
                 after [EvEstimateGas p; EvGetFeeData; send; EvWait] st)
            end
        end
    end.
Proof.
  unfold updateContractPrices, try_catch, bind, emit, lift, ret, throw,
    fee_cap, priority_fee, after, record.
  cbn [requests trace].
  destruct (contract_estimateGas w p) as [gas|e]; [|reflexivity].
  destruct (provider_getFeeData w) as [fd|e];
    [|rewrite <- app_assoc; reflexivity].
  cbv zeta.
  destruct (contract_updatePrices w p _ _) as [tx|e];
    [|rewrite <- !app_assoc; reflexivity].
  destruct (tx_wait tx) as [receipt|e]; rewrite <- !app_assoc; reflexivity.
Qed.

Lemma or_default_nonzero fee fallback :
  fallback <> 0 ->
  or_default fee fallback <> 0 /\
  (fee = Some (or_default fee fallback) \/ or_default fee fallback = fallback).
Proof.
  intros Hf. unfold or_default. destruct fee as [f|]; [|auto].
  destruct (f =? 0) eqn:E; [auto|]. apply Z.eqb_neq in E. auto.
Qed.

(** The events a cycle adds to the trace: the requests and delays of the
    fetch, then the calls to the ledger. *)
Lemma updatePrices_events w st :
  exists k evs,
    (k <= Config.maxRetries)%nat /\
    snd (updatePrices StringToNumber w st) =
      mkState (requests st + k + 1) (trace st ++ retry_trace k ++ evs) /\
    (evs = [] \/
     exists p,
       fst (getGoldPrices StringToNumber w 0 st) = Return p /\
       (evs = [EvGetAllPrices] \/
        evs = [EvGetAllPrices; EvEstimateGas p] \/
        evs = [EvGetAllPrices; EvEstimateGas p; EvGetFeeData] \/
        exists fd,
          provider_getFeeData w = Return fd /\
          (evs = [EvGetAllPrices; EvEstimateGas p; EvGetFeeData;
                  EvSendTransaction p (fee_cap fd) (priority_fee fd)] \/
           evs = [EvGetAllPrices; EvEstimateGas p; EvGetFeeData;
                  EvSendTransaction p (fee_cap fd) (priority_fee fd); EvWait]))).
Proof.
  destruct (getGoldPrices_shape StringToNumber w Config.maxRetries 0%nat st
              ltac:(reflexivity)) as (k & Hk & Hrun & _ & _).
  exists k. rewrite updatePrices_run, Hrun.
  set (st1 := mkState (requests st + k + 1) (trace st ++ retry_trace k)).
  assert (Hst1 : forall evs,
             after evs st1 =
             mkState (requests st + k + 1) (trace st ++ retry_trace k ++ evs)).
  { intros evs. unfold after, st1. cbn [requests trace].
    rewrite <- app_assoc. reflexivity. }
  destruct (attempt StringToNumber w (requests st + k)) as [p|e] eqn:Ha.
  2:{ exists []. split; [exact Hk|]. split; [|left; reflexivity].
      cbn [snd]. rewrite <- (Hst1 []). rewrite after_nil. reflexivity. }
  rewrite getCurrentContractPrices_run.
  destruct (contract_getAllPrices w) as [cur|e].
  2:{ exists [EvGetAllPrices]. split; [exact Hk|]. split; [apply Hst1|].
      right. exists p. split; [reflexivity|]. left. reflexivity. }
  destruct (pricesChanged cur p) as [[|]|e].
  2,3: exists [EvGetAllPrices]; (split; [exact Hk|]); (split; [apply Hst1|]);
       right; exists p; (split; [reflexivity|]); left; reflexivity.
  rewrite updateContractPrices_run, !after_after. cbn [app].
  destruct (contract_estimateGas w p) as [gas|e].
  2:{ eexists. split; [exact Hk|]. split; [apply Hst1|].
      right. exists p. split; [reflexivity|]. right. left. reflexivity. }
  destruct (provider_getFeeData w) as [fd|e].
  2:{ eexists. split; [exact Hk|]. split; [apply Hst1|].
      right. exists p. split; [reflexivity|]. right. right. left. reflexivity. }
  cbv zeta.
  destruct (contract_updatePrices w p (fee_cap fd) (priority_fee fd)) as [tx|e].
  2:{ rewrite after_after. cbn [app].
      eexists. split; [exact Hk|]. split; [apply Hst1|].
      right. exists p. split; [reflexivity|]. right. right. right.
      exists fd. split; [reflexivity|]. left. reflexivity. }
  rewrite after_after. cbn [app].
  destruct (tx_wait tx) as [receipt|e].
  all: eexists; (split; [exact Hk|]); (split; [apply Hst1|]);
       right; exists p; (split; [reflexivity|]); right; right; right;
       exists fd; (split; [reflexivity|]); right; reflexivity.
Qed.

Lemma or_default_choice fee fallback :
  fee = Some (or_default fee fallback) \/
  (fee = None \/ fee = Some 0) /\ or_default fee fallback = fallback.
Proof.
  unfold or_default. destruct fee as [f|]; [|auto].
  destruct (f =? 0) eqn:E; [|auto].
  apply Z.eqb_eq in E. subst f. auto.
Qed.

Lemma fees_nonzero fd : fee_cap fd <> 0 /\ priority_fee fd <> 0.
Proof.
  unfold fee_cap, priority_fee. split; apply or_default_nonzero; discriminate.
Qed.

Lemma count_app f a b : count f (a ++ b) = (count f a + count f b)%nat.
Proof. unfold count. rewrite filter_app, length_app. reflexivity. Qed.

End CycleFacts.

Section FetchProperties.
Variable StringToNumber : string -> number.

(** X1.  [fetchGoldPrice] returns a body exactly when the request
    returned that body, its [price] is truthy and the price converts to a
    string for the log line: the body is handed on as it came. *)
Theorem fetchGoldPrice_returns_iff (w : World) (st : state) (data : body) :
  fst (fetchGoldPrice w st) = Return data <->
  axios_get w (requests st) = Return data /\
  ToBoolean (body_and_price data) = true /\
  (forall price, get_price data = Return price ->
                 exists q, ToPrimitive price = Return q).
Proof.
  rewrite fetchGoldPrice_run. cbn [fst].
  destruct (axios_get w (requests st)) as [d|e].
  - destruct (ToBoolean (body_and_price d)) eqn:E.
    + destruct (body_and_price_truthy _ E) as (p & -> & Hp).
      destruct p as [| | | | |[r|]]; cbn;
        try (split;
             [ intros H; injection H as <-; split; [reflexivity|];
               split; [exact E|];
               intros price Hq; injection Hq as <-; eexists; reflexivity
             | intros (H & _); exact H ]).
      split; [discriminate|].
      intros (H & _ & Hc). injection H as <-.
      destruct (Hc _ eq_refl) as [q Hq]. discriminate.
    + split; [discriminate|].
      intros (H & Ht & _). injection H as <-. congruence.
  - split.
    + destruct (error_response e) as [[status text]|]; [discriminate|].
      destruct (error_request e); discriminate.
    + intros (H & _). discriminate.
Qed.

(** X2.  What [fetchGoldPrice] throws carries neither a [response]
    nor a [request]: it is an [Error] with one of the three messages of the
    function, or the error of the request itself when that had neither
    property, or the TypeError of a price that is an object whose
    conversion to a string throws. *)
Theorem fetchGoldPrice_throws_plain_errors (w : World) (st : state) (e : error) :
  fst (fetchGoldPrice w st) = Throw e ->
  error_response e = None /\ error_request e = false /\
  (e = Error "Invalid response format from GoldAPI" \/
   e = Error "GoldAPI did not respond" \/
   (exists status, e = Error ("GoldAPI request failed: " ++ show_int status)) \/
   axios_get w (requests st) = Throw e \/
   (e = TypeError /\
    axios_get w (requests st) = Return (Obj (VObject None)))).
Proof.
  rewrite fetchGoldPrice_run. cbn [fst].
  destruct (axios_get w (requests st)) as [d|e0].
  - destruct (ToBoolean (body_and_price d)) eqn:E.
    + destruct (body_and_price_truthy _ E) as (p & -> & Hp).
      destruct p as [| | | | |[r|]]; cbn; try discriminate.
      intros H. injection H as <-.
      split; [reflexivity|]. split; [reflexivity|]. do 4 right.
      split; reflexivity.
    + intros H. injection H as <-.
      split; [reflexivity|]. split; [reflexivity|]. left. reflexivity.
  - destruct (error_response e0) as [[status text]|] eqn:Er.
    + intros H. injection H as <-.
      split; [reflexivity|]. split; [reflexivity|]. right. right. left.
      exists status. reflexivity.
    + destruct (error_request e0) eqn:Eq; intros H; injection H as <-.
      * split; [reflexivity|]. split; [reflexivity|]. right. left. reflexivity.
      * split; [exact Er|]. split; [exact Eq|]. do 3 right. left. reflexivity.
Qed.

(** A body that [fetchGoldPrice] returns has a truthy price that
    converts. *)
Lemma fetchGoldPrice_returned w st apiData :
  fst (fetchGoldPrice w st) = Return apiData ->
  exists p, apiData = Obj p /\ ToBoolean p = true /\ p <> VObject None.
Proof.
  rewrite fetchGoldPrice_run. cbn [fst].
  destruct (axios_get w (requests st)) as [d|e].
  - destruct (ToBoolean (body_and_price d)) eqn:E; [|discriminate].
    destruct (body_and_price_truthy _ E) as (p & -> & Hp).
    destruct p as [| | | | |[r|]]; cbn; try discriminate;
      intros H; injection H as <-; eexists;
      (split; [reflexivity|]); (split; [exact Hp|]); discriminate.
  - destruct (error_response e) as [[status text]|]; [discriminate|].
    destruct (error_request e); discriminate.
Qed.

(** X6.  [calculatePrices] throws only a TypeError, and only for a
    body that is [null] or [undefined] or whose price is an object that
    cannot be converted to a number; on a body that [fetchGoldPrice]
    returned it does not throw, so that an attempt fails exactly when the
    fetch fails, with the same error. *)
Theorem calculatePrices_after_fetch (w : World) (st : state) :
  (forall apiData e,
      calculatePrices StringToNumber apiData = Throw e <->
      (apiData = NonObj VUndefined \/ apiData = NonObj VNull \/
       apiData = Obj (VObject None)) /\ e = TypeError) /\
  (forall apiData,
      fst (fetchGoldPrice w st) = Return apiData ->
      exists ps, calculatePrices StringToNumber apiData = Return ps) /\
  (forall e,
      attempt StringToNumber w (requests st) = Throw e <->
      fst (fetchGoldPrice w st) = Throw e).
Proof.
  assert (Hthrow : forall apiData e,
      calculatePrices StringToNumber apiData = Throw e <->
      (apiData = NonObj VUndefined \/ apiData = NonObj VNull \/
       apiData = Obj (VObject None)) /\ e = TypeError).
  { intros apiData e. unfold calculatePrices.
    destruct apiData as [p|v].
    - cbn [get_price].
      destruct p as [| |b|n|s|[r|]]; cbn [ToNumber];
        try (split; [discriminate|intros [[H|[H|H]] _]; discriminate]).
      split.
      + intros H. injection H as <-. auto.
      + intros [_ ->]. reflexivity.
    - destruct v as [| |b|n|s|r]; cbn [get_price ToNumber];
        try (split; [discriminate|intros [[H|[H|H]] _]; discriminate]);
        (split; [intros H; injection H as <-; auto|intros [_ ->]; reflexivity]). }
  assert (Hret : forall apiData,
      fst (fetchGoldPrice w st) = Return apiData ->
      exists ps, calculatePrices StringToNumber apiData = Return ps).
  { intros apiData H.
    destruct (fetchGoldPrice_returned w st apiData H) as (p & -> & _ & Hp).
    unfold calculatePrices. cbn [get_price].
    destruct p as [| |b|n|s|[r|]]; cbn [ToNumber];
      try (eexists; reflexivity).
    contradiction. }
  split; [exact Hthrow|]. split; [exact Hret|].
  intros e.
  assert (Ha : attempt StringToNumber w (requests st) =
               fst (fetch_and_calculate StringToNumber w st)).
  { rewrite fetch_and_calculate_run. reflexivity. }
  rewrite Ha. unfold fetch_and_calculate, bind, lift.
  destruct (fetchGoldPrice w st) as [[apiData|e0] st1] eqn:Hf; cbn [fst].
  - destruct (Hret apiData) as [ps Hps]; [reflexivity|].
    rewrite Hps. cbn. split; discriminate.
  - split; intros H; injection H as <-; reflexivity.
Qed.

(** X7.  When the first [j] attempts fail and the next one returns,
    [j] being at most [maxRetries], [getGoldPrices] returns the prices of
    that attempt after [j + 1] requests, a delay after each failed one. *)
Theorem getGoldPrices_first_success (w : World) (st : state)
        (j : nat) (prices : PriceSet) :
  (j <= Config.maxRetries)%nat ->
  (forall i, (i < j)%nat ->
             exists e, attempt StringToNumber w (requests st + i) = Throw e) ->
  attempt StringToNumber w (requests st + j) = Return prices ->
  getGoldPrices StringToNumber w 0 st =
    (Return prices,
     mkState (requests st + j + 1) (trace st ++ retry_trace j)).
Proof.
  intros Hj Hfail Hok.
  destruct (getGoldPrices_shape StringToNumber w Config.maxRetries 0%nat st
              ltac:(reflexivity)) as (k & Hk & Hrun & Hbefore & Hlast).
  destruct (Nat.lt_trichotomy k j) as [Hlt|[->|Hgt]].
  - destruct (Hfail k Hlt) as [e He].
    destruct (Hlast ltac:(lia)) as [ps Hps]. congruence.
  - rewrite Hrun, Hok. reflexivity.
  - destruct (Hbefore j Hgt) as [e He]. congruence.
Qed.

(** X8.  A call of [getGoldPrices] makes one to four requests, sleeps
    5000 ms after each but the last, 15000 ms at most, calls nothing on the
    ledger, ends as its last attempt ends, and throws only after four
    requests. *)
Theorem getGoldPrices_effects (w : World) (st : state) :
  exists k,
    (k <= 3)%nat /\
    snd (getGoldPrices StringToNumber w 0 st) =
      mkState (requests st + k + 1) (trace st ++ retry_trace k) /\
    fst (getGoldPrices StringToNumber w 0 st) =
      attempt StringToNumber w (requests st + k) /\
    count is_sleep (retry_trace k) = k /\
    slept (retry_trace k) = Z.of_nat k * 5000 /\
    slept (retry_trace k) <= 15000 /\
    count is_ledger_call (retry_trace k) = 0%nat /\
    (forall e, fst (getGoldPrices StringToNumber w 0 st) = Throw e -> k = 3%nat).
Proof.
  destruct (getGoldPrices_shape StringToNumber w Config.maxRetries 0%nat st
              ltac:(reflexivity)) as (k & Hk & Hrun & _ & Hlast).
  destruct (retry_trace_facts k) as (H1 & H2 & H3 & _).
  unfold Config.maxRetries, Config.retryDelayMs in *.
  exists k. rewrite Hrun. cbn [fst snd].
  repeat split; try assumption; try lia.
  intros e He.
  destruct (Nat.eq_dec k 3) as [E|E]; [exact E|].
  destruct (Hlast ltac:(lia)) as [ps Hps]. congruence.
Qed.

(** X9.  [GET /api/gold-price] does not throw and does not touch the
    ledger: it has the effects of [getGoldPrices] and answers 200 with the
    prices when that returns, 500 when it throws. *)
Theorem get_api_gold_price_replies (w : World) (st : state) :
  snd (get_api_gold_price StringToNumber w st) =
    snd (getGoldPrices StringToNumber w 0 st) /\
  fst (get_api_gold_price StringToNumber w st) =
    match fst (getGoldPrices StringToNumber w 0 st) with
    | Return prices => Return (200, Some prices)
    | Throw _ => Return (500, None)
    end /\
  exists evs,
    trace (snd (get_api_gold_price StringToNumber w st)) = trace st ++ evs /\
    count is_ledger_call evs = 0%nat.
Proof.
  unfold get_api_gold_price, try_catch, bind, ret.
  destruct (getGoldPrices_shape StringToNumber w Config.maxRetries 0%nat st
              ltac:(reflexivity)) as (k & _ & Hrun & _ & _).
  rewrite Hrun.
  destruct (attempt StringToNumber w (requests st + k)) as [ps|e];
    (split; [reflexivity|]); (split; [reflexivity|]);
    exists (retry_trace k); (split; [reflexivity|]);
    apply retry_trace_facts.
Qed.

(** X10.  [pricesChanged] throws exactly when the ledger was updated
    before and the candidate price per gram is not an integer; the error is
    the RangeError of [BigInt] on that price. *)
Theorem pricesChanged_throws_iff
        (oldPrices : PriceData) (newPrices : PriceSet) (e : error) :
  pricesChanged oldPrices newPrices = Throw e <->
  pd_lastUpdated oldPrices <> 0 /\
  isInteger (pricePerGram newPrices) = false /\
  e = RangeError (pricePerGram newPrices).
Proof.
  unfold pricesChanged, BigInt.
  destruct (pd_lastUpdated oldPrices =? 0) eqn:E0.
  - apply Z.eqb_eq in E0. split; [discriminate|]. intros [H _]. contradiction.
  - apply Z.eqb_neq in E0.
    destruct (isInteger (pricePerGram newPrices)) eqn:Ei.
    + destruct (number_ltb_bigint _ _); (split; [discriminate|]);
        intros (_ & H & _); discriminate.
    + destruct (number_ltb_bigint _ _); split;
        try (intros H; injection H as <-; auto);
        intros (_ & _ & ->); reflexivity.
Qed.

(** X12.  [updateContractPrices] returns a receipt exactly when the
    gas estimate, the fee query, the submission with the fees chosen from
    the fee data, and the wait for the receipt all return; the receipt is
    that of the wait. *)
Theorem updateContractPrices_returns_iff
        (w : World) (p : PriceSet) (st : state) (receipt : Receipt) :
  fst (updateContractPrices w p st) = Return receipt <->
  exists gas fd tx,
    contract_estimateGas w p = Return gas /\
    provider_getFeeData w = Return fd /\
    contract_updatePrices w p (fee_cap fd) (priority_fee fd) = Return tx /\
    tx_wait tx = Return receipt.
Proof.
  rewrite updateContractPrices_run.
  destruct (contract_estimateGas w p) as [gas|e].
  2:{ split; [discriminate|]. intros (g & fd & tx & H & _). discriminate. }
  destruct (provider_getFeeData w) as [fd|e].
  2:{ split; [discriminate|]. intros (g & fd & tx & _ & H & _). discriminate. }
  cbv zeta.
  destruct (contract_updatePrices w p (fee_cap fd) (priority_fee fd)) as [tx|e] eqn:Hs.
  2:{ split; [discriminate|]. intros (g & fd' & tx & _ & Hfd & H & _).
      injection Hfd as <-. congruence. }
  cbn [fst]. split.
  - intros H. exists gas, fd, tx. auto.
  - intros (g & fd' & tx' & _ & Hfd & H & Hw).
    injection Hfd as <-. rewrite Hs in H. injection H as <-. exact Hw.
Qed.

(** X13.  [updateContractPrices] sends at most one transaction, and
    only once the gas estimate and the fee data were obtained, and then it
    does send one; the transaction carries the prices given, and fees that
    are never zero: each is the one of the fee data, and 50 gwei (max fee)
    or 30 gwei (priority fee) only when the fee data has [null] or zero
    there. *)
Theorem updateContractPrices_sends_after_checks
        (w : World) (p : PriceSet) (st : state) :
  exists evs,
    snd (updateContractPrices w p st) = after evs st /\
    (count is_send evs <= 1)%nat /\
    (forall p' maxFee maxPriorityFee,
        In (EvSendTransaction p' maxFee maxPriorityFee) evs ->
        p' = p /\ maxFee <> 0 /\ maxPriorityFee <> 0 /\
        exists gas fd,
          contract_estimateGas w p = Return gas /\
          provider_getFeeData w = Return fd /\
          (maxFeePerGas fd = Some maxFee \/
           (maxFeePerGas fd = None \/ maxFeePerGas fd = Some 0) /\
           maxFee = 50000000000) /\
          (maxPriorityFeePerGas fd = Some maxPriorityFee \/
           (maxPriorityFeePerGas fd = None \/ maxPriorityFeePerGas fd = Some 0) /\
           maxPriorityFee = 30000000000)) /\
    (forall gas fd,
        contract_estimateGas w p = Return gas ->
        provider_getFeeData w = Return fd ->
        exists maxFee maxPriorityFee,
          In (EvSendTransaction p maxFee maxPriorityFee) evs).
Proof.
  rewrite updateContractPrices_run.
  destruct (contract_estimateGas w p) as [gas|e].
  2:{ eexists. split; [reflexivity|]. split; [cbn; lia|]. split.
      - intros p' a b [H|[]]. discriminate.
      - intros gas fd H. discriminate. }
  destruct (provider_getFeeData w) as [fd|e].
  2:{ eexists. split; [reflexivity|]. split; [cbn; lia|]. split.
      - intros p' a b [H|[H|[]]]; discriminate.
      - intros gas' fd _ H. discriminate. }
  cbv zeta.
  assert (Hsend : forall p' a b,
             EvSendTransaction p (fee_cap fd) (priority_fee fd) =
             EvSendTransaction p' a b ->
             p' = p /\ a <> 0 /\ b <> 0 /\
             (maxFeePerGas fd = Some a \/
              (maxFeePerGas fd = None \/ maxFeePerGas fd = Some 0) /\
              a = 50000000000) /\
             (maxPriorityFeePerGas fd = Some b \/
              (maxPriorityFeePerGas fd = None \/ maxPriorityFeePerGas fd = Some 0) /\
              b = 30000000000)).
  { intros p' a b H. injection H as <- <- <-.
    destruct (fees_nonzero fd) as [Ha Hb].
    split; [reflexivity|]. split; [exact Ha|]. split; [exact Hb|].
    split.
    - exact (or_default_choice (maxFeePerGas fd) (gwei 50)).
    - exact (or_default_choice (maxPriorityFeePerGas fd) (gwei 30)). }
  destruct (contract_updatePrices w p (fee_cap fd) (priority_fee fd)) as [tx|e].
  - eexists. split; [reflexivity|]. split; [cbn; lia|]. split.
    + intros p' a b [H|[H|[H|[H|[]]]]]; try discriminate.
      destruct (Hsend p' a b H) as (H1 & H2 & H3 & H4 & H5).
      repeat (split; [assumption|]). exists gas, fd. auto.
    + intros _ _ _ _. exists (fee_cap fd), (priority_fee fd).
      right. right. left. reflexivity.
  - eexists. split; [reflexivity|]. split; [cbn; lia|]. split.
    + intros p' a b [H|[H|[H|[]]]]; try discriminate.
      destruct (Hsend p' a b H) as (H1 & H2 & H3 & H4 & H5).
      repeat (split; [assumption|]). exists gas, fd. auto.
    + intros _ _ _ _. exists (fee_cap fd), (priority_fee fd).
      right. right. left. reflexivity.
Qed.

End FetchProperties.

Section CycleProperties.
Variable StringToNumber : string -> number.

Lemma count_retry_send k : count is_send (retry_trace k) = 0%nat.
Proof. induction k as [|k IH]; [reflexivity|exact IH]. Qed.

Lemma In_retry_trace ev k :
  In ev (retry_trace k) -> ev = EvHttpGet \/ ev = EvSleep Config.retryDelayMs.
Proof.
  induction k as [|k IH]; cbn.
  - intros [H|[]]; auto.
  - intros [H|[H|H]]; auto.
Qed.

(** X14.  A cycle sends at most one transaction; the transaction
    carries the prices the fetch returned and fees that are not zero; and
    the cycle calls the ledger only when the fetch has returned. *)
Theorem updatePrices_sends_at_most_once (w : World) (st : state) :
  exists evs,
    trace (snd (updatePrices StringToNumber w st)) = trace st ++ evs /\
    (count is_send evs <= 1)%nat /\
    (forall p maxFee maxPriorityFee,
        In (EvSendTransaction p maxFee maxPriorityFee) evs ->
        fst (getGoldPrices StringToNumber w 0 st) = Return p /\
        maxFee <> 0 /\ maxPriorityFee <> 0) /\
    (forall ev, In ev evs -> is_ledger_call ev = true ->
        exists p, fst (getGoldPrices StringToNumber w 0 st) = Return p).
Proof.
  destruct (updatePrices_events StringToNumber w st) as (k & evs & _ & Hst & Hevs).
  exists (retry_trace k ++ evs). rewrite Hst. cbn [trace].
  split; [reflexivity|].
  rewrite count_app, count_retry_send.
  assert (Hretry : forall ev, In ev (retry_trace k) -> is_ledger_call ev = false).
  { intros ev H. destruct (In_retry_trace _ _ H) as [-> | ->]; reflexivity. }
  destruct Hevs as [-> | (p & Hp & Hevs)].
  { split; [cbn; lia|]. rewrite app_nil_r. split.
    - intros p a b H. apply Hretry in H. discriminate.
    - intros ev H Hl. apply Hretry in H. congruence. }
  assert (Hledger : forall ev, In ev (retry_trace k ++ evs) ->
                               is_ledger_call ev = true ->
                               exists p, fst (getGoldPrices StringToNumber w 0 st)
                                         = Return p).
  { intros ev _ _. exists p. exact Hp. }
  destruct Hevs as [-> | [-> | [-> | (fd & Hfd & [-> | ->])]]].
  1,2,3: (split; [cbn; lia|]); (split; [|exact Hledger]);
         intros q a b H; apply in_app_or in H; destruct H as [H|H];
         [apply Hretry in H; discriminate
         |cbn in H; repeat (destruct H as [H|H]; try discriminate); contradiction].
  all: (split; [cbn; lia|]); (split; [|exact Hledger]);
       intros q a b H; apply in_app_or in H; destruct H as [H|H];
       [apply Hretry in H; discriminate|];
       cbn in H; repeat (destruct H as [H|H]; try discriminate);
       try contradiction;
       injection H as <- <- <-; (split; [exact Hp|]); apply fees_nonzero.
Qed.

(** X15.  When a cycle returns, its result tells what was done:
    [skipped], after the requests of the fetch and one read of the ledger;
    or [submitted] with the fetched prices, after the read, the gas
    estimate, the fee query, one transaction and the wait for its receipt. *)
Theorem updatePrices_result_matches_effects
        (w : World) (st : state) (result : UpdateResult) :
  fst (updatePrices StringToNumber w st) = Return result ->
  exists p k,
    fst (getGoldPrices StringToNumber w 0 st) = Return p /\
    (k <= Config.maxRetries)%nat /\
    ((result = skipped /\
      trace (snd (updatePrices StringToNumber w st)) =
        trace st ++ retry_trace k ++ [EvGetAllPrices]) \/
     (exists receipt fd,
        result = submitted receipt p /\
        trace (snd (updatePrices StringToNumber w st)) =
          trace st ++ retry_trace k ++
            [EvGetAllPrices; EvEstimateGas p; EvGetFeeData;
             EvSendTransaction p (fee_cap fd) (priority_fee fd); EvWait])).
Proof.
  destruct (getGoldPrices_shape StringToNumber w Config.maxRetries 0%nat st
              ltac:(reflexivity)) as (k & Hk & Hrun & _ & _).
  rewrite updatePrices_run, Hrun.
  destruct (attempt StringToNumber w (requests st + k)) as [p|e]; [|discriminate].
  rewrite getCurrentContractPrices_run.
  destruct (contract_getAllPrices w) as [cur|e]; [|discriminate].
  destruct (pricesChanged cur p) as [[|]|e]; [| |discriminate].
  - rewrite updateContractPrices_run.
    destruct (contract_estimateGas w p) as [gas|e]; [|discriminate].
    destruct (provider_getFeeData w) as [fd|e]; [|discriminate].
    cbv zeta.
    destruct (contract_updatePrices w p (fee_cap fd) (priority_fee fd)) as [tx|e];
      [|discriminate].
    destruct (tx_wait tx) as [receipt|e]; [|discriminate].
    intros H. injection H as <-. exists p, k.
    split; [reflexivity|]. split; [exact Hk|]. right.
    exists receipt, fd. split; [reflexivity|].
    cbn [snd after trace requests]. rewrite <- !app_assoc. reflexivity.
  - intros H. injection H as <-. exists p, k.
    split; [reflexivity|]. split; [exact Hk|]. left.
    split; [reflexivity|].
    cbn [snd after trace requests]. rewrite <- !app_assoc. reflexivity.
Qed.

(** X16.  On a ledger never updated, [lastUpdated] being zero, the
    cycle goes on to the submission whatever prices were fetched, and ends
    as the submission ends. *)
Theorem updatePrices_first_run
        (w : World) (st st1 : state) (p : PriceSet) (cur : PriceData) :
  getGoldPrices StringToNumber w 0 st = (Return p, st1) ->
  contract_getAllPrices w = Return cur ->
  pd_lastUpdated cur = 0 ->
  updatePrices StringToNumber w st =
    match updateContractPrices w p (after [EvGetAllPrices] st1) with
    | (Return receipt, st3) => (Return (submitted receipt p), st3)
    | (Throw e, st3) => (Throw e, st3)
    end.
Proof.
  intros Hg Hc H0.
  rewrite updatePrices_run, Hg, getCurrentContractPrices_run, Hc.
  unfold pricesChanged. rewrite H0. cbn [Z.eqb].
  destruct (updateContractPrices w p (after [EvGetAllPrices] st1)) as [[r|e] st3];
    reflexivity.
Qed.

(** X17.  On a ledger updated before, fetched prices whose price per
    gram is not an integer end the cycle with a RangeError right after the
    read of the ledger: nothing is estimated or sent. *)
Theorem updatePrices_stops_on_non_integer
        (w : World) (st st1 : state) (p : PriceSet) (cur : PriceData) :
  getGoldPrices StringToNumber w 0 st = (Return p, st1) ->
  contract_getAllPrices w = Return cur ->
  pd_lastUpdated cur <> 0 ->
  isInteger (pricePerGram p) = false ->
  updatePrices StringToNumber w st =
    (Throw (RangeError (pricePerGram p)), after [EvGetAllPrices] st1).
Proof.
  intros Hg Hc H0 Hi.
  rewrite updatePrices_run, Hg, getCurrentContractPrices_run, Hc.
  unfold pricesChanged, BigInt. apply Z.eqb_neq in H0. rewrite H0, Hi.
  destruct (number_ltb_bigint _ _); reflexivity.
Qed.

(** X18.  [scheduledUpdate] does not throw: it has the effects of the
    cycle and returns, whether the cycle returned or threw. *)
Theorem scheduledUpdate_never_throws (w : World) (st : state) :
  scheduledUpdate StringToNumber w st =
    (Return tt, snd (updatePrices StringToNumber w st)).
Proof.
  unfold scheduledUpdate, try_catch, bind, ret.
  destruct (updatePrices StringToNumber w st) as [[result|e] st1];
    [destruct (updated result)|]; reflexivity.
Qed.

(** X19.  [POST /update-prices] answers 401 without running the cycle
    when the key is refused; when the key is accepted it runs the cycle and
    answers 200 with its result, or 500 with its error; it does not throw,
    and [success] is true in the 200 reply only. *)
Theorem post_update_prices_replies
        (env : ProcessEnv) (header : option string) (w : World) (st : state) :
  (authenticateApiKey env header = false ->
   post_update_prices StringToNumber env header w st = (Return unauthorized, st)) /\
  (authenticateApiKey env header = true ->
   snd (post_update_prices StringToNumber env header w st) =
     snd (updatePrices StringToNumber w st) /\
   fst (post_update_prices StringToNumber env header w st) =
     match fst (updatePrices StringToNumber w st) with
     | Return result => Return (mkReply 200 true (Some result) None None)
     | Throw e =>
         Return (mkReply 500 false None (Some "Failed to update prices"%string)
                         (Some e))
     end) /\
  (exists reply,
      fst (post_update_prices StringToNumber env header w st) = Return reply /\
      (status reply = 200 \/ status reply = 401 \/ status reply = 500) /\
      (success reply = true <-> status reply = 200)).
Proof.
  unfold post_update_prices, try_catch, bind, ret.
  destruct (authenticateApiKey env header).
  - split; [discriminate|]. split.
    + intros _.
      destruct (updatePrices StringToNumber w st) as [[result|e] st1];
        split; reflexivity.
    + destruct (updatePrices StringToNumber w st) as [[result|e] st1];
        eexists; (split; [reflexivity|]); cbn; split; auto;
        split; try reflexivity; discriminate.
  - split; [reflexivity|]. split; [discriminate|].
    eexists. split; [reflexivity|]. cbn. split; [auto|].
    split; discriminate.
Qed.

End CycleProperties.

(* ===================================================================== *)
(** * The server *)
(* ===================================================================== *)

(** X20.  A request passes [authenticateApiKey] exactly when its
    [x-api-key] header is the configured key; with [API_KEY] absent or
    empty the configured key is the built-in default, which is then
    accepted. *)
Theorem authenticateApiKey_accepts_iff (env : ProcessEnv) (header : option string) :
  (authenticateApiKey env header = true <-> header = Some (server_apiKey env)) /\
  (unset (API_KEY env) = true ->
   authenticateApiKey env (Some "your-secret-api-key"%string) = true).
Proof.
  assert (Hne : String.eqb (server_apiKey env) EmptyString = false).
  { unfold server_apiKey. destruct (API_KEY env) as [k|]; [|reflexivity].
    destruct (String.eqb k EmptyString) eqn:E; [reflexivity|exact E]. }
  split.
  - unfold authenticateApiKey. destruct header as [k|].
    + destruct (String.eqb k EmptyString) eqn:E.
      * split; [discriminate|]. intros H. injection H as ->. congruence.
      * rewrite String.eqb_eq. split; congruence.
    + split; discriminate.
  - intros Hu. unfold authenticateApiKey, server_apiKey, unset in *.
    destruct (API_KEY env) as [k|]; [rewrite Hu|]; reflexivity.
Qed.

(** X21.  [validateConfig] returns exactly when the four required
    variables are present and not empty; what it throws is an [Error]; and
    [API_KEY] plays no part in it. *)
Theorem validateConfig_returns_iff (env : ProcessEnv) :
  (validateConfig env = Return tt <->
   unset (GOLD_API_KEY env) = false /\ unset (RPC_URL env) = false /\
   unset (PRIVATE_KEY env) = false /\ unset (CONTRACT_ADDRESS env) = false) /\
  (forall e, validateConfig env = Throw e -> exists msg, e = Error msg) /\
  (forall other,
      validateConfig (mkProcessEnv (GOLD_API_KEY env) (RPC_URL env)
                                   (PRIVATE_KEY env) (CONTRACT_ADDRESS env) other)
      = validateConfig env).
Proof.
  unfold validateConfig. cbn [List.filter snd GOLD_API_KEY RPC_URL PRIVATE_KEY
                              CONTRACT_ADDRESS].
  destruct (unset (GOLD_API_KEY env)), (unset (RPC_URL env)),
    (unset (PRIVATE_KEY env)), (unset (CONTRACT_ADDRESS env)); cbn;
    (split; [split; [try discriminate; auto | intros (?&?&?&?); try discriminate; auto]|]);
    (split; [intros e H; try discriminate; injection H as <-; eauto | reflexivity]).
Qed.

(* ===================================================================== *)
(** * Ownership, reads and staleness of the ledger *)
(* ===================================================================== *)

Module LedgerProperties.
Import GoldOracle GoldOracleProofs LedgerRuns.

Lemma transact_updatePrices env g o k24 k22 k18 st :
  transact env (CallUpdatePrices g o k24 k22 k18) st =
    storage_after st (updatePrices env g o k24 k22 k18 st).
Proof.
  unfold transact, dispatch, as_ret, sbind.
  destruct (updatePrices env g o k24 k22 k18 st); reflexivity.
Qed.

Lemma transact_transferOwnership env n st :
  transact env (CallTransferOwnership n) st =
    storage_after st (transferOwnership env n st).
Proof.
  unfold transact, dispatch, as_ret, sbind.
  destruct (transferOwnership env n st); reflexivity.
Qed.

Lemma transact_cases env c st :
  transact env c st = st \/
  (exists g o k24 k22 k18,
      c = CallUpdatePrices g o k24 k22 k18 /\
      msg_sender env = owner st /\
      0 < g /\ 0 < o /\ 0 < k24 /\ 0 < k22 /\ 0 < k18 /\
      transact env c st =
        mkState g o k24 k22 k18 (block_timestamp env) (owner st)) \/
  (exists n,
      c = CallTransferOwnership n /\ msg_sender env = owner st /\ n <> 0 /\
      transact env c st = set_owner n st).
Proof.
  destruct c;
    try (left; apply reads_keep_storage; discriminate).
  - rewrite transact_updatePrices, updatePrices_outcome.
    destruct (msg_sender env =? owner st) eqn:Eo; [|left; reflexivity].
    destruct (0 <? _gram) eqn:E1; [|left; reflexivity].
    destruct (0 <? _ounce) eqn:E2; [|left; reflexivity].
    destruct (0 <? _k24) eqn:E3; [|left; reflexivity].
    destruct (0 <? _k22) eqn:E4; [|left; reflexivity].
    destruct (0 <? _k18) eqn:E5; [|left; reflexivity].
    right. left. exists _gram, _ounce, _k24, _k22, _k18.
    apply Z.eqb_eq in Eo. apply Z.ltb_lt in E1, E2, E3, E4, E5.
    repeat (split; [assumption || reflexivity|]). reflexivity.
  - rewrite transact_transferOwnership, transferOwnership_outcome.
    destruct (msg_sender env =? owner st) eqn:Eo; [|left; reflexivity].
    destruct (newOwner =? 0) eqn:En; [left; reflexivity|].
    right. right. exists newOwner.
    apply Z.eqb_eq in Eo. apply Z.eqb_neq in En.
    repeat (split; [assumption || reflexivity|]). reflexivity.
Qed.

(** X22.  A caller who is not the owner changes nothing: every call
    leaves the storage as it was, and [updatePrices] and
    [transferOwnership] revert with the message of [onlyOwner]. *)
Theorem strangers_change_nothing (env : Env) (st : State) :
  msg_sender env <> owner st ->
  (forall c, transact env c st = st) /\
  (forall g o k24 k22 k18,
      updatePrices env g o k24 k22 k18 st =
        Revert "GoldOracle: caller is not the owner") /\
  (forall n,
      transferOwnership env n st = Revert "GoldOracle: caller is not the owner").
Proof.
  intros Hne. apply Z.eqb_neq in Hne. split; [|split].
  - intros c. destruct (transact_cases env c st) as [H|[H|H]]; [exact H| |].
    + destruct H as (g & o & a & b & d & _ & Ho & _).
      apply Z.eqb_eq in Ho. congruence.
    + destruct H as (n & _ & Ho & _). apply Z.eqb_eq in Ho. congruence.
  - intros. rewrite updatePrices_outcome, Hne. reflexivity.
  - intros. rewrite transferOwnership_outcome, Hne. reflexivity.
Qed.

(** X23.  [transferOwnership] by the owner to a non-zero address
    changes the owner and nothing else, and logs the handover; the new owner
    can then update the prices, and the former owner, if another address,
    can change nothing any more. *)
Theorem transferOwnership_hands_over (env : Env) (newOwner : address) (st : State) :
  msg_sender env = owner st -> newOwner <> 0 ->
  let st' := transact env (CallTransferOwnership newOwner) st in
  st' = set_owner newOwner st /\
  transferOwnership env newOwner st =
    Ok tt st' [OwnershipTransferred (owner st) newOwner] /\
  (forall env' g o k24 k22 k18,
      msg_sender env' = newOwner ->
      0 < g -> 0 < o -> 0 < k24 -> 0 < k22 -> 0 < k18 ->
      transact env' (CallUpdatePrices g o k24 k22 k18) st' =
        mkState g o k24 k22 k18 (block_timestamp env') newOwner) /\
  (newOwner <> owner st ->
   forall env' c, msg_sender env' = owner st -> transact env' c st' = st').
Proof.
  intros Ho Hn st'.
  assert (Hst' : st' = set_owner newOwner st).
  { unfold st'. rewrite transact_transferOwnership, transferOwnership_outcome.
    apply Z.eqb_eq in Ho. apply Z.eqb_neq in Hn. rewrite Ho, Hn. reflexivity. }
  split; [exact Hst'|]. split; [|split].
  - rewrite Hst', transferOwnership_outcome.
    apply Z.eqb_eq in Ho. apply Z.eqb_neq in Hn. rewrite Ho, Hn. reflexivity.
  - intros env' g o k24 k22 k18 Hs Hg Hu H24 H22 H18.
    rewrite transact_updatePrices, updatePrices_outcome, Hst'.
    cbn [set_owner owner]. apply Z.eqb_eq in Hs. apply Z.ltb_lt in Hg, Hu, H24, H22, H18.
    rewrite Hs, Hg, Hu, H24, H22, H18. reflexivity.
  - intros Hdiff env' c Hs.
    destruct (transact_cases env' c st') as [H|[H|H]]; [exact H| |].
    + destruct H as (g & o & a & b & d & _ & Ho' & _).
      rewrite Hst' in Ho'. cbn [set_owner owner] in Ho'. congruence.
    + destruct H as (n & _ & Ho' & _).
      rewrite Hst' in Ho'. cbn [set_owner owner] in Ho'. congruence.
Qed.

Lemma owner_transact env c st : owner st <> 0 -> owner (transact env c st) <> 0.
Proof.
  intros H. destruct (transact_cases env c st) as [E|[E|E]].
  - rewrite E. exact H.
  - destruct E as (g & o & a & b & d & _ & _ & _ & _ & _ & _ & _ & E).
    rewrite E. exact H.
  - destruct E as (n & _ & _ & Hn & E). rewrite E. exact Hn.
Qed.

(** X24.  Deployed by a non-zero address, the contract has that address
    as its owner, and after any sequence of calls the owner is not the zero
    address. *)
Theorem owner_never_zero (env0 : Env) (calls : list (Env * Call)) :
  msg_sender env0 <> 0 ->
  owner (deploy env0) = msg_sender env0 /\
  owner (run calls (deploy env0)) <> 0.
Proof.
  intros H0. split; [reflexivity|].
  assert (Hd : owner (deploy env0) <> 0) by exact H0.
  revert Hd. generalize (deploy env0). 
  induction calls as [|[env c] rest IH]; intros st Hst; cbn [run].
  - exact Hst.
  - apply IH, owner_transact, Hst.
Qed.

(** X25.  After an update by the owner with five positive prices, the
    read functions return what was written: [getAllPrices] the five prices
    and the block's timestamp, the single getters each their price. *)
Theorem reads_return_what_was_written
        (env : Env) (g o k24 k22 k18 : Z) (st : State) :
  msg_sender env = owner st ->
  0 < g -> 0 < o -> 0 < k24 -> 0 < k22 -> 0 < k18 ->
  let st' := transact env (CallUpdatePrices g o k24 k22 k18) st in
  getAllPrices st' =
    Ok (mkPriceData g o k24 k22 k18 (block_timestamp env)) st' [] /\
  getGoldPricePerGram st' = Ok g st' [] /\
  getGoldPricePerOunce st' = Ok o st' [] /\
  getGoldPriceByKarat 24 st' = Ok k24 st' [] /\
  getGoldPriceByKarat 22 st' = Ok k22 st' [] /\
  getGoldPriceByKarat 18 st' = Ok k18 st' [] /\
  getLastUpdated st' = Ok (block_timestamp env) st' [].
Proof.
  intros Ho Hg Hu H24 H22 H18 st'.
  assert (Hst' : st' = mkState g o k24 k22 k18 (block_timestamp env) (owner st)).
  { unfold st'. rewrite transact_updatePrices, updatePrices_outcome.
    apply Z.eqb_eq in Ho. apply Z.ltb_lt in Hg, Hu, H24, H22, H18.
    rewrite Ho, Hg, Hu, H24, H22, H18. reflexivity. }
  rewrite Hst'. repeat split.
Qed.

(** X26.  For a karat in the range of [uint8], [getGoldPriceByKarat]
    reverts exactly when the karat is none of 18, 22 and 24, with the
    message of the function; otherwise it returns the stored price of that
    karat and changes nothing. *)
Theorem getGoldPriceByKarat_reverts_iff (karat : Z) (st : State) :
  0 <= karat < 256 ->
  ((exists reason, getGoldPriceByKarat karat st = Revert reason) <->
   karat <> 18 /\ karat <> 22 /\ karat <> 24) /\
  (forall reason,
      getGoldPriceByKarat karat st = Revert reason ->
      reason = "GoldOracle: invalid karat (must be 18, 22, or 24)"%string) /\
  (forall v st' logs,
      getGoldPriceByKarat karat st = Ok v st' logs ->
      st' = st /\ logs = [] /\
      (karat = 24 /\ v = pricePerKarat24 st \/
       karat = 22 /\ v = pricePerKarat22 st \/
       karat = 18 /\ v = pricePerKarat18 st)).
Proof.
  intros _. unfold getGoldPriceByKarat, load, revert.
  destruct (karat =? 24) eqn:E24; [apply Z.eqb_eq in E24|apply Z.eqb_neq in E24].
  { split; [split; [intros [r H]; discriminate|lia]|].
    split; [discriminate|]. intros v st' logs H. injection H as <- <- <-.
    split; [reflexivity|split; [reflexivity|auto 6]]. }
  destruct (karat =? 22) eqn:E22; [apply Z.eqb_eq in E22|apply Z.eqb_neq in E22].
  { split; [split; [intros [r H]; discriminate|lia]|].
    split; [discriminate|]. intros v st' logs H. injection H as <- <- <-.
    split; [reflexivity|split; [reflexivity|auto 6]]. }
  destruct (karat =? 18) eqn:E18; [apply Z.eqb_eq in E18|apply Z.eqb_neq in E18].
  { split; [split; [intros [r H]; discriminate|lia]|].
    split; [discriminate|]. intros v st' logs H. injection H as <- <- <-.
    split; [reflexivity|split; [reflexivity|auto 6]]. }
  split; [split; [auto|eauto]|].
  split; [intros r H; injection H as <-; reflexivity|discriminate].
Qed.

Lemma lastUpdated_transact env c st :
  lastUpdated (transact env c st) = lastUpdated st \/
  lastUpdated (transact env c st) = block_timestamp env.
Proof.
  destruct (transact_cases env c st) as [E|[E|E]].
  - rewrite E. auto.
  - destruct E as (g & o & a & b & d & _ & _ & _ & _ & _ & _ & _ & E).
    rewrite E. auto.
  - destruct E as (n & _ & _ & _ & E). rewrite E. auto.
Qed.

Lemma lastUpdated_run calls : forall t st,
  chronological t calls ->
  lastUpdated st = 0 \/ lastUpdated st <= t ->
  lastUpdated (run calls st) = 0 \/ lastUpdated (run calls st) <= last_time t calls.
Proof.
  induction calls as [|[env c] rest IH]; intros t st Hc Hst; cbn [run last_time].
  - exact Hst.
  - destruct Hc as [Ht Hc]. apply IH; [exact Hc|].
    destruct (lastUpdated_transact env c st) as [E|E]; rewrite E; lia.
Qed.

Lemma isStale_outcome env st :
  isStale env st =
    if lastUpdated st =? 0 then Ok true st []
    else if lastUpdated st <=? block_timestamp env
         then Ok (3600 <? block_timestamp env - lastUpdated st) st []
         else Revert "Panic(0x11)".
Proof.
  run_sol. destruct (lastUpdated st =? 0); [reflexivity|].
  destruct (lastUpdated st <=? block_timestamp env); reflexivity.
Qed.

(** X27.  As long as block timestamps do not go back, [isStale] does
    not revert after any sequence of calls to a deployed contract: it answers
    true exactly when no update was made yet or the last one is more than
    3600 seconds old. *)
Theorem isStale_never_panics
        (env0 : Env) (calls : list (Env * Call)) (env : Env) :
  chronological (block_timestamp env0) calls ->
  last_time (block_timestamp env0) calls <= block_timestamp env ->
  let st := run calls (deploy env0) in
  exists b,
    isStale env st = Ok b st [] /\
    (b = true <->
     lastUpdated st = 0 \/ 3600 < block_timestamp env - lastUpdated st).
Proof.
  intros Hc Hnow st.
  assert (Hlu : lastUpdated st = 0 \/
                lastUpdated st <= last_time (block_timestamp env0) calls).
  { apply lastUpdated_run; [exact Hc|]. left. reflexivity. }
  rewrite isStale_outcome.
  destruct (lastUpdated st =? 0) eqn:E0.
  - exists true. split; [reflexivity|]. apply Z.eqb_eq in E0. tauto.
  - apply Z.eqb_neq in E0.
    assert (Hle : (lastUpdated st <=? block_timestamp env) = true)
      by (apply Z.leb_le; lia).
    rewrite Hle. eexists. split; [reflexivity|].
    rewrite Z.ltb_lt. split; [auto|]. intros [H|H]; [contradiction|exact H].
Qed.

(** X28.  After an update in a block with a positive timestamp [t],
    [isStale] at a later time [t'] answers whether [t + 3600 < t']: the
    prices are fresh up to and including the 3600th second. *)
Theorem isStale_window (env env' : Env) (g o k24 k22 k18 : Z) (st : State) :
  msg_sender env = owner st ->
  0 < g -> 0 < o -> 0 < k24 -> 0 < k22 -> 0 < k18 ->
  valid_env env ->
  block_timestamp env <= block_timestamp env' ->
  let st' := transact env (CallUpdatePrices g o k24 k22 k18) st in
  isStale env' st' =
    Ok (block_timestamp env + STALENESS_THRESHOLD <? block_timestamp env') st' [].
Proof.
  intros Ho Hg Hu H24 H22 H18 Hv Hle st'.
  assert (Hst' : st' = mkState g o k24 k22 k18 (block_timestamp env) (owner st)).
  { unfold st'. rewrite transact_updatePrices, updatePrices_outcome.
    apply Z.eqb_eq in Ho. apply Z.ltb_lt in Hg, Hu, H24, H22, H18.
    rewrite Ho, Hg, Hu, H24, H22, H18. reflexivity. }
  rewrite isStale_outcome, Hst'. cbn [lastUpdated]. unfold valid_env in Hv.
  assert (E0 : (block_timestamp env =? 0) = false) by (apply Z.eqb_neq; lia).
  assert (E1 : (block_timestamp env <=? block_timestamp env') = true)
    by (apply Z.leb_le; lia).
  rewrite E0, E1. f_equal. unfold STALENESS_THRESHOLD.
  apply eq_true_iff_eq. rewrite !Z.ltb_lt. lia.
Qed.

Lemma reachable_invariant st : reachable st -> invariant st.
Proof.
  induction 1 as [env | env c st Hr IH Henv].
  - apply invariant_deploy.
  - apply invariant_transact; assumption.
Qed.

(** X29.  In a reachable storage, a price per gram of zero means
    [isStale] answers true; and when [isStale] answers false all five
    prices and the update time are positive. *)
Theorem not_stale_means_priced (env : Env) (st : State) :
  reachable st ->
  (pricePerGram st = 0 -> isStale env st = Ok true st []) /\
  (forall st' logs, isStale env st = Ok false st' logs -> priced st).
Proof.
  intros Hr. pose proof (reachable_invariant st Hr) as [Hf|Hp].
  - destruct Hf as (Hg & _ & _ & _ & _ & Hlu).
    rewrite isStale_outcome, Hlu. cbn [Z.eqb]. split; [reflexivity|discriminate].
  - split; [|intros; exact Hp].
    destruct Hp as (Hg & _). lia.
Qed.

End LedgerProperties.

(* ===================================================================== *)
(** * The properties on the sample inputs *)
(* ===================================================================== *)

Module ScenarioRuns.
Import Samples Scenarios LedgerProperties.

Lemma fetchGoldPrice_returns_iff_witness :
  fst (fetchGoldPrice ledger_empty initial_state) = Return quote /\
  fst (fetchGoldPrice feed_opaque initial_state) <> Return (Obj (VObject None)).
Proof.
  split.
  - apply (proj2 (fetchGoldPrice_returns_iff ledger_empty initial_state quote)).
    split; [reflexivity|]. split; [reflexivity|].
    intros price H. injection H as <-. eexists. reflexivity.
  - intros H.
    apply (proj1 (fetchGoldPrice_returns_iff feed_opaque initial_state
                    (Obj (VObject None)))) in H.
    destruct H as (_ & _ & H). destruct (H _ eq_refl) as [q Hq]. discriminate.
Defined.

Lemma fetchGoldPrice_throws_plain_errors_witness :
  fst (fetchGoldPrice feed_down initial_state) =
    Throw (Error "GoldAPI did not respond") /\
  error_request (Error "GoldAPI did not respond") = false /\
  fst (fetchGoldPrice feed_opaque initial_state) = Throw TypeError /\
  error_response TypeError = None.
Proof.
  split; [reflexivity|]. split; [|split; [reflexivity|]].
  - exact (proj1 (proj2 (fetchGoldPrice_throws_plain_errors
                           feed_down initial_state _ eq_refl))).
  - exact (proj1 (fetchGoldPrice_throws_plain_errors
                    feed_opaque initial_state _ eq_refl)).
Defined.

Lemma calculatePrices_monotone_witness :
  le (decimal 203750 2) (decimal 203751 2) /\
  exists ps1 ps2,
    calculatePrices no_numeric_strings (Obj (VNumber (decimal 203750 2))) = Return ps1 /\
    calculatePrices no_numeric_strings (Obj (VNumber (decimal 203751 2))) = Return ps2 /\
    prices_le ps1 ps2.
Proof.
  split; [reflexivity|].
  apply (calculatePrices_monotone no_numeric_strings
           (VNumber (decimal 203750 2)) (VNumber (decimal 203751 2))
           (decimal 203750 2) (decimal 203751 2)).
  - reflexivity.
  - reflexivity.
  - vm_compute. split; reflexivity.
  - vm_compute. split; reflexivity.
  - reflexivity.
Defined.

Lemma calculatePrices_range_witness :
  le (of_Z 1) (decimal 203750 2) /\ le (decimal 203750 2) (of_Z 10000000) /\
  exists ps,
    calculatePrices no_numeric_strings quote = Return ps /\
    2411304 <= integer_value (pricePerKarat18 ps) /\
    integer_value (pricePerOunce ps) <= 1000000000000000.
Proof.
  split; [reflexivity|]. split; [reflexivity|].
  destruct (calculatePrices_range no_numeric_strings (VNumber (decimal 203750 2))
              (decimal 203750 2))
    as (ps & H & _ & _ & _ & _ & _ & Hlo & _ & _ & _ & Hhi).
  - reflexivity.
  - vm_compute. split; reflexivity.
  - reflexivity.
  - reflexivity.
  - exists ps. split; [exact H|]. split; [exact Hlo|exact Hhi].
Defined.

Lemma calculatePrices_not_a_number_witness :
  ToNumber no_numeric_strings (VString "n/a") = Return NaN /\
  calculatePrices no_numeric_strings (Obj (VString "n/a")) =
    Return (mkPriceSet NaN NaN NaN NaN NaN).
Proof.
  split; [reflexivity|].
  apply (calculatePrices_not_a_number no_numeric_strings (VString "n/a")).
  reflexivity.
Defined.

Lemma calculatePrices_after_fetch_witness :
  fst (fetchGoldPrice ledger_empty initial_state) = Return quote /\
  (exists ps, calculatePrices no_numeric_strings quote = Return ps) /\
  calculatePrices no_numeric_strings (Obj (VObject None)) = Throw TypeError.
Proof.
  split; [reflexivity|]. split.
  - apply (proj1 (proj2 (calculatePrices_after_fetch no_numeric_strings
                           ledger_empty initial_state)) quote).
    reflexivity.
  - apply (proj2 (proj1 (calculatePrices_after_fetch no_numeric_strings
                           ledger_empty initial_state)
                    (Obj (VObject None)) TypeError)).
    split; [right; right; reflexivity|reflexivity].
Defined.

Lemma getGoldPrices_first_success_witness :
  attempt no_numeric_strings feed_third_time 2 = Return quoted_prices /\
  getGoldPrices no_numeric_strings feed_third_time 0 initial_state =
    (Return quoted_prices,
     mkState 3 [EvHttpGet; EvSleep 5000; EvHttpGet; EvSleep 5000; EvHttpGet]).
Proof.
  split; [vm_compute; reflexivity|].
  apply (getGoldPrices_first_success no_numeric_strings feed_third_time
           initial_state 2 quoted_prices).
  - unfold Config.maxRetries. lia.
  - intros i Hi. destruct i as [|[|i]]; [eexists; reflexivity..|lia].
  - vm_compute. reflexivity.
Defined.

Lemma pricesChanged_throws_iff_witness :
  pd_lastUpdated recorded <> 0 /\
  pricesChanged recorded (mkPriceSet NaN NaN NaN NaN NaN) = Throw (RangeError NaN).
Proof.
  split; [discriminate|].
  apply (proj2 (pricesChanged_throws_iff recorded
                  (mkPriceSet NaN NaN NaN NaN NaN) (RangeError NaN))).
  split; [discriminate|]. split; reflexivity.
Defined.

Lemma pricesChanged_on_computed_prices_witness :
  le (decimal 203750 2) (of_Z 10000000) /\
  exists ps,
    calculatePrices no_numeric_strings quote = Return ps /\
    pricesChanged recorded ps =
      Return (10000 <? Z.abs (6550000000 - integer_value (pricePerGram ps))).
Proof.
  split; [reflexivity|].
  destruct (pricesChanged_on_computed_prices no_numeric_strings
              (VNumber (decimal 203750 2)) (decimal 203750 2) recorded)
    as (ps & H & _ & Hc).
  - reflexivity.
  - vm_compute. split; reflexivity.
  - reflexivity.
  - exists ps. split; [exact H|exact Hc].
Defined.

Lemma updateContractPrices_returns_iff_witness :
  tx_wait tx_ok = Return receipt_ok /\
  fst (updateContractPrices ledger_empty quoted_prices initial_state) =
    Return receipt_ok.
Proof.
  split; [reflexivity|].
  apply (proj2 (updateContractPrices_returns_iff ledger_empty quoted_prices
                  initial_state receipt_ok)).
  exists 60000, fees_unknown, tx_ok. repeat split.
Defined.

Lemma updatePrices_result_matches_effects_witness :
  fst (updatePrices no_numeric_strings ledger_current initial_state) = Return skipped /\
  exists p k,
    fst (getGoldPrices no_numeric_strings ledger_current 0 initial_state) = Return p /\
    (k <= Config.maxRetries)%nat.
Proof.
  split; [vm_compute; reflexivity|].
  destruct (updatePrices_result_matches_effects no_numeric_strings ledger_current
              initial_state skipped) as (p & k & Hp & Hk & _).
  - vm_compute. reflexivity.
  - exists p, k. split; [exact Hp|exact Hk].
Defined.

Lemma updatePrices_first_run_witness :
  pd_lastUpdated (mkPriceData 0 0 0 0 0 0) = 0 /\
  updatePrices no_numeric_strings ledger_empty initial_state =
    (Return (submitted receipt_ok quoted_prices),
     mkState 1 [EvHttpGet; EvGetAllPrices; EvEstimateGas quoted_prices;
                EvGetFeeData;
                EvSendTransaction quoted_prices 50000000000 30000000000;
                EvWait]).
Proof.
  split; [reflexivity|].
  rewrite (updatePrices_first_run no_numeric_strings ledger_empty initial_state
             (mkState 1 [EvHttpGet]) quoted_prices (mkPriceData 0 0 0 0 0 0)).
  - vm_compute. reflexivity.
  - vm_compute. reflexivity.
  - reflexivity.
  - reflexivity.
Defined.

Lemma updatePrices_stops_on_non_integer_witness :
  isInteger NaN = false /\
  updatePrices no_numeric_strings feed_text initial_state =
    (Throw (RangeError NaN), mkState 1 [EvHttpGet; EvGetAllPrices]).
Proof.
  split; [reflexivity|].
  apply (updatePrices_stops_on_non_integer no_numeric_strings feed_text
           initial_state (mkState 1 [EvHttpGet])
           (mkPriceSet NaN NaN NaN NaN NaN) recorded).
  - vm_compute. reflexivity.
  - reflexivity.
  - discriminate.
  - reflexivity.
Defined.

Lemma post_update_prices_replies_witness :
  authenticateApiKey env_complete (Some "guess"%string) = false /\
  post_update_prices no_numeric_strings env_complete (Some "guess"%string)
    ledger_empty initial_state = (Return unauthorized, initial_state).
Proof.
  split; [reflexivity|].
  apply (proj1 (post_update_prices_replies no_numeric_strings env_complete
                  (Some "guess"%string) ledger_empty initial_state)).
  reflexivity.
Defined.

Lemma authenticateApiKey_accepts_iff_witness :
  unset (API_KEY env_complete) = true /\
  authenticateApiKey env_complete (Some "your-secret-api-key"%string) = true.
Proof.
  split; [reflexivity|].
  apply (proj2 (authenticateApiKey_accepts_iff env_complete None)).
  reflexivity.
Defined.

Lemma validateConfig_returns_iff_witness :
  unset (API_KEY env_complete) = true /\ validateConfig env_complete = Return tt.
Proof.
  split; [reflexivity|].
  apply (proj2 (proj1 (validateConfig_returns_iff env_complete))).
  repeat split.
Defined.

Lemma strangers_change_nothing_witness :
  let st := GoldOracle.deploy owner_call in
  GoldOracle.msg_sender stranger_call <> GoldOracle.owner st /\
  GoldOracle.transact stranger_call (GoldOracle.CallTransferOwnership 8) st = st.
Proof.
  intros st. split; [discriminate|].
  apply (proj1 (strangers_change_nothing stranger_call st ltac:(discriminate))).
Defined.

Lemma transferOwnership_hands_over_witness :
  let st := GoldOracle.deploy owner_call in
  let st' := GoldOracle.transact owner_call (GoldOracle.CallTransferOwnership 8) st in
  GoldOracle.owner st' = 8 /\
  GoldOracle.transact owner_call (GoldOracle.CallUpdatePrices 1 1 1 1 1) st' = st'.
Proof.
  intros st st'.
  destruct (transferOwnership_hands_over owner_call 8 st eq_refl ltac:(discriminate))
    as (H1 & _ & _ & H4).
  split.
  - fold st' in H1. rewrite H1. reflexivity.
  - apply (H4 ltac:(discriminate) owner_call). reflexivity.
Defined.

Lemma owner_never_zero_witness :
  GoldOracle.msg_sender owner_call <> 0 /\
  GoldOracle.owner
    (LedgerRuns.run [(owner_call, GoldOracle.CallTransferOwnership 0);
                     (owner_call, GoldOracle.CallTransferOwnership 8)]
                    (GoldOracle.deploy owner_call)) <> 0.
Proof.
  split; [discriminate|].
  apply (owner_never_zero owner_call). discriminate.
Defined.

Lemma reads_return_what_was_written_witness :
  let st' := GoldOracle.transact owner_call
               (GoldOracle.CallUpdatePrices 6550709727 203750000000 6550709727
                                            6004817249 4913032295)
               (GoldOracle.deploy owner_call) in
  GoldOracle.getGoldPriceByKarat 22 st' = GoldOracle.Ok 6004817249 st' [].
Proof.
  intros st'.
  apply (reads_return_what_was_written owner_call 6550709727 203750000000
           6550709727 6004817249 4913032295 (GoldOracle.deploy owner_call));
    reflexivity.
Defined.

Lemma getGoldPriceByKarat_reverts_iff_witness :
  exists reason,
    GoldOracle.getGoldPriceByKarat 21 (GoldOracle.deploy owner_call) =
      GoldOracle.Revert reason.
Proof.
  apply (proj2 (proj1 (getGoldPriceByKarat_reverts_iff 21
                         (GoldOracle.deploy owner_call) ltac:(lia)))).
  repeat split; discriminate.
Defined.

Lemma isStale_never_panics_witness :
  let calls := [(owner_call, GoldOracle.CallUpdatePrices 1 1 1 1 1);
                (stranger_call, GoldOracle.CallIsStale)] in
  LedgerRuns.chronological 1700000000 calls /\
  exists b,
    GoldOracle.isStale later_call (LedgerRuns.run calls (GoldOracle.deploy owner_call)) =
      GoldOracle.Ok b (LedgerRuns.run calls (GoldOracle.deploy owner_call)) [].
Proof.
  intros calls.
  assert (Hc : LedgerRuns.chronological 1700000000 calls).
  { cbn. repeat split; lia. }
  split; [exact Hc|].
  destruct (isStale_never_panics owner_call calls later_call Hc) as (b & Hb & _).
  - cbn. lia.
  - exists b. exact Hb.
Defined.

Lemma isStale_window_witness :
  let st' := GoldOracle.transact owner_call (GoldOracle.CallUpdatePrices 1 1 1 1 1)
               (GoldOracle.deploy owner_call) in
  GoldOracle.isStale later_call st' = GoldOracle.Ok true st' [] /\
  GoldOracle.isStale (GoldOracle.mkEnv 8 1700003600) st' = GoldOracle.Ok false st' [].
Proof.
  intros st'. split.
  - apply (isStale_window owner_call later_call 1 1 1 1 1
             (GoldOracle.deploy owner_call)); try reflexivity. cbn. lia.
  - apply (isStale_window owner_call (GoldOracle.mkEnv 8 1700003600) 1 1 1 1 1
             (GoldOracle.deploy owner_call)); try reflexivity. cbn. lia.
Defined.

Lemma not_stale_means_priced_witness :
  let st := GoldOracle.deploy owner_call in
  GoldOracle.reachable st /\
  GoldOracle.isStale later_call st = GoldOracle.Ok true st [].
Proof.
  intros st.
  assert (R : GoldOracle.reachable st) by apply GoldOracle.reach_deploy.
  split; [exact R|].
  apply (proj1 (not_stale_means_priced later_call st R)). reflexivity.
Defined.

Lemma computed_prices_are_accepted_witness :
  le (of_Z 1) (decimal 203750 2) /\ le (decimal 203750 2) (of_Z 10000000) /\
  exists ps,
    calculatePrices no_numeric_strings quote = Return ps /\
    exists st',
      GoldOracle.updatePrices owner_call
        (integer_value (pricePerGram ps)) (integer_value (pricePerOunce ps))
        (integer_value (pricePerKarat24 ps)) (integer_value (pricePerKarat22 ps))
        (integer_value (pricePerKarat18 ps)) (GoldOracle.deploy owner_call) =
      GoldOracle.Ok tt st'
        [GoldOracle.PricesUpdated
           (integer_value (pricePerGram ps)) (integer_value (pricePerOunce ps))
           (integer_value (pricePerKarat24 ps)) (integer_value (pricePerKarat22 ps))
           (integer_value (pricePerKarat18 ps)) 1700000000].
Proof.
  split; [reflexivity|]. split; [reflexivity|].
  destruct (computed_prices_are_accepted no_numeric_strings
              (VNumber (decimal 203750 2)) (decimal 203750 2)
              owner_call (GoldOracle.deploy owner_call))
    as (ps & H & Hu & _).
  - reflexivity.
  - vm_compute. split; reflexivity.
  - reflexivity.
  - reflexivity.
  - reflexivity.
  - exists ps. split; [exact H|]. eexists. exact Hu.
Defined.

End ScenarioRuns.
